(** * pqxx::connection_base: a shallow embedding of connection_base.cxx

    The connection object of libpqxx sits between its callers and libpq.
    This development embeds the member functions of [connection_base]
    that manage the notice/error handler chain, the notification
    receivers, activation and teardown, and the COPY line protocol, and
    proves what they do.

    Conventions of the embedding.

    - libpq is not part of the repository.  A handle ([PGconn]) is a
      record holding what the library would answer: the replies to
      commands, the notifications that sit on the socket or in the
      library's queue, the values the COPY calls return.  Theorems
      quantify over these records, hence over the answers of the driver.
    - Objects the connection does not own (error handlers, notification
      receivers, the transaction, the connection policy) are known by
      address; what they do when called is given by a record of
      [collaborators].  Handlers and receivers do not call back into the
      connection while they run.
    - Member functions are state transformers over [connection_base], in
      a state-and-exception monad [M] when they can throw.  A call that
      crosses the boundary of the connection object (a command sent to
      the server, a handler or receiver invoked, ...) is appended to the
      ghost field [wire], oldest first.
    - Exceptions are the classes derived from std::exception.  [bad_alloc]
      is raised where the source has a dedicated recovery path for it
      (the notice functions and the diagnostics of [get_notifs]).
    - A [const char[]] is the string of its characters up to the
      terminating NUL; [c_str] gives that view of a std::string.  An
      [int] is a [Z]; the conversions between integer types are written
      out.
    - Loops that run until libpq has nothing more to hand out take as
      fuel the number of items the handle holds, plus one. *)

From Stdlib Require Import String Ascii List ZArith Bool Arith Lia.
Import ListNotations.
Local Open Scope list_scope.
Local Open Scope string_scope.

Set Implicit Arguments.

(** ** Strings *)

Definition NUL : ascii := "000"%char.
Definition LF : ascii := "010"%char.

(** The one-character string "\n". *)
Definition newline : string := String LF EmptyString.

(** [std::string::c_str()] seen as a C string: the bytes before the first
    NUL. *)
Fixpoint c_str (s : string) : string :=
  match s with
  | EmptyString => EmptyString
  | String c r => if Ascii.eqb c NUL then EmptyString else String c (c_str r)
  end.

(** Last character of a string ([msg[len-1]]), if there is one. *)
Fixpoint back (s : string) : option ascii :=
  match s with
  | EmptyString => None
  | String c EmptyString => Some c
  | String _ r => back r
  end.

Definition ends_in_newline (s : string) : bool :=
  match back s with
  | Some c => Ascii.eqb c LF
  | None => false
  end.

(** All characters but the last. *)
Fixpoint front (s : string) : string :=
  match s with
  | EmptyString => EmptyString
  | String _ EmptyString => EmptyString
  | String c r => String c (front r)
  end.

(** The text ends in a newline and the character before it, if any, is
    not a newline. *)
Definition ends_in_exactly_one_newline (s : string) : bool :=
  ends_in_newline s && negb (ends_in_newline (front s)).

(** ** Integers *)

Definition INT_MAX : Z := 2147483647.

(** Conversion of a value to [int]: wrap-around into the 32-bit signed
    range. *)
Definition to_int (z : Z) : Z := (z + 2 ^ 31) mod 2 ^ 32 - 2 ^ 31.

(** Conversion of an [int] to [unsigned]. *)
Definition to_unsigned (z : Z) : Z := z mod 2 ^ 32.

(** ** Exceptions *)

Inductive exception_class :=
| broken_connection
| failure
| sql_error
| feature_not_supported
| argument_error
| internal_error
| usage_error
| bad_alloc
| std_exception.

Record exception := Exception {
  exc_class : exception_class;
  what : string
}.

Definition exception_class_eqb (a b : exception_class) : bool :=
  match a, b with
  | broken_connection, broken_connection
  | failure, failure
  | sql_error, sql_error
  | feature_not_supported, feature_not_supported
  | argument_error, argument_error
  | internal_error, internal_error
  | usage_error, usage_error
  | bad_alloc, bad_alloc
  | std_exception, std_exception => true
  | _, _ => false
  end.

(** [catch (const broken_connection &)] *)
Definition catch_broken_connection (e : exception) : bool :=
  exception_class_eqb (exc_class e) broken_connection.

(** [catch (const std::exception &)] and [catch (...)]: every exception of
    the model. *)
Definition catch_std_exception (e : exception) : bool := true.

Inductive outcome (A : Type) :=
| Returns (a : A)
| Throws (e : exception).

Arguments Returns {A} a.
Arguments Throws {A} e.

(** ** The libpq handle *)

Inductive ConnStatusType :=
| CONNECTION_OK
| CONNECTION_BAD
| CONNECTION_STARTED.

Definition ConnStatusType_is_ok (st : ConnStatusType) : bool :=
  match st with CONNECTION_OK => true | _ => false end.

Inductive ExecStatusType :=
| PGRES_EMPTY_QUERY
| PGRES_COMMAND_OK
| PGRES_TUPLES_OK
| PGRES_COPY_OUT
| PGRES_COPY_IN
| PGRES_BAD_RESPONSE
| PGRES_NONFATAL_ERROR
| PGRES_FATAL_ERROR.

Record PGresult := mkPGresult {
  PQresultStatus : ExecStatusType;
  PQresultErrorMessage : string
}.

Record PGnotify := mkPGnotify {
  relname : string;
  be_pid : Z;
  extra : string
}.

(** What the server answers to one command: the result object (or null)
    and the state the connection is in afterwards. *)
Record exec_reply := mkReply {
  reply_result : option PGresult;
  reply_status : ConnStatusType
}.

Definition FILE := nat.

Inductive notice_processor :=
| inert_notice_processor
| pqxx_notice_processor.

Record PGconn := mkPGconn {
  pg_status : ConnStatusType;
  pg_errorMessage : string;
  pg_clientEncoding : Z;
  pg_serverVersion : Z;
  pg_protocolVersion : Z;
  pg_noticeProcessor : notice_processor;
  pg_trace : option FILE;
  (* the answer to a command sent with PQexec *)
  pg_reply : string -> exec_reply;
  (* the answer of PQescapeIdentifier; None is a null pointer *)
  pg_escapeIdentifier : string -> option string;
  (* the value PQconsumeInput returns *)
  pg_consumeInput : Z;
  (* notifications that arrived on the socket and were not read yet *)
  pg_socket : list PGnotify;
  (* notifications read from the socket, waiting for PQnotifies *)
  pg_notifies : list PGnotify;
  (* result objects PQgetResult still has to hand out *)
  pg_results : list PGresult;
  (* the values the coming PQgetCopyData calls return: length and buffer *)
  pg_copyData : list (Z * option string);
  (* the value PQputCopyData returns *)
  pg_putCopyData : Z
}.

Definition set_pg_status (st : ConnStatusType) (c : PGconn) : PGconn :=
  mkPGconn st (pg_errorMessage c) (pg_clientEncoding c) (pg_serverVersion c)
    (pg_protocolVersion c) (pg_noticeProcessor c) (pg_trace c) (pg_reply c)
    (pg_escapeIdentifier c) (pg_consumeInput c) (pg_socket c) (pg_notifies c)
    (pg_results c) (pg_copyData c) (pg_putCopyData c).

Definition set_pg_noticeProcessor (p : notice_processor) (c : PGconn) : PGconn :=
  mkPGconn (pg_status c) (pg_errorMessage c) (pg_clientEncoding c)
    (pg_serverVersion c) (pg_protocolVersion c) p (pg_trace c) (pg_reply c)
    (pg_escapeIdentifier c) (pg_consumeInput c) (pg_socket c) (pg_notifies c)
    (pg_results c) (pg_copyData c) (pg_putCopyData c).

Definition set_pg_trace (t : option FILE) (c : PGconn) : PGconn :=
  mkPGconn (pg_status c) (pg_errorMessage c) (pg_clientEncoding c)
    (pg_serverVersion c) (pg_protocolVersion c) (pg_noticeProcessor c) t
    (pg_reply c) (pg_escapeIdentifier c) (pg_consumeInput c) (pg_socket c)
    (pg_notifies c) (pg_results c) (pg_copyData c) (pg_putCopyData c).

Definition set_pg_queues (sock queue : list PGnotify) (c : PGconn) : PGconn :=
  mkPGconn (pg_status c) (pg_errorMessage c) (pg_clientEncoding c)
    (pg_serverVersion c) (pg_protocolVersion c) (pg_noticeProcessor c)
    (pg_trace c) (pg_reply c) (pg_escapeIdentifier c) (pg_consumeInput c)
    sock queue (pg_results c) (pg_copyData c) (pg_putCopyData c).

Definition set_pg_results (rs : list PGresult) (c : PGconn) : PGconn :=
  mkPGconn (pg_status c) (pg_errorMessage c) (pg_clientEncoding c)
    (pg_serverVersion c) (pg_protocolVersion c) (pg_noticeProcessor c)
    (pg_trace c) (pg_reply c) (pg_escapeIdentifier c) (pg_consumeInput c)
    (pg_socket c) (pg_notifies c) rs (pg_copyData c) (pg_putCopyData c).

Definition set_pg_copyData (d : list (Z * option string)) (c : PGconn) : PGconn :=
  mkPGconn (pg_status c) (pg_errorMessage c) (pg_clientEncoding c)
    (pg_serverVersion c) (pg_protocolVersion c) (pg_noticeProcessor c)
    (pg_trace c) (pg_reply c) (pg_escapeIdentifier c) (pg_consumeInput c)
    (pg_socket c) (pg_notifies c) (pg_results c) d (pg_putCopyData c).

(** The libpq entry points, as functions of the handle. *)

Definition PQstatus (c : PGconn) : ConnStatusType := pg_status c.

Definition PQerrorMessage (c : PGconn) : string := pg_errorMessage c.

Definition PQclientEncoding (c : PGconn) : Z := pg_clientEncoding c.

Definition PQexec (c : PGconn) (query : string) : PGconn * option PGresult :=
  let r := pg_reply c query in
  (set_pg_status (reply_status r) c, reply_result r).

Definition PQescapeIdentifier (c : PGconn) (identifier : string) : option string :=
  pg_escapeIdentifier c identifier.

(** Reads what is on the socket; on success the notifications found there
    join the queue that PQnotifies serves. *)
Definition PQconsumeInput (c : PGconn) : PGconn * Z :=
  if Z.eqb (pg_consumeInput c) 0 then (c, 0%Z)
  else (set_pg_queues [] (pg_notifies c ++ pg_socket c) c, pg_consumeInput c).

Definition PQnotifies (c : PGconn) : PGconn * option PGnotify :=
  match pg_notifies c with
  | [] => (c, None)
  | n :: rest => (set_pg_queues (pg_socket c) rest c, Some n)
  end.

Definition PQgetResult (c : PGconn) : PGconn * option PGresult :=
  match pg_results c with
  | [] => (c, None)
  | r :: rest => (set_pg_results rest c, Some r)
  end.

(** Returns the length and the buffer of the next row; once the rows are
    used up the copy is over (-1). *)
Definition PQgetCopyData (c : PGconn) : PGconn * (Z * option string) :=
  match pg_copyData c with
  | [] => (c, ((-1)%Z, None))
  | d :: rest => (set_pg_copyData rest c, d)
  end.

Definition PQputCopyData (c : PGconn) (buffer : string) (nbytes : Z) : Z :=
  pg_putCopyData c.

(** ** Objects known by address *)

Definition errorhandler := nat.
Definition notification_receiver := nat.
Definition transaction_base := nat.

(** What the objects around the connection do when the connection calls
    them, and what the environment allows. *)
Record collaborators := mkCollaborators {
  (* errorhandler::operator()(msg); the loop of process_notice_raw goes on
     to the next handler while the value is true *)
  errorhandler_call : errorhandler -> string -> bool;
  (* gate::errorhandler_connection_base::unregister(); Some e: it throws e *)
  errorhandler_unregister : errorhandler -> option exception;
  (* notification_receiver::channel() *)
  receiver_channel : notification_receiver -> string;
  (* notification_receiver::operator()(payload, backend_pid) *)
  receiver_call : notification_receiver -> string -> Z -> option exception;
  (* transaction_base::description() *)
  transaction_description : transaction_base -> outcome string;
  (* connectionpolicy::do_disconnect(handle) *)
  policy_do_disconnect : option PGconn -> option PGconn;
  (* whether a std::string of the given size can be allocated *)
  string_alloc : nat -> bool;
  (* what() of a default-constructed broken_connection *)
  broken_connection_what : string;
  (* what() of the usage_error raised for a misplaced transaction *)
  usage_error_what : string
}.

(** ** The connection object *)

(** Calls that leave the connection object, in the order they happen. *)
Inductive event :=
| SentQuery (query : string)                      (* PQexec *)
| SentQueryAsync (query : string)                 (* PQsendQuery *)
| SentCopyData (buffer : string) (nbytes : Z)     (* PQputCopyData *)
| SentEndcopy                                     (* PQendcopy *)
| Disconnected                                    (* do_disconnect *)
| HandlerCalled (h : errorhandler) (msg : string)
| HandlerUnregistered (h : errorhandler)
| ReceiverCalled (r : notification_receiver) (payload : string) (pid : Z).

(** std::multimap<std::string, notification_receiver *>: the entries in
    iteration order, that is by key, entries of one key in the order the
    insertions gave them. *)
Definition receiver_list := list (string * notification_receiver).

(** The data members the embedded functions use, and the ghost [wire]. *)
Record connection_base := mkConnection {
  m_conn : option PGconn;
  m_completed : bool;
  m_trans : option transaction_base;
  m_errorhandlers : list errorhandler;
  m_trace : option FILE;
  m_serverversion : Z;
  m_receivers : receiver_list;
  wire : list event
}.

Definition set_m_conn (c : option PGconn) (s : connection_base) :=
  mkConnection c (m_completed s) (m_trans s) (m_errorhandlers s) (m_trace s)
    (m_serverversion s) (m_receivers s) (wire s).

Definition set_m_completed (b : bool) (s : connection_base) :=
  mkConnection (m_conn s) b (m_trans s) (m_errorhandlers s) (m_trace s)
    (m_serverversion s) (m_receivers s) (wire s).

Definition set_m_trans (t : option transaction_base) (s : connection_base) :=
  mkConnection (m_conn s) (m_completed s) t (m_errorhandlers s) (m_trace s)
    (m_serverversion s) (m_receivers s) (wire s).

Definition set_m_errorhandlers (hs : list errorhandler) (s : connection_base) :=
  mkConnection (m_conn s) (m_completed s) (m_trans s) hs (m_trace s)
    (m_serverversion s) (m_receivers s) (wire s).

Definition set_m_serverversion (v : Z) (s : connection_base) :=
  mkConnection (m_conn s) (m_completed s) (m_trans s) (m_errorhandlers s)
    (m_trace s) v (m_receivers s) (wire s).

Definition set_m_receivers (rs : receiver_list) (s : connection_base) :=
  mkConnection (m_conn s) (m_completed s) (m_trans s) (m_errorhandlers s)
    (m_trace s) (m_serverversion s) rs (wire s).

(** Appends the events [evs] to the ghost trace. *)
Definition emit (evs : list event) (s : connection_base) :=
  mkConnection (m_conn s) (m_completed s) (m_trans s) (m_errorhandlers s)
    (m_trace s) (m_serverversion s) (m_receivers s) (wire s ++ evs).

(** *** Operations of the multimap *)

Definition entry_eqb (a b : string * notification_receiver) : bool :=
  String.eqb (fst a) (fst b) && Nat.eqb (snd a) (snd b).

Definition has_key (k : string) (e : string * notification_receiver) : bool :=
  String.eqb (fst e) k.

(** [find(k) != end()] *)
Definition mm_contains (k : string) (l : receiver_list) : bool :=
  existsb (has_key k) l.

(** [insert(v)]: after the entries whose key is not greater. *)
Fixpoint mm_insert (v : string * notification_receiver) (l : receiver_list)
  : receiver_list :=
  match l with
  | [] => [v]
  | e :: r => if String.leb (fst e) (fst v) then e :: mm_insert v r
              else v :: e :: r
  end.

(** [insert(p, v)] with the hint [p = find(key)], the first entry of that
    key: just before [p]. *)
Fixpoint mm_insert_hint (v : string * notification_receiver) (l : receiver_list)
  : receiver_list :=
  match l with
  | [] => [v]
  | e :: r => if has_key (fst v) e then v :: e :: r
              else e :: mm_insert_hint v r
  end.

(** [equal_range(k)]: the entries of key [k]. *)
Definition mm_equal_range (k : string) (l : receiver_list) : receiver_list :=
  filter (has_key k) l.

(** [erase(i)] where [i] is the first entry equal to [needle]. *)
Fixpoint mm_erase (needle : string * notification_receiver) (l : receiver_list)
  : receiver_list :=
  match l with
  | [] => []
  | e :: r => if entry_eqb e needle then r else e :: mm_erase needle r
  end.

(** ** The monad of member functions *)

Definition M (A : Type) := connection_base -> outcome A * connection_base.

Definition ret {A} (a : A) : M A := fun s => (Returns a, s).

Definition throw {A} (c : exception_class) (msg : string) : M A :=
  fun s => (Throws (Exception c msg), s).

Definition rethrow {A} (e : exception) : M A := fun s => (Throws e, s).

Definition bind {A B} (m : M A) (k : A -> M B) : M B :=
  fun s => match m s with
           | (Returns a, s') => k a s'
           | (Throws e, s') => (Throws e, s')
           end.

(** [try { m } catch (E &e) { handler e }], [catches] telling whether the
    clause matches. *)
Definition try_catch {A} (m : M A) (catches : exception -> bool)
  (handler : exception -> M A) : M A :=
  fun s => match m s with
           | (Returns a, s') => (Returns a, s')
           | (Throws e, s') => if catches e then handler e s'
                               else (Throws e, s')
           end.

Definition get : M connection_base := fun s => (Returns s, s).

Definition modify (f : connection_base -> connection_base) : M unit :=
  fun s => (Returns tt, f s).

Notation "x <- m ;; k" := (bind m (fun x => k))
  (at level 61, m at next level, right associativity).
Notation "m ;; k" := (bind m (fun _ => k))
  (at level 61, right associativity).

(** [pqxx::result]: the wrapped result object (null or not), the query
    text and the encoding it was created under. *)
Record result := mkResult {
  r_data : option PGresult;
  r_query : string;
  r_encoding : Z
}.

(** [gate::result_connection(R)] as a condition: the result is not null. *)
Definition result_connection (R : result) : bool :=
  match r_data R with Some _ => true | None => false end.

(** Modelled from the spec: result::check_status is defined outside
    connection_base.cxx.  A result is usable when the status the driver
    reports on it is not a fatal or bad-response status; otherwise the
    check raises an SQL error carrying the driver's text. *)
Definition check_status (R : result) : M unit :=
  match r_data R with
  | None => ret tt
  | Some r =>
      match PQresultStatus r with
      | PGRES_BAD_RESPONSE | PGRES_FATAL_ERROR =>
          throw sql_error (PQresultErrorMessage r)
      | _ => ret tt
      end
  end.

(** ** Member functions *)

Section Members.

Variable W : collaborators.

(** *** Connection state *)

Definition status (s : connection_base) : ConnStatusType :=
  match m_conn s with
  | Some c => PQstatus c
  | None => CONNECTION_BAD
  end.

Definition is_open (s : connection_base) : bool :=
  match m_conn s with
  | Some _ => m_completed s && ConnStatusType_is_ok (status s)
  | None => false
  end.

Definition err_msg (s : connection_base) : string :=
  match m_conn s with
  | Some c => PQerrorMessage c
  | None => "No connection to database"
  end.

Definition disconnect (s : connection_base) : connection_base :=
  emit [Disconnected] (set_m_conn (policy_do_disconnect W (m_conn s)) s).

Definition simulate_failure (s : connection_base) : connection_base :=
  match m_conn s with
  | Some _ => emit [Disconnected] (set_m_conn (policy_do_disconnect W (m_conn s)) s)
  | None => s
  end.

Definition protocol_version (s : connection_base) : Z :=
  match m_conn s with
  | Some c => pg_protocolVersion c
  | None => 0%Z
  end.

Definition clear_notice_processor (s : connection_base) : connection_base :=
  match m_conn s with
  | Some c => set_m_conn (Some (set_pg_noticeProcessor inert_notice_processor c)) s
  | None => s
  end.

Definition set_notice_processor (s : connection_base) : connection_base :=
  match m_conn s with
  | Some c => set_m_conn (Some (set_pg_noticeProcessor pqxx_notice_processor c)) s
  | None => s
  end.

Definition internal_set_trace (s : connection_base) : connection_base :=
  match m_conn s with
  | Some c => set_m_conn (Some (set_pg_trace (m_trace s) c)) s
  | None => s
  end.

(** *** Notices *)

(** The loop of [process_notice_raw] over the handlers [hs], newest first:
    the calls it makes. *)
Fixpoint call_errorhandlers (hs : list errorhandler) (msg : string)
  : list event :=
  match hs with
  | [] => []
  | h :: older =>
      HandlerCalled h msg ::
      (if errorhandler_call W h msg then call_errorhandlers older msg else [])
  end.

(** [msg] is a [const char[]]: [None] is the null pointer. *)
Definition process_notice_raw (msg : option string) (s : connection_base)
  : connection_base :=
  match msg with
  | None => s
  | Some EmptyString => s
  | Some m => emit (call_errorhandlers (rev (m_errorhandlers s)) m) s
  end.

(** [process_notice(const std::string &)].  On the empty string the source
    reads [msg[msg.size()-1]] out of bounds; the model takes that
    character not to be a newline. *)
Definition process_notice_string (msg : string) (s : connection_base)
  : connection_base :=
  if ends_in_newline msg then process_notice_raw (Some (c_str msg)) s
  else if string_alloc W (String.length msg + 1) then
    let nl := msg ++ newline in
    process_notice_raw (Some (c_str nl)) s
  else
    process_notice_raw (Some newline)
      (process_notice_raw (Some (c_str msg)) s).

Definition separator : string := "[...]" ++ newline.

(** [sizeof(buf)] and [sizeof(separator)] in [process_notice(const char[])]. *)
Definition sizeof_buf : nat := 1007.
Definition sizeof_separator : nat := String.length separator + 1.

(** The loop that writes all chunks but the last; returns [written]. *)
Fixpoint process_notice_chunks (fuel : nat) (msg : string) (len bytes written : nat)
  (s : connection_base) : nat * connection_base :=
  match fuel with
  | O => (written, s)
  | S fuel' =>
      if (written + bytes <? len)%nat then
        let buf := substring written bytes msg ++ separator in
        process_notice_chunks fuel' msg len bytes (written + bytes)
          (process_notice_raw (Some buf) s)
      else (written, s)
  end.

(** [process_notice(const char[])].  [msg] holds the characters up to the
    terminating NUL. *)
Definition process_notice (msg : option string) (s : connection_base)
  : connection_base :=
  match msg with
  | None => s
  | Some m =>
      let len := String.length m in
      if (len =? 0)%nat then s
      else if ends_in_newline m then process_notice_raw (Some m) s
      else if string_alloc W len then process_notice_string m s
      else
        let bytes := sizeof_buf - sizeof_separator - 1 in
        let (written, s1) := process_notice_chunks len m len bytes 0 s in
        let bytes := len - written in
        let buf := substring written bytes m in
        let buf := buf ++ (if ends_in_newline buf then "" else newline) in
        process_notice_raw (Some buf) s1
  end.

(** *** The handler chain *)

Definition register_errorhandler (handler : errorhandler)
  (s : connection_base) : connection_base :=
  let s1 := match m_errorhandlers s with
            | [] => set_notice_processor s
            | _ => s
            end in
  set_m_errorhandlers (m_errorhandlers s1 ++ [handler]) s1.

Definition unregister_errorhandler (handler : errorhandler)
  (s : connection_base) : connection_base :=
  let s1 := set_m_errorhandlers
              (filter (fun h => negb (Nat.eqb h handler)) (m_errorhandlers s)) s in
  match m_errorhandlers s1 with
  | [] => clear_notice_processor s1
  | _ => s1
  end.

(** *** Calls into libpq *)

(** Each wrapper applies the libpq function to [m_conn] and stores the
    handle it leaves; on a null handle libpq answers with its failure
    value. *)

Definition call_PQexec (query : string) : M (option PGresult) :=
  fun s => match m_conn s with
           | Some c => let (c', r) := PQexec c query in
                       (Returns r, emit [SentQuery query] (set_m_conn (Some c') s))
           | None => (Returns None, s)
           end.

Definition call_PQsendQuery (query : string) : M unit :=
  fun s => match m_conn s with
           | Some _ => (Returns tt, emit [SentQueryAsync query] s)
           | None => (Returns tt, s)
           end.

Definition call_PQgetResult : M (option PGresult) :=
  fun s => match m_conn s with
           | Some c => let (c', r) := PQgetResult c in
                       (Returns r, set_m_conn (Some c') s)
           | None => (Returns None, s)
           end.

Definition call_PQgetCopyData : M (Z * option string) :=
  fun s => match m_conn s with
           | Some c => let (c', d) := PQgetCopyData c in
                       (Returns d, set_m_conn (Some c') s)
           | None => (Returns ((-2)%Z, None), s)
           end.

Definition call_PQputCopyData (buffer : string) (nbytes : Z) : M Z :=
  fun s => match m_conn s with
           | Some c => (Returns (PQputCopyData c buffer nbytes),
                        emit [SentCopyData buffer nbytes] s)
           | None => (Returns (-1)%Z, s)
           end.

Definition call_PQendcopy : M unit :=
  fun s => match m_conn s with
           | Some _ => (Returns tt, emit [SentEndcopy] s)
           | None => (Returns tt, s)
           end.

(** Number of results, resp. notifications, the handle still holds: the
    bound of the loops that drain them. *)
Definition pending_results (s : connection_base) : nat :=
  match m_conn s with
  | Some c => List.length (pg_results c)
  | None => 0
  end.

Definition pending_notifies (s : connection_base) : nat :=
  match m_conn s with
  | Some c => List.length (pg_notifies c)
  | None => 0
  end.

(** *** Results *)

Definition encoding_id : M Z :=
  s <- get ;;
  let enc := match m_conn s with
             | Some c => PQclientEncoding c
             | None => (-1)%Z
             end in
  if (enc =? -1)%Z then
    if negb (is_open s) then
      throw broken_connection "Could not obtain client encoding: not connected."
    else throw failure "Could not obtain client encoding."
  else ret enc.

(** The encoding group is kept as the encoding id. *)
Definition make_result (rhs : option PGresult) (query : string) : M result :=
  enc <- encoding_id ;;
  ret (mkResult rhs query enc).

Definition check_result (R : result) : M unit :=
  s <- get ;;
  if negb (is_open s) then throw broken_connection (broken_connection_what W)
  else if negb (result_connection R) then throw failure (err_msg s)
  else check_status R.

Definition quote_name (identifier : string) : M string :=
  s <- get ;;
  match m_conn s with
  | None => throw broken_connection "Can't escape identifier: connection is not active."
  | Some c =>
      match PQescapeIdentifier c identifier with
      | None => throw failure (err_msg s)
      | Some buf => ret (c_str buf)
      end
  end.

(** *** Notifications *)

Definition consume_input (s : connection_base) : bool * connection_base :=
  match m_conn s with
  | Some c => let (c', r) := PQconsumeInput c in
              (negb (r =? 0)%Z, set_m_conn (Some c') s)
  | None => (false, s)
  end.

Definition get_notif (s : connection_base) : option PGnotify * connection_base :=
  match m_conn s with
  | Some c => let (c', n) := PQnotifies c in (n, set_m_conn (Some c') s)
  | None => (None, s)
  end.

(** The handler of [catch (const std::exception &e)] around a receiver:
    the diagnostic, or the shorter one when building it runs out of
    memory. *)
Definition receiver_threw (channel : string) (e : exception)
  (s : connection_base) : connection_base :=
  let msg := "Exception in notification receiver '" ++ channel ++ "': "
             ++ what e ++ newline in
  if string_alloc W (String.length msg) then process_notice_string msg s
  else process_notice
         (Some ("Exception in notification receiver, and also ran out of memory"
                ++ newline)) s.

(** The inner loop of [get_notifs]: every receiver of the range [Hit] is
    invoked with the payload and the sender's process id. *)
Fixpoint notify_receivers (Hit : receiver_list) (N : PGnotify)
  (s : connection_base) : connection_base :=
  match Hit with
  | [] => s
  | i :: rest =>
      let s1 := emit [ReceiverCalled (snd i) (extra N) (be_pid N)] s in
      let s2 := match receiver_call W (snd i) (extra N) (be_pid N) with
                | None => s1
                | Some e => receiver_threw (fst i) e s1
                end in
      notify_receivers rest N s2
  end.

(** The outer loop of [get_notifs]; returns [notifs]. *)
Fixpoint get_notifs_loop (fuel : nat) (notifs : Z) (s : connection_base)
  : Z * connection_base :=
  match fuel with
  | O => (notifs, s)
  | S fuel' =>
      match get_notif s with
      | (None, s1) => (notifs, s1)
      | (Some N, s1) =>
          let Hit := mm_equal_range (relname N) (m_receivers s1) in
          get_notifs_loop fuel' (notifs + 1) (notify_receivers Hit N s1)
      end
  end.

Definition get_notifs : M Z :=
  fun s =>
    if negb (is_open s) then (Returns 0%Z, s)
    else
      let (ok, s1) := consume_input s in
      if negb ok then (Throws (Exception broken_connection (broken_connection_what W)), s1)
      else
        match m_trans s1 with
        | Some _ => (Returns 0%Z, s1)
        | None =>
            let (notifs, s2) := get_notifs_loop (S (pending_notifies s1)) 0 s1 in
            (Returns notifs, s2)
        end.

(** *** Queries *)

Definition exec (Query : string) : M result :=
  s <- get ;;
  match m_conn s with
  | None => throw broken_connection "Could not execute query: connection is inactive."
  | Some _ =>
      r <- call_PQexec Query ;;
      R <- make_result r Query ;;
      check_result R ;;
      get_notifs ;;
      ret R
  end.

(** *** Receivers *)

(** [T] is a pointer: [None] is the null pointer. *)
Definition add_receiver (T : option notification_receiver) : M unit :=
  match T with
  | None => throw argument_error "Null receiver registered"
  | Some t =>
      s <- get ;;
      let NewVal := (receiver_channel W t, t) in
      if negb (mm_contains (receiver_channel W t) (m_receivers s)) then
        q <- quote_name (receiver_channel W t) ;;
        let LQ := "LISTEN " ++ q in
        s1 <- get ;;
        (if is_open s1 then
           try_catch
             (r <- call_PQexec (c_str LQ) ;;
              R <- make_result r LQ ;;
              check_result R)
             catch_broken_connection
             (fun _ => ret tt)
         else ret tt) ;;
        modify (fun s2 => set_m_receivers (mm_insert NewVal (m_receivers s2)) s2)
      else
        modify (fun s2 => set_m_receivers (mm_insert_hint NewVal (m_receivers s2)) s2)
  end.

Definition remove_receiver (T : option notification_receiver) : M unit :=
  match T with
  | None => ret tt
  | Some t =>
      try_catch
        (s <- get ;;
         let needle := (receiver_channel W t, t) in
         let R := mm_equal_range (fst needle) (m_receivers s) in
         if negb (existsb (fun e => entry_eqb e needle) R) then
           modify (process_notice_string
                     ("Attempt to remove unknown receiver '" ++ fst needle ++ "'"))
         else
           let gone := match m_conn s with
                       | Some _ => (List.length R =? 1)%nat
                       | None => false
                       end in
           modify (fun s1 => set_m_receivers (mm_erase needle (m_receivers s1)) s1) ;;
           if gone then
             q <- quote_name (fst needle) ;;
             exec (c_str ("UNLISTEN " ++ q)) ;;
             ret tt
           else ret tt)
        catch_std_exception
        (fun e => modify (process_notice (Some (what e))))
  end.

(** *** The transaction *)

(** Modelled from the spec: connection_base::m_trans is an
    internal::unique<transaction_base>, defined outside
    connection_base.cxx.  At most one transaction is registered at a
    time; registering a second one, or unregistering one that is not the
    registered one, is an error. *)
Definition register_guest (T : transaction_base) : M unit :=
  s <- get ;;
  match m_trans s with
  | Some _ => throw usage_error (usage_error_what W)
  | None => modify (set_m_trans (Some T))
  end.

Definition unregister_guest (T : transaction_base) : M unit :=
  s <- get ;;
  match m_trans s with
  | Some T' => if Nat.eqb T T' then modify (set_m_trans None)
               else throw usage_error (usage_error_what W)
  | None => throw usage_error (usage_error_what W)
  end.

Definition register_transaction (T : transaction_base) : M unit :=
  register_guest T.

Definition unregister_transaction (T : transaction_base) : M unit :=
  try_catch (unregister_guest T) catch_std_exception
    (fun e => modify (process_notice (Some (what e)))).

(** *** Activation *)

Definition read_capabilities : M unit :=
  s <- get ;;
  let v := match m_conn s with
           | Some c => pg_serverVersion c
           | None => 0%Z
           end in
  modify (set_m_serverversion v) ;;
  if (v <=? 90000)%Z then
    throw feature_not_supported "Unsupported server version; 9.0 is the minimum."
  else
    let proto_ver := protocol_version s in
    if (proto_ver =? 0)%Z then throw broken_connection "No connection."
    else if (proto_ver <? 3)%Z then
      throw feature_not_supported
        "Unsupported frontend/backend protocol version; 3.0 is the minimum."
    else ret tt.

(** The loop that writes one LISTEN per run of equal keys. *)
Fixpoint restore_listens (rs : receiver_list) (Last : string)
  (restore_query : string) : M string :=
  match rs with
  | [] => ret restore_query
  | i :: rest =>
      if negb (String.eqb (fst i) Last) then
        q <- quote_name (fst i) ;;
        restore_listens rest (fst i) (restore_query ++ "LISTEN " ++ q ++ "; ")
      else restore_listens rest Last restore_query
  end.

(** [do r = make_result(PQgetResult(m_conn), ...); while (r);] *)
Fixpoint drain_results (fuel : nat) : M unit :=
  match fuel with
  | O => ret tt
  | S fuel' =>
      r <- call_PQgetResult ;;
      R <- make_result r "[RECONNECT]" ;;
      if result_connection R then drain_results fuel' else ret tt
  end.

Definition set_up_state : M unit :=
  read_capabilities ;;
  modify clear_notice_processor ;;
  modify internal_set_trace ;;
  s <- get ;;
  (match m_receivers s with
   | [] => ret tt
   | _ :: _ =>
       restore_query <- restore_listens (m_receivers s) "" "" ;;
       call_PQsendQuery (c_str restore_query) ;;
       s1 <- get ;;
       drain_results (S (pending_results s1))
   end) ;;
  s2 <- get ;;
  if negb (is_open s2) then throw broken_connection "Could not connect."
  else ret tt.

Definition activate : M unit :=
  s <- get ;;
  if m_completed s then
    if is_open s then ret tt
    else throw broken_connection "Broken connection."
  else
    try_catch
      (modify (set_m_completed true) ;;
       s1 <- get ;;
       if negb (is_open s1) then throw broken_connection (err_msg s1)
       else set_up_state)
      catch_broken_connection
      (fun e => modify disconnect ;; throw broken_connection (what e)).

(** *** Teardown *)

(** The loop of [close] over the handlers taken out of the chain. *)
Fixpoint unregister_handlers (hs : list errorhandler) : M unit :=
  match hs with
  | [] => ret tt
  | h :: rest =>
      modify (emit [HandlerUnregistered h]) ;;
      match errorhandler_unregister W h with
      | Some e => rethrow e
      | None => unregister_handlers rest
      end
  end.

Definition close : M unit :=
  try_catch
    (s <- get ;;
     (match m_trans s with
      | Some t =>
          d <- (fun s0 => (transaction_description W t, s0)) ;;
          modify (process_notice_string
                    ("Closing connection while " ++ d ++ " is still open."))
      | None => ret tt
      end) ;;
     s1 <- get ;;
     (match m_receivers s1 with
      | [] => ret tt
      | _ :: _ =>
          modify (process_notice
                    (Some "Closing connection with outstanding receivers.")) ;;
          modify (set_m_receivers [])
      end) ;;
     s2 <- get ;;
     let old_handlers := m_errorhandlers s2 in
     modify (set_m_errorhandlers []) ;;
     unregister_handlers (rev old_handlers) ;;
     modify (fun s3 => emit [Disconnected]
                         (set_m_conn (policy_do_disconnect W (m_conn s3)) s3)))
    catch_std_exception
    (fun _ => ret tt).

(** *** COPY *)

(** [for (R = make_result(PQgetResult(m_conn), query); R; R = ...)
    check_result(R);] *)
Fixpoint end_copy_results (fuel : nat) (query : string) : M unit :=
  match fuel with
  | O => ret tt
  | S fuel' =>
      r <- call_PQgetResult ;;
      R <- make_result r query ;;
      if result_connection R then
        check_result R ;; end_copy_results fuel' query
      else ret tt
  end.

(** [std::string::assign(Buf, n)]: the first [n] bytes at [Buf].  The
    buffer libpq hands out holds the bytes of the row.  A count that goes
    beyond them makes the call read past the buffer; that is undefined
    behaviour, for which the model has no value. *)
Definition assign (Buf : string) (n : Z) : option string :=
  if (n <=? Z.of_nat (String.length Buf))%Z then
    Some (substring 0 (Z.to_nat n) Buf)
  else None.

(** [Line] is the reference parameter; the function returns [Result] and
    the content [Line] has on return, or [None] where the behaviour of
    the call is undefined. *)
Definition read_copy_line (Line : string) : M (option (bool * string)) :=
  s <- get ;;
  if negb (is_open s) then
    throw internal_error "read_copy_line() without connection"
  else
    let Line := "" in
    let query := "[END COPY]" in
    d <- call_PQgetCopyData ;;
    let (line_len, Buf) := d in
    match line_len with
    | (-2)%Z =>
        s1 <- get ;;
        throw failure ("Reading of table data failed: " ++ err_msg s1)
    | (-1)%Z =>
        s1 <- get ;;
        end_copy_results (S (pending_results s1)) query ;;
        ret (Some (false, Line))
    | 0%Z => throw internal_error "table read inexplicably went asynchronous"
    | _ =>
        match Buf with
        | Some b =>
            ret (option_map (pair true) (assign b (to_unsigned line_len)))
        | None => ret (Some (true, Line))
        end
    end.

Definition write_copy_line (Line : string) : M unit :=
  s <- get ;;
  if negb (is_open s) then
    throw internal_error "write_copy_line() without connection"
  else
    let L := Line ++ newline in
    let Len := String.length L in
    r <- call_PQputCopyData L (to_int (Z.of_nat Len)) ;;
    if (r <=? 0)%Z then
      s1 <- get ;;
      let msg := "Error writing to table: " ++ err_msg s1 in
      call_PQendcopy ;;
      throw failure msg
    else ret tt.

End Members.

(** ** Vocabulary of the properties *)

Local Open Scope list_scope.

(** The commands sent with PQexec, among the events [evs]. *)
Definition queries_sent (evs : list event) : list string :=
  flat_map (fun e => match e with SentQuery q => [q] | _ => [] end) evs.

(** The texts handed to error handlers, among the events [evs]. *)
Definition texts_delivered (evs : list event) : list string :=
  flat_map (fun e => match e with HandlerCalled _ t => [t] | _ => [] end) evs.

Definition is_receiver_call (e : event) : bool :=
  match e with ReceiverCalled _ _ _ => true | _ => false end.

Definition is_handler_call (e : event) : bool :=
  match e with HandlerCalled _ _ => true | _ => false end.

(** The events a call added to the wire: those of [s'] after those of [s]. *)
Definition since (s s' : connection_base) : list event :=
  skipn (List.length (wire s)) (wire s').

(** What [process_notice_raw] adds to the wire for the text [msg] when the
    handlers registered are [hs]. *)
Definition raw_events (W : collaborators) (hs : list errorhandler)
  (msg : string) : list event :=
  match msg with
  | EmptyString => []
  | _ => call_errorhandlers W (rev hs) msg
  end.

(** A state transformer that only calls handlers: it adds handler calls
    to the wire and leaves the rest of the connection alone. *)
Definition only_calls_handlers (f : connection_base -> connection_base) : Prop :=
  forall s, exists evs,
    f s = emit evs s /\ forallb is_handler_call evs = true.

(** *** Handlers *)

(** A handler signals that it consumed the message by returning false:
    the walk of [process_notice_raw] then stops. *)
Definition consumes (W : collaborators) (h : errorhandler) (msg : string) : bool :=
  negb (errorhandler_call W h msg).

(** Dispatch of [msg] in state [s], as the handler-chain rule words it:
    the handlers called are an initial part of the chain read from the
    newest to the oldest, the newest handler is among them, none but the
    last has consumed the message, and the walk stops before the end
    of the chain only at a handler that consumed it. *)
Definition dispatched_newest_first (W : collaborators) (s : connection_base)
  (msg : string) : Prop :=
  exists called later : list errorhandler,
    wire (process_notice_raw W (Some msg) s)
      = wire s ++ map (fun h => HandlerCalled h msg) called
    /\ rev (m_errorhandlers s) = called ++ later
    /\ called <> []
    /\ (forall h, In h (removelast called) -> consumes W h msg = false)
    /\ (later <> [] -> consumes W (last called O) msg = true).

(** *** Subscriptions *)

(** The quoted form of a channel name on the handle of [s]. *)
Definition quoted (s : connection_base) (channel : string) : option string :=
  match m_conn s with
  | Some c => option_map c_str (PQescapeIdentifier c channel)
  | None => None
  end.

Definition listen_command (q : string) : string := c_str ("LISTEN " ++ q)%string.
Definition unlisten_command (q : string) : string := c_str ("UNLISTEN " ++ q)%string.

(** Whether a subscription is active after the commands [queries], given
    that it was [active] before: a LISTEN switches it on, an UNLISTEN
    switches it off. *)
Fixpoint subscription (listen unlisten : string) (queries : list string)
  (active : bool) : bool :=
  match queries with
  | [] => active
  | q :: rest =>
      subscription listen unlisten rest
        (if String.eqb q listen then true
         else if String.eqb q unlisten then false
         else active)
  end.

(** The double quote that delimits a quoted identifier. *)
Definition DQUOTE : ascii := "034"%char.

Definition cons_char (c : ascii) (pieces : list string) : list string :=
  match pieces with
  | [] => [String c EmptyString]
  | piece :: rest => String c piece :: rest
  end.

(** The pieces of a batch of commands as the server reads it.  A piece
    ends at a ';' that is not inside a quoted identifier; [in_quotes]
    tells whether the text starts inside one. *)
Fixpoint batch_pieces (in_quotes : bool) (text : string) : list string :=
  match text with
  | EmptyString => [EmptyString]
  | String c rest =>
      if in_quotes then
        cons_char c (batch_pieces (negb (Ascii.eqb c DQUOTE)) rest)
      else if Ascii.eqb c ";" then EmptyString :: batch_pieces false rest
      else cons_char c (batch_pieces (Ascii.eqb c DQUOTE) rest)
  end.

Fixpoint skip_spaces (text : string) : string :=
  match text with
  | String " " rest => skip_spaces rest
  | _ => text
  end.

(** The commands of a batch: its pieces without the spaces before them,
    the empty ones left out. *)
Definition batch_commands (text : string) : list string :=
  filter (fun piece => negb (String.eqb piece ""))
    (map skip_spaces (batch_pieces false text)).

(** The commands issued to the server among the events [evs], in the
    order of issue: the one of each PQexec call and those of each batch
    sent with PQsendQuery. *)
Definition commands_issued (evs : list event) : list string :=
  flat_map (fun e => match e with
                     | SentQuery q => [q]
                     | SentQueryAsync batch => batch_commands batch
                     | _ => []
                     end) evs.

Definition is_batch (e : event) : bool :=
  match e with SentQueryAsync _ => true | _ => false end.

(** The wire of [s'] is the wire of [s] with further events, none of
    which is a batch. *)
Definition no_batch_since (s s' : connection_base) : Prop :=
  exists evs, wire s' = wire s ++ evs
              /\ forallb (fun e => negb (is_batch e)) evs = true.

(** A computation that only adds to the wire, and no batch. *)
Definition sends_no_batch {A} (m : M A) : Prop :=
  forall s, no_batch_since s (snd (m s)).

(** A subscribe command for [channel] was issued, with PQexec or in a
    batch, and no unsubscribe command after it. *)
Definition subscribed (s : connection_base) (channel : string) : bool :=
  match quoted s channel with
  | Some q => subscription (listen_command q) (unlisten_command q)
                (commands_issued (wire s)) false
  | None => false
  end.

(** The channels subscribed to are those with a registered receiver.
    Channels are the names receivers can have. *)
Definition subscriptions_match (W : collaborators) (s : connection_base) : Prop :=
  forall r : notification_receiver,
    subscribed s (receiver_channel W r)
    = mm_contains (receiver_channel W r) (m_receivers s).

Inductive receiver_op :=
| AddReceiver (T : option notification_receiver)
| RemoveReceiver (T : option notification_receiver).

Definition apply_op (W : collaborators) (op : receiver_op)
  (s : connection_base) : connection_base :=
  match op with
  | AddReceiver T => snd (add_receiver W T s)
  | RemoveReceiver T => snd (remove_receiver W T s)
  end.

Definition run_ops (W : collaborators) (ops : list receiver_op)
  (s : connection_base) : connection_base :=
  fold_left (fun st op => apply_op W op st) ops s.

(** The commands the registry rule asks of one call: a LISTEN when the
    first receiver of a channel is added, an UNLISTEN when the last one
    is removed, nothing otherwise. *)
Definition commands_due (W : collaborators) (op : receiver_op)
  (s : connection_base) : list string :=
  match op with
  | AddReceiver (Some t) =>
      if mm_contains (receiver_channel W t) (m_receivers s) then []
      else match quoted s (receiver_channel W t) with
           | Some q => [listen_command q]
           | None => []
           end
  | RemoveReceiver (Some t) =>
      match mm_equal_range (receiver_channel W t) (m_receivers s) with
      | [e] => if Nat.eqb (snd e) t then
                 match quoted s (receiver_channel W t) with
                 | Some q => [unlisten_command q]
                 | None => []
                 end
               else []
      | _ => []
      end
  | _ => []
  end.

Definition good_result (r : PGresult) : bool :=
  match PQresultStatus r with
  | PGRES_BAD_RESPONSE | PGRES_FATAL_ERROR => false
  | _ => true
  end.

(** The server accepts the command [q]: the connection stays up and the
    result object passes validation. *)
Definition accepts (c : PGconn) (q : string) : Prop :=
  reply_status (pg_reply c q) = CONNECTION_OK
  /\ exists r, reply_result (pg_reply c q) = Some r /\ good_result r = true.

(** A handle that is up, quotes the channel names of receivers, different
    names differently, and accepts the LISTEN and UNLISTEN commands for
    them. *)
Record cooperative (W : collaborators) (c : PGconn) : Prop := mkCooperative {
  coop_status : pg_status c = CONNECTION_OK;
  coop_encoding : pg_clientEncoding c <> (-1)%Z;
  coop_escape : forall r, pg_escapeIdentifier c (receiver_channel W r) <> None;
  coop_escape_inj : forall r1 r2,
    option_map c_str (pg_escapeIdentifier c (receiver_channel W r1))
    = option_map c_str (pg_escapeIdentifier c (receiver_channel W r2)) ->
    receiver_channel W r1 = receiver_channel W r2;
  coop_accepts : forall r q,
    option_map c_str (pg_escapeIdentifier c (receiver_channel W r)) = Some q ->
    accepts c (listen_command q) /\ accepts c (unlisten_command q)
}.

(** An open session on a cooperative handle. *)
Definition healthy (W : collaborators) (s : connection_base) : Prop :=
  m_completed s = true /\ exists c, m_conn s = Some c /\ cooperative W c.

(** Two handles that answer commands alike: they differ at most in what
    is queued. *)
Definition same_handle (c c' : PGconn) : Prop :=
  pg_status c' = pg_status c
  /\ pg_reply c' = pg_reply c
  /\ pg_escapeIdentifier c' = pg_escapeIdentifier c
  /\ pg_clientEncoding c' = pg_clientEncoding c.

(** [s'] is [s] up to what libpq queues and up to events that are not
    commands. *)
Definition same_session (s s' : connection_base) : Prop :=
  m_completed s' = m_completed s
  /\ m_trans s' = m_trans s
  /\ m_errorhandlers s' = m_errorhandlers s
  /\ m_receivers s' = m_receivers s
  /\ queries_sent (wire s') = queries_sent (wire s)
  /\ match m_conn s, m_conn s' with
     | Some c, Some c' => same_handle c c'
     | None, None => True
     | _, _ => False
     end.

(** A computation that sends no command and leaves the session as it is,
    up to [same_session]. *)
Definition framed {A} (m : M A) : Prop :=
  forall s, same_session s (snd (m s)).

(** The session [s] once the commands [cmds] are sent, the handle is
    [c'] and the registry is [rs']. *)
Definition after_commands (s : connection_base) (c' : PGconn)
  (rs' : receiver_list) (cmds : list string) : connection_base :=
  set_m_receivers rs' (emit (map SentQuery cmds) (set_m_conn (Some c') s)).

(** Number of receivers registered under the key [k]. *)
Definition mm_count (k : string) (l : receiver_list) : nat :=
  List.length (mm_equal_range k l).

(** *** Teardown *)

(** The unregistration of handler [h] returns normally. *)
Definition unregisters_quietly (W : collaborators) (h : errorhandler) : bool :=
  match errorhandler_unregister W h with
  | None => true
  | Some _ => false
  end.

(** The handlers [close] gets to when it walks [hs]: all of them up to
    and including the first whose unregistration throws. *)
Fixpoint handlers_reached (W : collaborators) (hs : list errorhandler)
  : list errorhandler :=
  match hs with
  | [] => []
  | h :: rest =>
      h :: (if unregisters_quietly W h then handlers_reached W rest else [])
  end.

(** *** COPY *)

(** First pending result that fails validation, if any. *)
Definition first_bad_result (rs : list PGresult) : option PGresult :=
  find (fun r => negb (good_result r)) rs.

(** ** A sample session *)

Module Sample.

Definition dquote : string := String "034"%char EmptyString.

Definition command_ok : PGresult := mkPGresult PGRES_COMMAND_OK "".

(** A live handle on a server that accepts every command.  PQconsumeInput
    returns [consume], the notifications [socket] wait on the socket and
    PQgetCopyData will return [rows]. *)
Definition handle (consume : Z) (socket : list PGnotify)
  (rows : list (Z * option string)) : PGconn :=
  mkPGconn CONNECTION_OK "server closed the connection unexpectedly" 6 110000 3
    inert_notice_processor None
    (fun _ => mkReply (Some command_ok) CONNECTION_OK)
    (fun id => Some (dquote ++ id ++ dquote)%string)
    consume socket [] [] rows 1.

Definition server : PGconn := handle 1 [] [].

(** A live handle on a server that refuses every command. *)
Definition refusing_server : PGconn :=
  mkPGconn CONNECTION_OK "permission denied" 6 110000 3
    inert_notice_processor None
    (fun _ => mkReply (Some (mkPGresult PGRES_FATAL_ERROR "permission denied"))
                CONNECTION_OK)
    (fun id => Some (dquote ++ id ++ dquote)%string)
    1 [] [] [] [] 1.

Definition alert (payload : string) : PGnotify := mkPGnotify "alerts" 4242 payload.

(** Handlers 1 and 2 consume what they see, handler 0 passes it on.
    Receivers below 10 listen on "alerts", the others on "jobs". *)
Definition objects : collaborators :=
  mkCollaborators
    (fun h _ => Nat.eqb h 0)
    (fun _ => None)
    (fun r => if Nat.ltb r 10 then "alerts" else "jobs")
    (fun _ _ _ => None)
    (fun _ => Returns "transaction 'T'")
    (fun _ => None)
    (fun _ => true)
    "Connection to database failed"
    "Transaction registered or unregistered out of turn".

(** The same objects when no string longer than three bytes can be
    allocated. *)
Definition objects_low_memory : collaborators :=
  mkCollaborators (errorhandler_call objects) (errorhandler_unregister objects)
    (receiver_channel objects) (receiver_call objects)
    (transaction_description objects) (policy_do_disconnect objects)
    (fun n => Nat.leb n 3) (broken_connection_what objects)
    (usage_error_what objects).

Definition session (c : option PGconn) (completed : bool) : connection_base :=
  mkConnection c completed None [] None 0 [] [].

(** An activated session, and one whose activation was not attempted. *)
Definition open_session : connection_base := session (Some server) true.
Definition unactivated_session : connection_base := session (Some server) false.

(** The open session after handler 1, then handler 2, registered. *)
Definition two_handlers : connection_base :=
  register_errorhandler 2 (register_errorhandler 1 open_session).

(** An open session where receiver 3 listens on "alerts" and a
    notification with payload "p1" waits on the socket; [T] is the
    transaction registered, if any. *)
Definition listening (consume : Z) (T : option transaction_base)
  : connection_base :=
  mkConnection (Some (handle consume [alert "p1"] [])) true T [] None 0
    [("alerts", 3)] [].

(** An open session with notifications waiting and nobody listening. *)
Definition nobody_listening : connection_base :=
  session (Some (handle 1 [alert "p1"; alert "p2"] [])) true.

(** An open session with a transaction, a receiver and two handlers. *)
Definition busy : connection_base :=
  mkConnection (Some server) true (Some 7) [1; 2] None 0 [("alerts", 3)] [].

(** An open session in the middle of a COPY that will yield [rows]. *)
Definition copying (rows : list (Z * option string)) : connection_base :=
  session (Some (handle 1 [] rows)) true.

(** A text of [n] letters. *)
Definition letters (n : nat) : string :=
  string_of_list_ascii (repeat "a"%char n).

End Sample.

(** ** Further member functions *)

From Stdlib Require Import DecimalString DecimalZ.
From Stdlib Require OrderedTypeEx.

Local Open Scope string_scope.

(** What the members below need from outside connection_base.cxx and the
    handle record does not script: further entry points of libpq, and
    functions of the library defined in other files. *)
Record environment := mkEnvironment {
  (* the value PQputCopyEnd(conn, nullptr) returns on a handle *)
  env_putCopyEnd : Z;
  (* whether PQgetCancel(conn) returns a cancel object for a handle *)
  env_getCancel : bool;
  (* PQcancel(cancel, errbuf, sizeof errbuf): the value and the text left
     in errbuf *)
  env_cancel : Z * string;
  (* PQsocket(conn) on a handle *)
  env_socket : Z;
  (* the handle as it is when poll() on its socket returns *)
  env_poll : PGconn -> PGconn;
  (* pqxx::to_string(int) *)
  to_string : Z -> string;
  (* transaction_base::set_variable(Var, Value), which works on the
     connection of the transaction *)
  transaction_set_variable : transaction_base -> string -> string -> M unit;
  (* internal::for_glyphs(enc_group(id), callback, buffer, size): the glyphs
     the callback is called with, in order, or the exception raised on a
     byte sequence the encoding does not have *)
  for_glyphs : Z -> string -> outcome (list string)
}.

Section MoreMembers.

Variable W : collaborators.
Variable E : environment.

(** *** Session variables and prepared statements *)

Definition raw_set_var (Var Value : string) : M unit :=
  exec W (c_str ("SET " ++ Var ++ "=" ++ Value)) ;;
  ret tt.

Definition set_variable (Var Value : string) : M unit :=
  s <- get ;;
  match m_trans s with
  | Some t => transaction_set_variable E t Var Value
  | None => if is_open s then raw_set_var Var Value else ret tt
  end.

Definition unprepare (name : string) : M unit :=
  q <- quote_name name ;;
  exec W (c_str ("DEALLOCATE " ++ q)) ;;
  ret tt.

(** *** Cancelling *)

(** The constructor of [cancel_wrapper] followed by its call operator.  On
    a null handle no cancel object is made and the call returns.  The
    text of std::bad_alloc is the one of the C++ runtime; no property
    below depends on it. *)
Definition cancel_query : M unit :=
  s <- get ;;
  match m_conn s with
  | None => ret tt
  | Some _ =>
      if negb (env_getCancel E) then throw bad_alloc "std::bad_alloc"
      else
        let (r, m_errbuf) := env_cancel E in
        if (r =? 0)%Z then throw sql_error (c_str m_errbuf)
        else ret tt
  end.

(** *** End of a COPY to the server *)

Definition call_PQputCopyEnd : M Z :=
  fun s => match m_conn s with
           | Some _ => (Returns (env_putCopyEnd E), s)
           | None => (Returns (-1)%Z, s)
           end.

Definition end_copy_write : M unit :=
  Res <- call_PQputCopyEnd ;;
  (match Res with
   | (-1)%Z =>
       s <- get ;;
       throw failure ("Write to table failed: " ++ err_msg s)
   | 0%Z => throw internal_error "table write is inexplicably asynchronous"
   | 1%Z => ret tt
   | _ =>
       throw internal_error
         ("unexpected result " ++ to_string E Res ++ " from PQputCopyEnd()")
   end) ;;
  r <- call_PQgetResult ;;
  R <- make_result r "[END COPY]" ;;
  check_result W R.

(** *** Waiting for notifications *)

Definition socket_of (c : option PGconn) : Z :=
  match c with
  | Some _ => env_socket E
  | None => (-1)%Z
  end.

(** [wait_fd(fd)]: once poll() returns, the handle is as the environment
    has it. *)
Definition wait_fd (fd : Z) : M unit :=
  if (fd <? 0)%Z then throw broken_connection (broken_connection_what W)
  else
    modify (fun s => match m_conn s with
                     | Some c => set_m_conn (Some (env_poll E c)) s
                     | None => s
                     end).

Definition wait_read : M unit :=
  s <- get ;;
  wait_fd (socket_of (m_conn s)).

Definition await_notification : M Z :=
  s <- get ;;
  match m_conn s with
  | None =>
      throw broken_connection
        "Can't wait for notifications: connection is not active."
  | Some _ =>
      notifs <- get_notifs W ;;
      if (notifs =? 0)%Z then
        wait_read ;;
        get_notifs W
      else ret notifs
  end.

(** *** Names and patterns *)

(** [adorn_name] works on the member [m_unique_id] alone: it takes the
    counter and returns the name with the counter as it leaves it.  The
    counter is an [int] (connection_base.hxx declares it so):
    [++m_unique_id] at INT_MAX wraps around to the smallest [int]. *)
Definition adorn_name (n : string) (m_unique_id : Z) : string * Z :=
  let m_unique_id := to_int (m_unique_id + 1) in
  let id := to_string E m_unique_id in
  (if String.eqb n "" then "x" ++ id else n ++ "_" ++ id, m_unique_id).

(** The callback of [esc_like], applied to one glyph: what it appends to
    [out]. *)
Definition esc_like_glyph (escape_char : ascii) (g : string) : string :=
  match g with
  | String c EmptyString =>
      if Ascii.eqb c "_"%char || Ascii.eqb c "%"%char then String escape_char g
      else g
  | _ => g
  end.

Definition esc_like (str : string) (escape_char : ascii) : M string :=
  enc <- encoding_id ;;
  match for_glyphs E enc str with
  | Throws e => rethrow e
  | Returns gs =>
      ret (fold_left (fun out g => out ++ esc_like_glyph escape_char g) gs "")
  end.

End MoreMembers.

(** ** Vocabulary of the further properties *)

(** *** The handler chain *)

Inductive handler_op :=
| Register (h : errorhandler)
| Unregister (h : errorhandler).

Definition apply_handler_op (op : handler_op) (s : connection_base)
  : connection_base :=
  match op with
  | Register h => register_errorhandler h s
  | Unregister h => unregister_errorhandler h s
  end.

Definition run_handler_ops (ops : list handler_op) (s : connection_base)
  : connection_base :=
  fold_left (fun st op => apply_handler_op op st) ops s.

(** The handle, if there is one, passes notices on to the connection
    exactly when a handler is registered. *)
Definition processor_follows_chain (s : connection_base) : Prop :=
  forall c, m_conn s = Some c ->
    pg_noticeProcessor c
    = match m_errorhandlers s with
      | nil => inert_notice_processor
      | _ => pqxx_notice_processor
      end.

(** *** Activation *)

(** The channels the loop of [set_up_state] writes a LISTEN for: the first
    entry of each run of equal keys, [Last] being the key before. *)
Fixpoint restored_channels (rs : receiver_list) (Last : string) : list string :=
  match rs with
  | nil => nil
  | i :: rest =>
      if String.eqb (fst i) Last then restored_channels rest Last
      else fst i :: restored_channels rest (fst i)
  end.

(** The text of the batch for the channels [ks], quoted by the handle. *)
Definition listen_batch (c : PGconn) (ks : list string) : string :=
  fold_left
    (fun text k =>
       text ++ "LISTEN "
       ++ match PQescapeIdentifier c k with
          | Some buf => c_str buf
          | None => ""
          end ++ "; ")
    ks "".

(** The entries are in the order of their keys, as a multimap keeps
    them. *)
Fixpoint key_ordered (l : receiver_list) : bool :=
  match l with
  | nil => true
  | e :: r =>
      match r with
      | nil => true
      | e' :: _ => String.leb (fst e) (fst e')
      end && key_ordered r
  end.

(** A handle that activation accepts: it is up, the server and the
    protocol are recent enough, and it knows its encoding. *)
Definition supported (c : PGconn) : Prop :=
  pg_status c = CONNECTION_OK
  /\ (90000 < pg_serverVersion c)%Z
  /\ (3 <= pg_protocolVersion c)%Z
  /\ pg_clientEncoding c <> (-1)%Z.

(** A word of a command: it holds no ';' outside quotes and every quote
    it opens is closed, so that the server reads on after it outside
    quotes.  [in_quotes] tells whether the word starts inside quotes. *)
Fixpoint closed_word (in_quotes : bool) (word : string) : bool :=
  match word with
  | EmptyString => negb in_quotes
  | String c rest =>
      if in_quotes then closed_word (negb (Ascii.eqb c DQUOTE)) rest
      else negb (Ascii.eqb c ";") && closed_word (Ascii.eqb c DQUOTE) rest
  end.

(** The handle quotes the channel names of receivers as words. *)
Definition quotes_words (W : collaborators) (c : PGconn) : Prop :=
  forall r buf,
    pg_escapeIdentifier c (receiver_channel W r) = Some buf ->
    closed_word false (c_str buf) = true.

(** Every entry of the registry is filed under the channel of its
    receiver, as [add_receiver] files it, and no channel has the empty
    name. *)
Definition registry_named (W : collaborators) (rs : receiver_list) : Prop :=
  forall e, In e rs ->
            fst e = receiver_channel W (snd e) /\ fst e <> EmptyString.

(** *** Names and patterns *)

Fixpoint no_underscore (s : string) : bool :=
  match s with
  | EmptyString => true
  | String c r => negb (Ascii.eqb c "_"%char) && no_underscore r
  end.

(** The names a run of [adorn_name] calls gives for the base names [ns],
    and the counter afterwards. *)
Fixpoint adorn_names (E : environment) (ns : list string) (m_unique_id : Z)
  : list string * Z :=
  match ns with
  | nil => (nil, m_unique_id)
  | n :: rest =>
      let (name, k) := adorn_name E n m_unique_id in
      let (names, k') := adorn_names E rest k in
      (name :: names, k')
  end.

Definition is_wildcard (g : string) : bool :=
  match g with
  | String c EmptyString => Ascii.eqb c "_"%char || Ascii.eqb c "%"%char
  | _ => false
  end.

(** The glyphs of a text in an encoding where every glyph is one byte. *)
Fixpoint single_bytes (s : string) : list string :=
  match s with
  | EmptyString => nil
  | String c r => String c EmptyString :: single_bytes r
  end.

Fixpoint occurs (c : ascii) (s : string) : bool :=
  match s with
  | EmptyString => false
  | String d r => Ascii.eqb d c || occurs c r
  end.

(** The text a LIKE pattern with escape character [escape_char] matches
    literally: an escaped character stands for itself; there is no such
    text when the pattern has a wildcard or ends in the escape
    character. *)
Fixpoint like_literal (escape_char : ascii) (pattern : string) : option string :=
  match pattern with
  | EmptyString => Some EmptyString
  | String c rest =>
      if Ascii.eqb c escape_char then
        match rest with
        | String d rest' => option_map (String d) (like_literal escape_char rest')
        | EmptyString => None
        end
      else if Ascii.eqb c "_"%char || Ascii.eqb c "%"%char then None
      else option_map (String c) (like_literal escape_char rest)
  end.

(** ** A sample environment *)

Module Scenario.

(** The backslash, the usual escape character of LIKE. *)
Definition backslash : ascii := "092"%char.

(** Decimal notation of an integer. *)
Definition decimal (z : Z) : string := NilEmpty.string_of_int (Z.to_int z).

(** libpq answers with success everywhere, the socket is descriptor 5 and
    nothing arrives while waiting; glyphs are single bytes. *)
Definition libpq : environment :=
  mkEnvironment
    1%Z
    true
    (1%Z, EmptyString)
    5%Z
    (fun c => c)
    decimal
    (fun _ _ _ => ret tt)
    (fun _ str => Returns (single_bytes str)).

(** A handle of the sample server on which the results [rs] are pending. *)
Definition with_results (rs : list PGresult) : PGconn :=
  set_pg_results rs Sample.server.

(** An old server: version 9.0.0. *)
Definition old_server : PGconn :=
  mkPGconn CONNECTION_OK "" 6 90000 3 inert_notice_processor None
    (fun _ => mkReply (Some Sample.command_ok) CONNECTION_OK)
    (fun id => Some (Sample.dquote ++ id ++ Sample.dquote))
    1 nil nil nil nil 1.

End Scenario.

Local Open Scope list_scope.

(** ** Properties *)

Unset Implicit Arguments.

(** *** The ghost wire *)

Lemma emit_nil (s : connection_base) : emit [] s = s.
Proof. destruct s; unfold emit; simpl; now rewrite app_nil_r. Qed.

Lemma wire_emit (evs : list event) (s : connection_base) :
  wire (emit evs s) = wire s ++ evs.
Proof. reflexivity. Qed.

Lemma emit_emit (a b : list event) (s : connection_base) :
  emit b (emit a s) = emit (a ++ b) s.
Proof. unfold emit; simpl; now rewrite app_assoc. Qed.

Lemma since_app (s s' : connection_base) (evs : list event) :
  wire s' = wire s ++ evs -> since s s' = evs.
Proof.
  intros H. unfold since. rewrite H, skipn_app, skipn_all, Nat.sub_diag. reflexivity.
Qed.

Lemma since_emit (s : connection_base) (evs : list event) :
  since s (emit evs s) = evs.
Proof. now apply since_app. Qed.

(** *** Dispatch through the handler chain *)

Section Dispatch.

Variable W : collaborators.

Lemma process_notice_raw_emit (t : string) (s : connection_base) :
  process_notice_raw W (Some t) s = emit (raw_events W (m_errorhandlers s) t) s.
Proof.
  destruct t; simpl; [now rewrite emit_nil | reflexivity].
Qed.

Lemma call_errorhandlers_walk (msg : string) (hs : list errorhandler) :
  hs <> [] ->
  exists called later,
    call_errorhandlers W hs msg = map (fun h => HandlerCalled h msg) called
    /\ hs = called ++ later
    /\ called <> []
    /\ (forall h, In h (removelast called) -> errorhandler_call W h msg = true)
    /\ (later <> [] -> errorhandler_call W (last called O) msg = false).
Proof.
  induction hs as [|h older IH]; [congruence|]. intros _.
  simpl. destruct (errorhandler_call W h msg) eqn:Hh.
  - destruct older as [|h' older'].
    + exists [h], []. simpl. repeat split; try congruence; contradiction.
    + destruct IH as (called & later & Hc & Hs & Hne & Hpass & Hstop); [congruence|].
      exists (h :: called), later. rewrite Hc, Hs.
      destruct called as [|c0 cs]; [congruence|].
      repeat split; try congruence.
      * intros x [Hx|Hx]; [now subst | now apply Hpass].
      * exact Hstop.
  - exists [h], older. simpl. repeat split; try congruence. contradiction.
Qed.

Lemma call_errorhandlers_all (msg : string) (hs : list errorhandler) :
  (forall h, In h hs -> errorhandler_call W h msg = true) ->
  call_errorhandlers W hs msg = map (fun h => HandlerCalled h msg) hs.
Proof.
  induction hs as [|h older IH]; intros Hall; [reflexivity|].
  simpl. rewrite (Hall h (or_introl eq_refl)). f_equal.
  apply IH. intros x Hx. apply Hall. now right.
Qed.

Lemma register_errorhandler_chain (h : errorhandler) (s : connection_base) :
  m_errorhandlers (register_errorhandler h s) = m_errorhandlers s ++ [h]
  /\ wire (register_errorhandler h s) = wire s.
Proof.
  unfold register_errorhandler, set_notice_processor.
  destruct (m_errorhandlers s) eqn:E; destruct (m_conn s); simpl; rewrite ?E; auto.
Qed.

(** C2, as amended.  A notice with a non-empty text goes through the
    handler chain from the handler registered last to the one registered
    first and stops at the first handler that signals it consumed the
    message (by returning false).  Whatever was registered before, once H1
    and then H2 are registered and H2 consumes the message, H2 alone is
    called.  When no handler consumes the message, every handler is called
    once, newest first, and nothing else happens: the message is dropped;
    with an empty chain nothing happens at all. *)
Theorem notice_dispatch_newest_first :
  forall (s : connection_base) (msg : string),
    msg <> EmptyString ->
    (m_errorhandlers s <> [] -> dispatched_newest_first W s msg)
    /\ (forall H1 H2 : errorhandler,
          consumes W H2 msg = true ->
          wire (process_notice_raw W (Some msg)
                  (register_errorhandler H2 (register_errorhandler H1 s)))
          = wire s ++ [HandlerCalled H2 msg])
    /\ ((forall h, In h (m_errorhandlers s) -> consumes W h msg = false) ->
        process_notice_raw W (Some msg) s
        = emit (map (fun h => HandlerCalled h msg) (rev (m_errorhandlers s))) s)
    /\ (m_errorhandlers s = [] -> process_notice_raw W (Some msg) s = s).
Proof.
  intros s msg Hmsg.
  assert (Hraw : forall st, raw_events W (m_errorhandlers st) msg
                            = call_errorhandlers W (rev (m_errorhandlers st)) msg).
  { intros st. destruct msg; [congruence | reflexivity]. }
  repeat split.
  - intros Hchain. unfold dispatched_newest_first.
    destruct (call_errorhandlers_walk msg (rev (m_errorhandlers s)))
      as (called & later & Hc & Hs & Hne & Hpass & Hstop).
    { intros E. apply Hchain. apply (f_equal (@rev _)) in E.
      now rewrite rev_involutive in E. }
    exists called, later. rewrite process_notice_raw_emit, Hraw, Hc.
    repeat split; auto.
    + intros h Hh. unfold consumes. now rewrite (Hpass h Hh).
    + intros Hl. unfold consumes. now rewrite (Hstop Hl).
  - intros H1 H2 Hc. rewrite process_notice_raw_emit, Hraw, wire_emit.
    destruct (register_errorhandler_chain H2 (register_errorhandler H1 s)) as [E2 W2].
    destruct (register_errorhandler_chain H1 s) as [E1 W1].
    rewrite E2, rev_app_distr, W2, W1.
    unfold consumes in Hc. apply negb_true_iff in Hc.
    cbn [rev app call_errorhandlers]. now rewrite Hc.
  - intros Hnone. rewrite process_notice_raw_emit, Hraw.
    rewrite call_errorhandlers_all; [reflexivity|].
    intros h Hh. apply in_rev in Hh. specialize (Hnone h Hh).
    unfold consumes in Hnone. now apply negb_false_iff in Hnone.
  - intros E. rewrite process_notice_raw_emit, Hraw, E. apply emit_nil.
Qed.

End Dispatch.

Lemma notice_dispatch_witness :
  dispatched_newest_first Sample.objects Sample.two_handlers "disk full".
Proof.
  apply (notice_dispatch_newest_first Sample.objects Sample.two_handlers
           "disk full"); discriminate.
Defined.

(** C2, as stated, fails on a notice whose text is empty: handlers 1 and 2
    are registered and both would consume it, yet [process_notice_raw]
    returns before the chain is walked and neither is called. *)
Lemma empty_notice_reaches_no_handler :
  m_errorhandlers Sample.two_handlers = [1; 2]
  /\ consumes Sample.objects 2 "" = true
  /\ process_notice_raw Sample.objects (Some "") Sample.two_handlers
     = Sample.two_handlers
  /\ ~ dispatched_newest_first Sample.objects Sample.two_handlers "".
Proof.
  repeat split.
  intros (called & later & Hw & _ & Hne & _).
  simpl in Hw. destruct called; [congruence | discriminate].
Qed.

(** *** Strings *)

Lemma back_app_char (a : string) (c : ascii) :
  back (a ++ String c EmptyString)%string = Some c.
Proof.
  induction a as [|x a IH]; [reflexivity|].
  simpl. destruct (a ++ String c EmptyString)%string eqn:E; [|exact IH].
  destruct a; discriminate.
Qed.

Lemma front_app_char (a : string) (c : ascii) :
  front (a ++ String c EmptyString)%string = a.
Proof.
  induction a as [|x a IH]; [reflexivity|].
  simpl. destruct (a ++ String c EmptyString)%string eqn:E.
  - destruct a; discriminate.
  - now rewrite IH.
Qed.

Lemma back_app (a b : string) :
  b <> EmptyString -> back (a ++ b)%string = back b.
Proof.
  intros Hb. induction a as [|x a IH]; [reflexivity|].
  simpl. destruct (a ++ b)%string eqn:E; [|exact IH].
  destruct a; simpl in E; [congruence | discriminate].
Qed.

Lemma ends_in_newline_app_newline (a : string) :
  ends_in_newline (a ++ newline)%string = true.
Proof. unfold ends_in_newline, newline. now rewrite back_app_char. Qed.

Lemma exactly_one_newline_appended (a : string) :
  ends_in_newline a = false ->
  ends_in_exactly_one_newline (a ++ newline)%string = true.
Proof.
  intros H. unfold ends_in_exactly_one_newline.
  rewrite ends_in_newline_app_newline. unfold newline.
  now rewrite front_app_char, H.
Qed.

Lemma string_length_app (a b : string) :
  String.length (a ++ b)%string = String.length a + String.length b.
Proof. induction a; simpl; auto. Qed.

Lemma c_str_app (a b : string) :
  c_str a = a -> c_str (a ++ b)%string = (a ++ c_str b)%string.
Proof.
  induction a as [|x a IH]; [reflexivity|].
  simpl. destruct (Ascii.eqb x NUL); [discriminate|].
  intros H. injection H as H. now rewrite IH.
Qed.

Lemma c_str_idem (a : string) : c_str (c_str a) = c_str a.
Proof.
  induction a as [|x a IH]; [reflexivity|].
  simpl. destruct (Ascii.eqb x NUL) eqn:E; [reflexivity|].
  simpl. now rewrite E, IH.
Qed.

Lemma to_int_small (z : Z) :
  (- 2 ^ 31 <= z <= INT_MAX)%Z -> to_int z = z.
Proof.
  unfold to_int, INT_MAX. intros H.
  rewrite Z.mod_small; lia.
Qed.

(** *** Notices only call handlers *)

Section Notices.

Variable W : collaborators.

Lemma call_errorhandlers_calls (hs : list errorhandler) (msg : string) :
  forallb is_handler_call (call_errorhandlers W hs msg) = true.
Proof.
  induction hs as [|h older IH]; [reflexivity|].
  simpl. destruct (errorhandler_call W h msg); [exact IH | reflexivity].
Qed.

Lemma raw_events_calls (hs : list errorhandler) (msg : string) :
  forallb is_handler_call (raw_events W hs msg) = true.
Proof. destruct msg; [reflexivity | apply call_errorhandlers_calls]. Qed.

Lemma only_calls_handlers_compose (f g : connection_base -> connection_base) :
  only_calls_handlers f -> only_calls_handlers g ->
  only_calls_handlers (fun s => g (f s)).
Proof.
  intros Hf Hg s. destruct (Hf s) as (a & Ea & Ha).
  destruct (Hg (f s)) as (b & Eb & Hb).
  exists (a ++ b). rewrite Eb, Ea, emit_emit. split; [reflexivity|].
  rewrite forallb_app, Ha, Hb. reflexivity.
Qed.

Lemma process_notice_raw_only_calls (t : option string) :
  only_calls_handlers (process_notice_raw W t).
Proof.
  intros s. destruct t as [t|].
  - exists (raw_events W (m_errorhandlers s) t).
    split; [apply process_notice_raw_emit | apply raw_events_calls].
  - exists []. split; [symmetry; apply emit_nil | reflexivity].
Qed.

Lemma process_notice_string_only_calls (msg : string) :
  only_calls_handlers (process_notice_string W msg).
Proof.
  unfold process_notice_string.
  destruct (ends_in_newline msg); [apply process_notice_raw_only_calls|].
  destruct (string_alloc W _); [apply process_notice_raw_only_calls|].
  apply (only_calls_handlers_compose _ _
           (process_notice_raw_only_calls (Some (c_str msg)))
           (process_notice_raw_only_calls (Some newline))).
Qed.

Lemma process_notice_chunks_only_calls (fuel : nat) (msg : string)
  (len bytes : nat) :
  forall written s, exists evs,
    snd (process_notice_chunks W fuel msg len bytes written s) = emit evs s
    /\ forallb is_handler_call evs = true.
Proof.
  induction fuel as [|fuel IH]; intros written s; cbn [process_notice_chunks].
  - exists []. split; [symmetry; apply emit_nil | reflexivity].
  - destruct (written + bytes <? len)%nat.
    + destruct (process_notice_raw_only_calls
                  (Some (substring written bytes msg ++ separator)%string) s)
        as (a & Ea & Ha).
      destruct (IH (written + bytes)
                  (process_notice_raw W
                     (Some (substring written bytes msg ++ separator)%string) s))
        as (b & Eb & Hb).
      exists (a ++ b). rewrite Eb, Ea, emit_emit. split; [reflexivity|].
      rewrite forallb_app, Ha, Hb. reflexivity.
    + exists []. split; [symmetry; apply emit_nil | reflexivity].
Qed.

Lemma process_notice_only_calls (msg : option string) :
  only_calls_handlers (process_notice W msg).
Proof.
  intros s. unfold process_notice. destruct msg as [m|].
  2:{ exists []. split; [symmetry; apply emit_nil | reflexivity]. }
  destruct (String.length m =? 0)%nat.
  { exists []. split; [symmetry; apply emit_nil | reflexivity]. }
  destruct (ends_in_newline m);
    [apply (process_notice_raw_only_calls (Some m) s)|].
  destruct (string_alloc W _);
    [apply (process_notice_string_only_calls m s)|].
  set (bytes := sizeof_buf - sizeof_separator - 1).
  destruct (process_notice_chunks_only_calls (String.length m) m
              (String.length m) bytes 0 s) as (a & Ea & Ha).
  destruct (process_notice_chunks W (String.length m) m (String.length m) bytes 0 s)
    as [written s1] eqn:E.
  cbn [snd] in Ea. subst s1.
  match goal with |- context [process_notice_raw W ?t _] =>
    destruct (process_notice_raw_only_calls t (emit a s)) as (b & Eb & Hb) end.
  exists (a ++ b). rewrite Eb, emit_emit. split; [reflexivity|].
  rewrite forallb_app, Ha, Hb. reflexivity.
Qed.

End Notices.

(** *** The monad *)

Lemma bind_returns {A B} (m : M A) (k : A -> M B) s b s' :
  bind m k s = (Returns b, s') ->
  exists a s1, m s = (Returns a, s1) /\ k a s1 = (Returns b, s').
Proof.
  unfold bind. destruct (m s) as [[a|e] s1]; intros H; [eauto | discriminate].
Qed.

Lemma bind_eq {A B} (m : M A) (k : A -> M B) s a s1 :
  m s = (Returns a, s1) -> bind m k s = k a s1.
Proof. unfold bind. now intros ->. Qed.

Lemma try_catch_returns {A} (m : M A) catches handler s b s' :
  try_catch m catches handler s = (Returns b, s') ->
  m s = (Returns b, s')
  \/ exists e s1, m s = (Throws e, s1) /\ handler e s1 = (Returns b, s').
Proof.
  unfold try_catch. destruct (m s) as [[a|e] s1]; intros H; [now left|].
  destruct (catches e); [right; eauto | discriminate].
Qed.

Lemma catch_all_returns (m : M unit) (s : connection_base) :
  fst (try_catch m catch_std_exception (fun _ => ret tt) s) = Returns tt.
Proof.
  unfold try_catch. destruct (m s) as [[[]|e] s1]; reflexivity.
Qed.

Lemma is_open_conn (s : connection_base) :
  is_open s = true ->
  exists c, m_conn s = Some c /\ m_completed s = true
            /\ pg_status c = CONNECTION_OK.
Proof.
  unfold is_open, status, PQstatus. destruct (m_conn s) as [c|]; [|discriminate].
  intros H. apply andb_true_iff in H. destruct H as [Hc Hs].
  exists c. repeat split; auto. now destruct (pg_status c).
Qed.

Lemma set_m_conn_same (s : connection_base) (c : PGconn) :
  m_conn s = Some c -> set_m_conn (Some c) s = s.
Proof. destruct s; unfold set_m_conn; simpl; now intros ->. Qed.

(** *** Results that pass *)

Lemma encoding_id_known (s : connection_base) (c : PGconn) :
  m_conn s = Some c -> pg_clientEncoding c <> (-1)%Z ->
  encoding_id s = (Returns (pg_clientEncoding c), s).
Proof.
  intros Hc Henc. unfold encoding_id, bind, get. rewrite Hc.
  unfold PQclientEncoding. apply Z.eqb_neq in Henc. now rewrite Henc.
Qed.

Lemma make_result_known (rhs : option PGresult) (query : string)
  (s : connection_base) (c : PGconn) :
  m_conn s = Some c -> pg_clientEncoding c <> (-1)%Z ->
  make_result rhs query s
  = (Returns (mkResult rhs query (pg_clientEncoding c)), s).
Proof.
  intros Hc Henc. unfold make_result.
  now rewrite (bind_eq _ _ _ _ _ (encoding_id_known s c Hc Henc)).
Qed.

Lemma check_result_good (W : collaborators) (R : result) (r : PGresult)
  (s : connection_base) :
  is_open s = true -> r_data R = Some r -> good_result r = true ->
  check_result W R s = (Returns tt, s).
Proof.
  intros Ho HR Hg. unfold check_result, bind, get. rewrite Ho. cbn [negb].
  unfold result_connection, check_status. rewrite HR. cbn [negb].
  unfold good_result in Hg. destruct (PQresultStatus r); try discriminate; reflexivity.
Qed.

Lemma check_result_bad (W : collaborators) (R : result) (r : PGresult)
  (s : connection_base) :
  is_open s = true -> r_data R = Some r -> good_result r = false ->
  check_result W R s
  = (Throws (Exception sql_error (PQresultErrorMessage r)), s).
Proof.
  intros Ho HR Hg. unfold check_result, bind, get. rewrite Ho. cbn [negb].
  unfold result_connection, check_status. rewrite HR. cbn [negb].
  unfold good_result in Hg. destruct (PQresultStatus r); try discriminate; reflexivity.
Qed.

(** *** Activation *)

Section Activation.

Variable W : collaborators.

Lemma set_up_state_leaves_open (s s' : connection_base) :
  set_up_state s = (Returns tt, s') -> is_open s' = true.
Proof.
  unfold set_up_state. intros H.
  apply bind_returns in H. destruct H as (? & s1 & _ & H).
  apply bind_returns in H. destruct H as (? & s2 & _ & H).
  apply bind_returns in H. destruct H as (? & s3 & _ & H).
  apply bind_returns in H. destruct H as (? & s4 & _ & H).
  apply bind_returns in H. destruct H as (? & s5 & _ & H).
  apply bind_returns in H. destruct H as (s6 & s7 & Hget & H).
  unfold get in Hget. injection Hget as <- <-.
  destruct (is_open s5) eqn:E; simpl in H; [|discriminate].
  unfold ret in H. now injection H as <-.
Qed.

(** C4.  Once activation has been attempted, [activate] on an open
    session returns with the connection untouched, and on a session that is
    not open it raises broken_connection, again with the connection
    untouched: no handle is requested, nothing is sent.  In particular
    this is what happens after [simulate_failure] when the policy drops
    the handle.  And whenever [activate] has returned, calling it again
    changes nothing. *)
Theorem activate_after_attempt :
  forall s : connection_base,
    m_completed s = true ->
    (is_open s = true -> activate W s = (Returns tt, s))
    /\ (is_open s = false ->
        activate W s
        = (Throws (Exception broken_connection "Broken connection."), s))
    /\ (policy_do_disconnect W (m_conn s) = None ->
        activate W (simulate_failure W s)
        = (Throws (Exception broken_connection "Broken connection."),
           simulate_failure W s))
    /\ (forall s0 s1, activate W s0 = (Returns tt, s1) ->
        activate W s1 = (Returns tt, s1)).
Proof.
  intros s Hc.
  assert (Hopen : forall st, is_open st = true -> activate W st = (Returns tt, st)).
  { intros st Ho. destruct (is_open_conn _ Ho) as (c & _ & Hm & _).
    unfold activate, bind, get. now rewrite Hm, Ho. }
  assert (Hshut : forall st, m_completed st = true -> is_open st = false ->
            activate W st
            = (Throws (Exception broken_connection "Broken connection."), st)).
  { intros st Hm Ho. unfold activate, bind, get. now rewrite Hm, Ho. }
  repeat split; auto.
  - intros Hp. apply Hshut.
    + unfold simulate_failure. now destruct (m_conn s).
    + unfold simulate_failure, is_open.
      destruct (m_conn s) eqn:E; [|now rewrite E].
      simpl. now rewrite Hp.
  - intros s0 s1 H. apply Hopen.
    unfold activate in H. apply bind_returns in H.
    destruct H as (s0' & s0'' & Hget & H). unfold get in Hget.
    injection Hget as <- <-.
    destruct (m_completed s0) eqn:E0.
    + destruct (is_open s0) eqn:O0; [|discriminate].
      unfold ret in H. now injection H as <-.
    + apply try_catch_returns in H. destruct H as [H | (e & s2 & _ & H)].
      * apply bind_returns in H. destruct H as (? & s2 & Hmod & H).
        apply bind_returns in H. destruct H as (s3 & s4 & Hget & H).
        unfold get in Hget. injection Hget as <- <-.
        destruct (is_open s2); simpl in H; [|discriminate].
        now apply set_up_state_leaves_open in H.
      * apply bind_returns in H. destruct H as (? & s3 & _ & H). discriminate.
Qed.

End Activation.

Lemma activate_after_attempt_witness :
  activate Sample.objects Sample.open_session
  = (Returns tt, Sample.open_session).
Proof.
  apply (activate_after_attempt Sample.objects Sample.open_session); reflexivity.
Defined.

(** *** Teardown *)

Section Teardown.

Variable W : collaborators.

Lemma unregister_handlers_all (hs : list errorhandler) :
  (forall h, In h hs -> errorhandler_unregister W h = None) ->
  forall s, unregister_handlers W hs s
            = (Returns tt, emit (map HandlerUnregistered hs) s).
Proof.
  induction hs as [|h rest IH]; intros Hall s.
  - simpl. unfold ret. now rewrite emit_nil.
  - cbn [unregister_handlers]. unfold bind, modify.
    rewrite (Hall h (or_introl eq_refl)).
    rewrite IH by (intros x Hx; apply Hall; now right).
    now rewrite emit_emit.
Qed.

Lemma unregister_handlers_reached (hs : list errorhandler) :
  forall s,
    snd (unregister_handlers W hs s)
    = emit (map HandlerUnregistered (handlers_reached W hs)) s
    /\ (if forallb (unregisters_quietly W) hs
        then fst (unregister_handlers W hs s) = Returns tt
        else exists e, fst (unregister_handlers W hs s) = Throws e).
Proof.
  induction hs as [|h rest IH]; intros s.
  - simpl. now rewrite emit_nil.
  - cbn [unregister_handlers handlers_reached forallb].
    unfold bind, modify, unregisters_quietly.
    destruct (errorhandler_unregister W h) as [e|].
    + cbn [andb map snd fst rethrow]. split; [reflexivity|]. now exists e.
    + destruct (IH (emit [HandlerUnregistered h] s)) as (Hsnd & Hfst).
      cbn [andb]. split; [|exact Hfst].
      rewrite Hsnd, emit_emit. reflexivity.
Qed.

(** C5.  [close] returns normally from every state, whatever the
    transaction, the handlers and the policy do when called, and so does a
    second [close] after it.  Its steps are these, in this order: the
    notice "Closing connection while ... is still open." when a
    transaction is registered; the notice "Closing connection with
    outstanding receivers." and an empty registry when receivers are
    registered; an empty chain, and the handlers unregistered one by one
    from the newest to the oldest; the handle given to the policy's
    disconnect.  A step that throws ends the sequence: when the
    transaction's description throws nothing is done at all, and when the
    unregistration of a handler throws, the older handlers are not
    reached and the handle is not released. *)
Theorem close_never_raises :
  forall s : connection_base,
    fst (close W s) = Returns tt
    /\ fst (close W (snd (close W s))) = Returns tt
    /\ (forall t e, m_trans s = Some t ->
                    transaction_description W t = Throws e ->
                    close W s = (Returns tt, s))
    /\ ((forall t, m_trans s = Some t ->
                   exists d, transaction_description W t = Returns d) ->
        let s1 :=
          match m_trans s with
          | Some t =>
              match transaction_description W t with
              | Returns d =>
                  process_notice_string W
                    ("Closing connection while " ++ d ++ " is still open.") s
              | Throws _ => s
              end
          | None => s
          end in
        let s2 :=
          match m_receivers s with
          | [] => s1
          | _ :: _ =>
              set_m_receivers []
                (process_notice W
                   (Some "Closing connection with outstanding receivers.") s1)
          end in
        let hs := rev (m_errorhandlers s) in
        let s3 := emit (map HandlerUnregistered (handlers_reached W hs))
                    (set_m_errorhandlers [] s2) in
        close W s
        = (Returns tt,
           if forallb (unregisters_quietly W) hs then
             emit [Disconnected]
               (set_m_conn (policy_do_disconnect W (m_conn s)) s3)
           else s3)
        /\ m_receivers (snd (close W s)) = []
        /\ m_errorhandlers (snd (close W s)) = []
        /\ ((forall h, In h (m_errorhandlers s) ->
                       errorhandler_unregister W h = None) ->
            m_conn (snd (close W s)) = policy_do_disconnect W (m_conn s)
            /\ wire (snd (close W s))
               = wire s2 ++ map HandlerUnregistered hs ++ [Disconnected])).
Proof.
  intros s. split; [apply catch_all_returns|].
  split; [apply catch_all_returns|].
  split.
  { intros t e Ht Hd. unfold close, try_catch, bind, get. now rewrite Ht, Hd. }
  intros Hdesc. cbv zeta.
  assert (Ha : exists a,
             match m_trans s with
             | Some t =>
                 match transaction_description W t with
                 | Returns d =>
                     process_notice_string W
                       ("Closing connection while " ++ d ++ " is still open.") s
                 | Throws _ => s
                 end
             | None => s
             end = emit a s
             /\ (match m_trans s with
                 | Some t =>
                     d <- (fun s0 => (transaction_description W t, s0)) ;;
                     modify (process_notice_string W
                               ("Closing connection while " ++ d ++ " is still open."))
                 | None => ret tt
                 end) s = (Returns tt, emit a s)).
  { destruct (m_trans s) as [t|] eqn:Et.
    - destruct (Hdesc t eq_refl) as (d & Hd). rewrite Hd.
      destruct (process_notice_string_only_calls W
                  ("Closing connection while " ++ d ++ " is still open.")%string s)
        as (a & Ea & _).
      exists a. split; [exact Ea|]. unfold bind, modify. now rewrite Ea.
    - exists []. rewrite emit_nil. split; reflexivity. }
  destruct Ha as (a & -> & Ea).
  assert (Hb : exists b,
             match m_receivers s with
             | [] => emit a s
             | _ :: _ =>
                 set_m_receivers []
                   (process_notice W
                      (Some "Closing connection with outstanding receivers.")
                      (emit a s))
             end = set_m_receivers [] (emit (a ++ b) s)
             /\ (match m_receivers (emit a s) with
                 | [] => ret tt
                 | _ :: _ =>
                     modify (process_notice W
                               (Some "Closing connection with outstanding receivers.")) ;;
                     modify (set_m_receivers [])
                 end) (emit a s)
                = (Returns tt, set_m_receivers [] (emit (a ++ b) s))).
  { cbn [m_receivers emit]. destruct (m_receivers s) eqn:Er.
    - exists []. rewrite app_nil_r.
      assert (E : set_m_receivers [] (emit a s) = emit a s)
        by (unfold set_m_receivers, emit; simpl; now rewrite Er).
      rewrite E. split; reflexivity.
    - destruct (process_notice_only_calls W
                  (Some "Closing connection with outstanding receivers.") (emit a s))
        as (b & Eb & _).
      exists b. rewrite Eb, emit_emit. split; [reflexivity|].
      unfold bind, modify. now rewrite Eb, emit_emit. }
  destruct Hb as (b & -> & Eb).
  set (hs := rev (m_errorhandlers s)).
  set (s2 := set_m_receivers [] (emit (a ++ b) s)).
  destruct (unregister_handlers_reached hs (set_m_errorhandlers [] s2))
    as (Hsnd & Hfst).
  assert (Hclose : close W s
            = (Returns tt,
               if forallb (unregisters_quietly W) hs then
                 emit [Disconnected]
                   (set_m_conn (policy_do_disconnect W (m_conn s))
                      (emit (map HandlerUnregistered (handlers_reached W hs))
                         (set_m_errorhandlers [] s2)))
               else emit (map HandlerUnregistered (handlers_reached W hs))
                      (set_m_errorhandlers [] s2))).
  { unfold close, try_catch.
    rewrite (bind_eq get _ s s s eq_refl).
    rewrite (bind_eq _ _ _ _ _ Ea).
    rewrite (bind_eq get _ (emit a s) _ _ eq_refl).
    rewrite (bind_eq _ _ _ _ _ Eb). fold s2.
    rewrite (bind_eq get _ s2 _ _ eq_refl).
    unfold bind at 1. unfold modify at 1.
    unfold bind at 1.
    change (rev (m_errorhandlers s2)) with hs.
    destruct (unregister_handlers W hs (set_m_errorhandlers [] s2))
      as [[[]|e] s3]; cbn [fst snd] in Hsnd, Hfst; subst s3.
    - destruct (forallb (unregisters_quietly W) hs);
        [reflexivity|destruct Hfst; discriminate].
    - destruct (forallb (unregisters_quietly W) hs); [discriminate|reflexivity]. }
  split; [exact Hclose|].
  rewrite Hclose. cbn [snd].
  split; [destruct (forallb (unregisters_quietly W) hs); reflexivity|].
  split; [destruct (forallb (unregisters_quietly W) hs); reflexivity|].
  intros Hall.
  assert (Hquiet : forallb (unregisters_quietly W) hs = true).
  { apply forallb_forall. intros h Hh. unfold unregisters_quietly.
    rewrite (Hall h); [reflexivity|]. unfold hs in Hh. now apply in_rev. }
  assert (Hreached : handlers_reached W hs = hs).
  { clear - Hquiet. induction hs as [|h rest IH]; [reflexivity|].
    cbn [forallb] in Hquiet. apply andb_true_iff in Hquiet.
    destruct Hquiet as (Hh & Hrest). cbn [handlers_reached].
    now rewrite Hh, (IH Hrest). }
  rewrite Hquiet, Hreached. split; [reflexivity|].
  cbn [wire emit set_m_conn set_m_errorhandlers]. now rewrite <- app_assoc.
Qed.

(** A call that throws on the way ends [close] there: when the
    description of the transaction cannot be had, nothing else is done,
    the handle is kept. *)
Lemma close_stops_at_first_failure (s : connection_base)
  (t : transaction_base) (e : exception) :
  m_trans s = Some t ->
  transaction_description W t = Throws e ->
  close W s = (Returns tt, s).
Proof.
  intros Ht Hd. unfold close, try_catch, bind, get. now rewrite Ht, Hd.
Qed.

End Teardown.

(** *** Writing a COPY line *)



(** *** Draining notifications *)

Section Notifications.

Variable W : collaborators.

Lemma handler_calls_are_not_receiver_calls (evs : list event) :
  forallb is_handler_call evs = true -> filter is_receiver_call evs = [].
Proof.
  induction evs as [|e evs IH]; [reflexivity|].
  simpl. intros H. apply andb_true_iff in H. destruct H as [He Hr].
  destruct e; try discriminate. simpl. now apply IH.
Qed.

Lemma mm_equal_range_nil (k : string) (l : receiver_list) :
  mm_contains k l = false -> mm_equal_range k l = [].
Proof.
  unfold mm_contains, mm_equal_range.
  induction l as [|e l IH]; [reflexivity|].
  simpl. destruct (has_key k e); [discriminate | exact IH].
Qed.

Lemma receiver_threw_only_calls (channel : string) (e : exception) :
  only_calls_handlers (receiver_threw W channel e).
Proof.
  intros s. unfold receiver_threw.
  destruct (string_alloc W _).
  - apply process_notice_string_only_calls.
  - apply process_notice_only_calls.
Qed.

(** What the inner loop puts on the wire: one call per receiver of the
    range, in the order of the range, with handler calls in between when
    a receiver throws; the connection is otherwise unchanged. *)
Lemma notify_receivers_emits (N : PGnotify) (Hit : receiver_list) :
  forall s, exists evs,
    notify_receivers W Hit N s = emit evs s
    /\ filter is_receiver_call evs
       = map (fun i => ReceiverCalled (snd i) (extra N) (be_pid N)) Hit
    /\ (Hit = [] -> evs = []).
Proof.
  induction Hit as [|i rest IH]; intros s.
  - exists []. simpl. rewrite emit_nil. auto.
  - cbn [notify_receivers].
    set (call := ReceiverCalled (snd i) (extra N) (be_pid N)).
    assert (Hs2 : exists a,
               (match receiver_call W (snd i) (extra N) (be_pid N) with
                | Some e => receiver_threw W (fst i) e (emit [call] s)
                | None => emit [call] s
                end) = emit (call :: a) s
               /\ forallb is_handler_call a = true).
    { destruct (receiver_call W (snd i) (extra N) (be_pid N)) as [e|].
      - destruct (receiver_threw_only_calls (fst i) e (emit [call] s))
          as (a & Ea & Ha).
        exists a. now rewrite Ea, emit_emit.
      - exists []. split; reflexivity. }
    destruct Hs2 as (a & Es2 & Ha). rewrite Es2.
    destruct (IH (emit (call :: a) s)) as (b & Eb & Hb & _).
    exists ((call :: a) ++ b). rewrite Eb, emit_emit.
    repeat split; [|discriminate].
    rewrite filter_app, Hb. cbn [filter app is_receiver_call call map].
    now rewrite (handler_calls_are_not_receiver_calls _ Ha).
Qed.

(** The outer loop, given more fuel than there are notifications in the
    queue: it takes them all, in arrival order, counts each, and calls
    for each the receivers of its channel with its payload and the
    sender's pid. *)
Lemma get_notifs_loop_drains (pending : list PGnotify) :
  forall (c : PGconn) (s : connection_base) (fuel : nat) (notifs : Z),
    m_conn s = Some c ->
    pg_notifies c = pending ->
    List.length pending < fuel ->
    exists evs,
      get_notifs_loop W fuel notifs s
      = ((notifs + Z.of_nat (List.length pending))%Z,
         emit evs (set_m_conn (Some (set_pg_queues (pg_socket c) [] c)) s))
      /\ filter is_receiver_call evs
         = flat_map (fun N =>
                       map (fun i => ReceiverCalled (snd i) (extra N) (be_pid N))
                         (mm_equal_range (relname N) (m_receivers s)))
             pending
      /\ ((forall N, In N pending -> mm_contains (relname N) (m_receivers s) = false)
          -> evs = []).
Proof.
  induction pending as [|N rest IH]; intros c s fuel notifs Hc Hq Hfuel.
  - destruct fuel as [|fuel]; [simpl in Hfuel; lia|].
    exists []. cbn [get_notifs_loop]. unfold get_notif, PQnotifies.
    rewrite Hc, Hq, emit_nil. simpl.
    rewrite Z.add_0_r. repeat split.
    destruct s as [mc ? ? ? ? ? ? ?], c; simpl in *.
    unfold set_m_conn, set_pg_queues; simpl. now subst.
  - destruct fuel as [|fuel]; [simpl in Hfuel; lia|].
    cbn [get_notifs_loop]. unfold get_notif, PQnotifies. rewrite Hc, Hq.
    set (c1 := set_pg_queues (pg_socket c) rest c).
    set (s1 := set_m_conn (Some c1) s).
    destruct (notify_receivers_emits N
                (mm_equal_range (relname N) (m_receivers s1)) s1)
      as (a & Ea & Hra & Hna).
    rewrite Ea.
    destruct (IH c1 (emit a s1) fuel (notifs + 1)%Z eq_refl eq_refl)
      as (b & Eb & Hrb & Hnb); [simpl in Hfuel; lia|].
    exists (a ++ b). rewrite Eb. repeat split.
    + f_equal; [simpl List.length; lia|].
      unfold emit, set_m_conn, s1, c1, set_pg_queues. simpl.
      now rewrite app_assoc.
    + rewrite filter_app, Hra, Hrb. reflexivity.
    + intros Hnone. rewrite Hna, Hnb; [reflexivity| |].
      * intros N' HN'. apply Hnone. now right.
      * apply mm_equal_range_nil. apply (Hnone N). now left.
Qed.

(** [get_notifs] with no transaction registered: everything pending is
    counted and handed to the receivers of its channel. *)
Lemma get_notifs_drains :
  forall (s : connection_base) (c : PGconn),
    is_open s = true ->
    m_trans s = None ->
    m_conn s = Some c ->
    pg_consumeInput c <> 0%Z ->
    let pending := pg_notifies c ++ pg_socket c in
    exists evs,
      get_notifs W s
      = (Returns (Z.of_nat (List.length pending)),
         emit evs (set_m_conn (Some (set_pg_queues [] [] c)) s))
      /\ filter is_receiver_call evs
         = flat_map (fun N =>
                       map (fun i => ReceiverCalled (snd i) (extra N) (be_pid N))
                         (mm_equal_range (relname N) (m_receivers s)))
             pending
      /\ ((forall N, In N pending -> mm_contains (relname N) (m_receivers s) = false)
          -> evs = []).
Proof.
  intros s c Ho Ht Hc Hin pending.
  unfold get_notifs. rewrite Ho. cbn [negb].
  unfold consume_input, PQconsumeInput. rewrite Hc.
  apply Z.eqb_neq in Hin. rewrite Hin. rewrite Hin. cbn [negb].
  set (c1 := set_pg_queues [] (pg_notifies c ++ pg_socket c) c).
  set (s1 := set_m_conn (Some c1) s).
  replace (m_trans s1) with (m_trans s) by reflexivity. rewrite Ht.
  destruct (get_notifs_loop_drains (pg_notifies c ++ pg_socket c) c1 s1
              (S (pending_notifies s1)) 0%Z eq_refl eq_refl)
    as (evs & E & Hr & Hn).
  { unfold pending_notifies. simpl. lia. }
  exists evs. rewrite E. repeat split; assumption.
Qed.

(** When PQconsumeInput fails, [get_notifs] raises broken_connection,
    transaction or not, and touches nothing. *)
Lemma get_notifs_input_lost (s : connection_base) (c : PGconn) :
  is_open s = true ->
  m_conn s = Some c ->
  pg_consumeInput c = 0%Z ->
  get_notifs W s
  = (Throws (Exception broken_connection (broken_connection_what W)), s).
Proof.
  intros Ho Hc Hfail. unfold get_notifs. rewrite Ho. cbn [negb].
  unfold consume_input, PQconsumeInput. rewrite Hc, Hfail. cbn.
  now rewrite (set_m_conn_same s c Hc).
Qed.

(** C9.  On an open session with no transaction registered, a call of
    [get_notifs] that cannot consume the input raises and returns no
    count.  Otherwise it returns the number of
    notifications that were pending (queued in libpq or still on the
    socket), whether or not anyone listens on their channels, and leaves
    none behind.  A notification whose channel has no receiver adds
    nothing to the wire; if none of the pending notifications has a
    receiver, the connection is as after reading the input, with both
    queues empty and no receiver or handler called, although every
    notification was counted. *)
Theorem get_notifs_counts_all :
  forall (s : connection_base) (c : PGconn),
    is_open s = true ->
    m_trans s = None ->
    m_conn s = Some c ->
    let pending := pg_notifies c ++ pg_socket c in
    (pg_consumeInput c = 0%Z ->
     get_notifs W s
     = (Throws (Exception broken_connection (broken_connection_what W)), s))
    /\ (pg_consumeInput c <> 0%Z ->
        fst (get_notifs W s) = Returns (Z.of_nat (List.length pending))
        /\ pending_notifies (snd (get_notifs W s)) = 0
        /\ (forall N st,
              mm_contains (relname N) (m_receivers st) = false ->
              notify_receivers W (mm_equal_range (relname N) (m_receivers st)) N st
              = st)
        /\ ((forall N, In N pending ->
                       mm_contains (relname N) (m_receivers s) = false) ->
            get_notifs W s
            = (Returns (Z.of_nat (List.length pending)),
               set_m_conn (Some (set_pg_queues [] [] c)) s))).
Proof.
  intros s c Ho Ht Hc pending. split.
  - intros Hfail. now apply (get_notifs_input_lost s c).
  - intros Hin.
    destruct (get_notifs_drains s c Ho Ht Hc Hin) as (evs & E & _ & Hnone).
    fold pending in E, Hnone. rewrite E. repeat split.
    + intros N st HN. now rewrite (mm_equal_range_nil _ _ HN).
    + intros Hall. now rewrite (Hnone Hall), emit_nil.
Qed.

(** C3, as amended.  On an open session with a transaction registered, a
    call of [get_notifs] that cannot consume the input raises
    broken_connection.  Otherwise it returns 0 and calls no receiver or
    handler; what was on the socket has been read into libpq's queue,
    from which nothing is taken.  Once the transaction is
    unregistered, [get_notifs] does exactly what it would have done in the
    first place had no transaction been registered: it returns the number
    of notifications that were pending and calls their receivers. *)
Theorem get_notifs_defers_during_transaction :
  forall (s : connection_base) (c : PGconn) (T : transaction_base),
    is_open s = true ->
    m_trans s = Some T ->
    m_conn s = Some c ->
    let pending := pg_notifies c ++ pg_socket c in
    let s1 := set_m_conn (Some (set_pg_queues [] pending c)) s in
    (pg_consumeInput c = 0%Z ->
     get_notifs W s
     = (Throws (Exception broken_connection (broken_connection_what W)), s))
    /\ (pg_consumeInput c <> 0%Z ->
        get_notifs W s = (Returns 0%Z, s1)
        /\ unregister_transaction W T s1 = (Returns tt, set_m_trans None s1)
        /\ get_notifs W (set_m_trans None s1) = get_notifs W (set_m_trans None s)
        /\ exists evs,
             get_notifs W (set_m_trans None s1)
             = (Returns (Z.of_nat (List.length pending)),
                emit evs (set_m_conn (Some (set_pg_queues [] [] c))
                            (set_m_trans None s)))
             /\ filter is_receiver_call evs
                = flat_map (fun N =>
                              map (fun i => ReceiverCalled (snd i) (extra N) (be_pid N))
                                (mm_equal_range (relname N) (m_receivers s)))
                    pending).
Proof.
  intros s c T Ho Ht Hc pending s1.
  split; [intros Hfail; now apply (get_notifs_input_lost s c)|]. intros Hin.
  assert (Hsame : get_notifs W (set_m_trans None s1)
                  = get_notifs W (set_m_trans None s)).
  { unfold get_notifs.
    replace (is_open (set_m_trans None s1)) with (is_open s)
      by (unfold is_open, status, s1; simpl; now rewrite Hc).
    replace (is_open (set_m_trans None s)) with (is_open s) by reflexivity.
    rewrite Ho. cbn [negb].
    unfold consume_input, PQconsumeInput, s1. cbn [m_conn set_m_trans set_m_conn].
    rewrite Hc. cbn [pg_consumeInput set_pg_queues pg_notifies pg_socket].
    apply Z.eqb_neq in Hin. rewrite Hin. cbn [negb].
    rewrite app_nil_r. reflexivity. }
  repeat split.
  - unfold get_notifs. rewrite Ho. cbn [negb].
    unfold consume_input, PQconsumeInput. rewrite Hc.
    apply Z.eqb_neq in Hin. rewrite Hin. rewrite Hin. cbn [negb].
    cbn [m_trans set_m_conn]. now rewrite Ht.
  - unfold unregister_transaction, try_catch, unregister_guest, bind, get.
    replace (m_trans s1) with (m_trans s) by reflexivity.
    rewrite Ht, Nat.eqb_refl. reflexivity.
  - exact Hsame.
  - rewrite Hsame.
    destruct (get_notifs_drains (set_m_trans None s) c Ho eq_refl Hc Hin)
      as (evs & E & Hr & _).
    exists evs. split; [exact E | exact Hr].
Qed.

End Notifications.

(** *** Reading a COPY line *)

Section CopyRead.

Variable W : collaborators.

Lemma substring_all (b : string) : substring 0 (String.length b) b = b.
Proof. induction b as [|x b IH]; simpl; [reflexivity | now rewrite IH]. Qed.

Lemma set_pg_results_same (c : PGconn) (rs : list PGresult) :
  pg_results c = rs -> set_pg_results rs c = c.
Proof. destruct c; unfold set_pg_results; simpl; now intros ->. Qed.

Lemma call_PQgetResult_next (s : connection_base) (c : PGconn) :
  m_conn s = Some c ->
  call_PQgetResult s
  = match pg_results c with
    | [] => (Returns None, s)
    | r :: rest => (Returns (Some r), set_m_conn (Some (set_pg_results rest c)) s)
    end.
Proof.
  intros Hc. unfold call_PQgetResult, PQgetResult. rewrite Hc.
  destruct (pg_results c); [now rewrite (set_m_conn_same s c Hc) | reflexivity].
Qed.

Lemma end_copy_results_step (fuel : nat) (query : string) :
  end_copy_results W (S fuel) query
  = (r <- call_PQgetResult ;;
     R <- make_result r query ;;
     if result_connection R then
       check_result W R ;; end_copy_results W fuel query
     else ret tt).
Proof. reflexivity. Qed.

(** The loop at the end of the stream: every pending result is fetched
    and validated; the first one that fails validation raises. *)
Lemma end_copy_results_validates (query : string) (rs : list PGresult) :
  forall (c : PGconn) (s : connection_base) (fuel : nat),
    m_conn s = Some c ->
    m_completed s = true ->
    pg_status c = CONNECTION_OK ->
    pg_clientEncoding c <> (-1)%Z ->
    pg_results c = rs ->
    List.length rs < fuel ->
    match first_bad_result rs with
    | None =>
        end_copy_results W fuel query s
        = (Returns tt, set_m_conn (Some (set_pg_results [] c)) s)
    | Some r =>
        fst (end_copy_results W fuel query s)
        = Throws (Exception sql_error (PQresultErrorMessage r))
    end.
Proof.
  induction rs as [|r rest IH]; intros c s fuel Hc Hm Hst Henc Hrs Hfuel;
    (destruct fuel as [|fuel]; [simpl in Hfuel; lia|]);
    rewrite end_copy_results_step;
    pose proof (call_PQgetResult_next s c Hc) as Hnext; rewrite Hrs in Hnext;
    rewrite (bind_eq _ _ _ _ _ Hnext).
  - rewrite (bind_eq _ _ _ _ _ (make_result_known None query s c Hc Henc)).
    cbn [result_connection r_data first_bad_result find]. unfold ret.
    now rewrite (set_pg_results_same c [] Hrs), (set_m_conn_same s c Hc).
  - set (c1 := set_pg_results rest c). set (s1 := set_m_conn (Some c1) s).
    rewrite (bind_eq _ _ _ _ _
               (make_result_known (Some r) query s1 c1 eq_refl Henc)).
    cbn [result_connection r_data].
    assert (Hopen : is_open s1 = true).
    { unfold is_open, status, PQstatus, s1, c1. simpl. now rewrite Hm, Hst. }
    assert (Hlt : List.length rest < fuel) by (simpl in Hfuel; lia).
    specialize (IH c1 s1 fuel eq_refl Hm Hst Henc eq_refl Hlt).
    unfold first_bad_result. cbn [find].
    destruct (good_result r) eqn:Hg; cbn [negb].
    + rewrite (bind_eq _ _ _ _ _
                 (check_result_good W (mkResult (Some r) query (pg_clientEncoding c1))
                    r s1 Hopen eq_refl Hg)).
      fold (first_bad_result rest).
      destruct (first_bad_result rest); exact IH.
    + unfold bind at 1.
      now rewrite (check_result_bad W (mkResult (Some r) query (pg_clientEncoding c1))
                     r s1 Hopen eq_refl Hg).
Qed.

(** C8, as amended.  On an open session the value PQgetCopyData returns
    decides what [read_copy_line] does.  -2: a failure is raised with
    the driver's error text.  0: an internal error is raised.  -1: the
    pending results are fetched and validated; when all pass, the
    function reports no line and an empty text, and the first one that
    does not pass raises.  A positive length with a buffer that holds at
    least that many bytes: the function reports a line, whose text is
    those bytes of the buffer, the whole buffer when the length is its
    size.  The text the string held on entry plays no part: the string is
    erased first, so the row replaces it and is not appended to it.  A
    count that goes past the buffer is a read out of bounds, for which
    the model has no result. *)
Theorem read_copy_line_by_return_value :
  forall (s : connection_base) (c : PGconn) (Line : string)
         (line_len : Z) (Buf : option string) (rest : list (Z * option string)),
    is_open s = true ->
    m_conn s = Some c ->
    pg_copyData c = (line_len, Buf) :: rest ->
    let c1 := set_pg_copyData rest c in
    let s1 := set_m_conn (Some c1) s in
    (line_len = (-2)%Z ->
     read_copy_line W Line s
     = (Throws (Exception failure
                  ("Reading of table data failed: " ++ PQerrorMessage c)%string),
        s1))
    /\ (line_len = 0%Z ->
        read_copy_line W Line s
        = (Throws (Exception internal_error
                     "table read inexplicably went asynchronous"), s1))
    /\ (line_len = (-1)%Z ->
        pg_clientEncoding c <> (-1)%Z ->
        match first_bad_result (pg_results c) with
        | None =>
            read_copy_line W Line s
            = (Returns (Some (false, EmptyString)),
               set_m_conn (Some (set_pg_results [] c1)) s)
        | Some r =>
            fst (read_copy_line W Line s)
            = Throws (Exception sql_error (PQresultErrorMessage r))
        end)
    /\ (forall b, (0 < line_len <= INT_MAX)%Z ->
                  Buf = Some b ->
                  (line_len <= Z.of_nat (String.length b))%Z ->
                  read_copy_line W Line s
                  = (Returns (Some (true, substring 0 (Z.to_nat line_len) b)), s1))
    /\ (forall b, (0 < line_len <= INT_MAX)%Z ->
                  Buf = Some b ->
                  Z.of_nat (String.length b) = line_len ->
                  read_copy_line W Line s = (Returns (Some (true, b)), s1))
    /\ (forall b, line_len <> (-2)%Z -> line_len <> (-1)%Z -> line_len <> 0%Z ->
                  Buf = Some b ->
                  (Z.of_nat (String.length b) < to_unsigned line_len)%Z ->
                  read_copy_line W Line s = (Returns None, s1))
    /\ (forall Line' : string,
          read_copy_line W Line' s = read_copy_line W Line s).
Proof.
  intros s c Line line_len Buf rest Ho Hc Hd c1 s1.
  destruct (is_open_conn s Ho) as (c0 & Hc0 & Hm & Hst).
  rewrite Hc in Hc0. injection Hc0 as <-.
  assert (Hrun : read_copy_line W Line s
            = (let Line := EmptyString in
               let query := "[END COPY]" in
               match line_len with
               | (-2)%Z =>
                   s2 <- get ;;
                   throw failure ("Reading of table data failed: " ++ err_msg s2)
               | (-1)%Z =>
                   s2 <- get ;;
                   end_copy_results W (S (pending_results s2)) query ;;
                   ret (Some (false, Line))
               | 0%Z => throw internal_error "table read inexplicably went asynchronous"
               | _ =>
                   match Buf with
                   | Some b =>
                       ret (option_map (pair true) (assign b (to_unsigned line_len)))
                   | None => ret (Some (true, Line))
                   end
               end) s1).
  { unfold read_copy_line. unfold bind at 1. unfold get at 1. rewrite Ho.
    cbn [negb]. unfold bind at 1. unfold call_PQgetCopyData, PQgetCopyData.
    rewrite Hc, Hd. reflexivity. }
  rewrite Hrun. cbv zeta.
  assert (Hdefault : forall b,
            line_len <> (-2)%Z -> line_len <> (-1)%Z -> line_len <> 0%Z ->
            Buf = Some b ->
            match line_len with
            | (-2)%Z =>
                s2 <- get ;;
                throw failure ("Reading of table data failed: " ++ err_msg s2)
            | (-1)%Z =>
                s2 <- get ;;
                end_copy_results W (S (pending_results s2)) "[END COPY]" ;;
                ret (Some (false, EmptyString))
            | 0%Z => throw internal_error "table read inexplicably went asynchronous"
            | _ =>
                match Buf with
                | Some b =>
                    ret (option_map (pair true) (assign b (to_unsigned line_len)))
                | None => ret (Some (true, EmptyString))
                end
            end s1
            = (Returns (option_map (pair true) (assign b (to_unsigned line_len))),
               s1)).
  { intros b H2 H1 H0 ->.
    destruct line_len as [|p|p]; [congruence| |];
      [|destruct p as [p|p|]; [| destruct p; [| |congruence] | congruence]];
      reflexivity. }
  assert (Hinside : forall b,
            (0 < line_len <= INT_MAX)%Z ->
            (line_len <= Z.of_nat (String.length b))%Z ->
            assign b (to_unsigned line_len)
            = Some (substring 0 (Z.to_nat line_len) b)).
  { intros b [Hpos Hmax] Hlen. unfold assign, to_unsigned.
    rewrite Z.mod_small by (unfold INT_MAX in Hmax; lia).
    destruct (Z.leb_spec line_len (Z.of_nat (String.length b))); [reflexivity|lia]. }
  split; [|split; [|split; [|split; [|split; [|split]]]]].
  - intros ->. unfold bind, get, throw, err_msg. cbn [m_conn s1 set_m_conn].
    reflexivity.
  - intros ->. reflexivity.
  - intros -> Henc.
    pose proof (end_copy_results_validates "[END COPY]" (pg_results c) c1 s1
                  (S (pending_results s1)) eq_refl Hm Hst Henc eq_refl
                  (Nat.lt_succ_diag_r _)) as Hloop.
    rewrite (bind_eq get _ s1 s1 s1 eq_refl).
    destruct (first_bad_result (pg_results c)) as [r|].
    + unfold bind.
      destruct (end_copy_results W (S (pending_results s1)) "[END COPY]" s1)
        as [[u|e] s2]; cbn [fst] in Hloop; [discriminate|].
      cbn [fst]. injection Hloop as ->. reflexivity.
    + rewrite (bind_eq _ _ _ _ _ Hloop). reflexivity.
  - intros b Hrange Hb Hlen.
    rewrite (Hdefault b) by (assumption || lia).
    now rewrite (Hinside b Hrange Hlen).
  - intros b Hrange Hb Hlen.
    rewrite (Hdefault b) by (assumption || lia).
    rewrite (Hinside b Hrange) by lia.
    rewrite <- Hlen, Nat2Z.id, substring_all. reflexivity.
  - intros b H2 H1 H0 Hb Hpast.
    rewrite (Hdefault b H2 H1 H0 Hb). unfold assign.
    destruct (Z.leb_spec (to_unsigned line_len) (Z.of_nat (String.length b)));
      [lia|reflexivity].
  - intros Line'. unfold read_copy_line. unfold bind at 1. unfold get at 1.
    rewrite Ho. cbn [negb]. unfold bind at 1.
    unfold call_PQgetCopyData, PQgetCopyData. rewrite Hc, Hd. reflexivity.
Qed.

End CopyRead.

(** *** Normalising the text of a notice *)

Lemma string_app_assoc (a b c : string) :
  ((a ++ b) ++ c)%string = (a ++ (b ++ c))%string.
Proof. induction a as [|x a IH]; simpl; [reflexivity | now rewrite IH]. Qed.

Lemma substring_length (m : string) :
  forall w n, w + n <= String.length m -> String.length (substring w n m) = n.
Proof.
  induction m as [|x m IH]; intros w n H; simpl in H.
  - assert (w = 0) by lia. assert (n = 0) by lia. now subst.
  - destruct w as [|w]; destruct n as [|n]; simpl; try reflexivity.
    + f_equal. apply IH. lia.
    + apply IH. lia.
    + apply IH. lia.
Qed.

Lemma substring_zero (m : string) (w : nat) : substring w 0 m = EmptyString.
Proof.
  revert w. induction m as [|x m IH]; intros [|w]; simpl; auto.
Qed.

Lemma substring_split (m : string) :
  forall w a b,
    substring w (a + b) m = (substring w a m ++ substring (w + a) b m)%string.
Proof.
  induction m as [|x m IH]; intros w a b.
  - destruct w, a, b; reflexivity.
  - destruct w as [|w].
    + destruct a as [|a]; [reflexivity|].
      simpl. f_equal. apply (IH 0 a b).
    + simpl. apply (IH w a b).
Qed.

Lemma substring_rest (m : string) (w : nat) :
  w <= String.length m ->
  (substring 0 w m ++ substring w (String.length m - w) m)%string = m.
Proof.
  intros H. pose proof (substring_split m 0 w (String.length m - w)) as Hs.
  change (0 + w) with w in Hs. rewrite <- Hs.
  replace (w + (String.length m - w)) with (String.length m) by lia.
  apply substring_all.
Qed.

Lemma length_zero_empty (m : string) : String.length m = 0 -> m = EmptyString.
Proof. destruct m; [reflexivity | discriminate]. Qed.

Lemma ends_in_newline_suffix (a b : string) :
  b <> EmptyString -> ends_in_newline (a ++ b)%string = ends_in_newline b.
Proof. intros H. unfold ends_in_newline. now rewrite back_app. Qed.

Lemma chunk_with_separator (ch : string) :
  ends_in_exactly_one_newline (ch ++ separator)%string = true.
Proof.
  unfold separator. rewrite <- string_app_assoc.
  apply exactly_one_newline_appended.
  rewrite ends_in_newline_suffix; [reflexivity | discriminate].
Qed.

Lemma exactly_one_ends (t : string) :
  ends_in_exactly_one_newline t = true -> ends_in_newline t = true.
Proof.
  unfold ends_in_exactly_one_newline. intros H.
  apply andb_true_iff in H. tauto.
Qed.

Lemma ends_in_newline_nonempty (t : string) :
  ends_in_newline t = true -> t <> EmptyString.
Proof. intros H E. subst. discriminate. Qed.

Section Normalising.

Variable W : collaborators.

(** Handing the texts [texts] to [process_notice_raw] one after the
    other. *)
Lemma deliveries_emit (texts : list string) :
  forall s,
    fold_left (fun st t => process_notice_raw W (Some t) st) texts s
    = emit (flat_map (raw_events W (m_errorhandlers s)) texts) s.
Proof.
  induction texts as [|t texts IH]; intros s.
  - simpl. now rewrite emit_nil.
  - cbn [fold_left flat_map]. rewrite IH, process_notice_raw_emit, emit_emit.
    reflexivity.
Qed.

Lemma call_errorhandlers_text (hs : list errorhandler) (m t : string)
  (h : errorhandler) :
  In (HandlerCalled h t) (call_errorhandlers W hs m) -> t = m.
Proof.
  induction hs as [|h0 older IH]; [contradiction|].
  simpl. intros [E|Hin]; [now injection E|].
  destruct (errorhandler_call W h0 m); [now apply IH | contradiction].
Qed.

Lemma raw_events_text (hs : list errorhandler) (m t : string)
  (h : errorhandler) :
  In (HandlerCalled h t) (raw_events W hs m) -> t = m.
Proof.
  destruct m; [contradiction | apply call_errorhandlers_text].
Qed.

Lemma raw_events_newest (older : list errorhandler) (h : errorhandler)
  (t : string) :
  t <> EmptyString -> In (HandlerCalled h t) (raw_events W (older ++ [h]) t).
Proof.
  intros Ht. destruct t; [congruence|].
  unfold raw_events. rewrite rev_app_distr. simpl. now left.
Qed.

(** The loop over the full chunks.  With enough fuel it stops on its own
    condition; what it delivered are consecutive pieces of [bytes]
    characters of the message, each followed by the separator. *)
Lemma process_notice_chunks_pieces (msg : string) (bytes : nat) :
  0 < bytes ->
  forall (fuel written : nat) (s : connection_base),
    String.length msg - written <= fuel * bytes ->
    written < String.length msg ->
    exists chunks,
      snd (process_notice_chunks W fuel msg (String.length msg) bytes written s)
      = fold_left (fun st t => process_notice_raw W (Some t) st)
          (map (fun ch => (ch ++ separator)%string) chunks) s
      /\ Forall (fun ch => String.length ch = bytes) chunks
      /\ let written' :=
           fst (process_notice_chunks W fuel msg (String.length msg) bytes written s) in
         written <= written' < String.length msg
         /\ String.length msg <= written' + bytes
         /\ substring written (written' - written) msg
            = fold_right String.append EmptyString chunks.
Proof.
  intros Hb. induction fuel as [|fuel IH]; intros written s Hfuel Hw.
  - simpl in Hfuel. lia.
  - cbn [process_notice_chunks].
    destruct (written + bytes <? String.length msg)%nat eqn:E.
    + apply Nat.ltb_lt in E.
      set (ch := substring written bytes msg).
      destruct (IH (written + bytes)
                  (process_notice_raw W (Some (ch ++ separator)%string) s))
        as (chunks & Hs & Hlen & Hw' & Hexit & Hsub); [simpl in Hfuel; lia | lia |].
      exists (ch :: chunks). cbn [map fold_left fold_right]. repeat split.
      * exact Hs.
      * constructor; [apply substring_length; lia | exact Hlen].
      * lia.
      * lia.
      * exact Hexit.
      * match goal with |- substring written ?n msg = _ =>
          replace n with (bytes + (n - bytes)) by lia end.
        rewrite substring_split. fold ch. f_equal.
        rewrite <- Hsub. f_equal. lia.
    + apply Nat.ltb_ge in E. exists []. cbn [fst snd map fold_left fold_right].
      repeat split; try lia; try constructor.
      rewrite Nat.sub_diag. apply substring_zero.
Qed.

(** C6, as amended.  [process_notice] hands a non-empty notice text to
    the handler chain as one or several texts.  A text that arrives ending
    in a newline is handed over unchanged.  A text that arrives without
    one gets exactly one newline appended; when the copy of the text
    cannot be allocated it is cut into pieces of 999 characters, each
    followed by the marker "[...]" and a newline, and a last piece with a
    newline appended, which put together give back the text.  In all
    these cases every text a handler is called with ends in a newline
    (exactly one when the text arrived without), the newest handler is
    called with each of them, and no exception is raised.  The
    std::string overload does the same with a text that holds no NUL
    character: unchanged, or with exactly one newline appended.  The
    last-resort path of that overload, taken when the text can be copied
    but not extended, is left out. *)
Theorem notice_text_ends_in_newline :
  forall (s : connection_base) (msg : string),
    msg <> EmptyString ->
    c_str msg = msg ->
    ((ends_in_newline msg = false ->
      string_alloc W (String.length msg) = true ->
      string_alloc W (String.length msg + 1) = true) ->
     exists texts : list string,
       process_notice W (Some msg) s
       = fold_left (fun st t => process_notice_raw W (Some t) st) texts s
       /\ (ends_in_newline msg = true -> texts = [msg])
       /\ (ends_in_newline msg = false ->
           string_alloc W (String.length msg) = true ->
           texts = [(msg ++ newline)%string])
       /\ (ends_in_newline msg = false ->
           string_alloc W (String.length msg) = false ->
           exists chunks last,
             texts = map (fun ch => (ch ++ separator)%string) chunks
                     ++ [(last ++ newline)%string]
             /\ (fold_right String.append EmptyString chunks ++ last)%string = msg
             /\ Forall (fun ch => String.length ch = 999) chunks
             /\ 1 <= String.length last <= 999)
       /\ (forall t, In t texts ->
             ends_in_newline t = true
             /\ (ends_in_newline msg = false ->
                 ends_in_exactly_one_newline t = true))
       /\ (forall h t,
             In (HandlerCalled h t) (since s (process_notice W (Some msg) s)) ->
             In t texts)
       /\ (forall older h t,
             m_errorhandlers s = older ++ [h] -> In t texts ->
             In (HandlerCalled h t) (since s (process_notice W (Some msg) s))))
    /\ ((ends_in_newline msg = false ->
         string_alloc W (String.length msg + 1) = true) ->
        let text := if ends_in_newline msg then msg else (msg ++ newline)%string in
        process_notice_string W msg s = process_notice_raw W (Some text) s
        /\ ends_in_newline text = true
        /\ (ends_in_newline msg = false -> ends_in_exactly_one_newline text = true)).
Proof.
  intros s msg Hne Hc. split.
  2:{ intros Halloc. cbv zeta. unfold process_notice_string.
      destruct (ends_in_newline msg) eqn:Enl.
      - rewrite Hc. repeat split; [assumption | discriminate].
      - rewrite (Halloc eq_refl), (c_str_app msg newline Hc).
        repeat split; [apply ends_in_newline_app_newline|].
        intros _. now apply exactly_one_newline_appended. }
  intros Halloc.
  assert (Hlen : (String.length msg =? 0)%nat = false).
  { apply Nat.eqb_neq. intros E. apply Hne. now apply length_zero_empty. }
  (* the texts handed over, case by case *)
  assert (Htexts : exists texts : list string,
    process_notice W (Some msg) s
    = fold_left (fun st t => process_notice_raw W (Some t) st) texts s
    /\ (ends_in_newline msg = true -> texts = [msg])
    /\ (ends_in_newline msg = false ->
        string_alloc W (String.length msg) = true ->
        texts = [(msg ++ newline)%string])
    /\ (ends_in_newline msg = false ->
        string_alloc W (String.length msg) = false ->
        exists chunks last,
          texts = map (fun ch => (ch ++ separator)%string) chunks
                  ++ [(last ++ newline)%string]
          /\ (fold_right String.append EmptyString chunks ++ last)%string = msg
          /\ Forall (fun ch => String.length ch = 999) chunks
          /\ 1 <= String.length last <= 999)).
  { unfold process_notice. rewrite Hlen.
    destruct (ends_in_newline msg) eqn:Enl.
    { exists [msg]. repeat split; intros; discriminate. }
    destruct (string_alloc W (String.length msg)) eqn:Ea.
    { exists [(msg ++ newline)%string]. unfold process_notice_string.
      rewrite Enl, (Halloc eq_refl eq_refl), (c_str_app msg newline Hc).
      repeat split; intros; discriminate. }
    change (sizeof_buf - sizeof_separator - 1) with 999.
    destruct (process_notice_chunks_pieces msg 999 ltac:(lia)
                (String.length msg) 0 s)
      as (chunks & Hs & Hall & Hw & Hexit & Hsub).
    { lia. }
    { destruct msg; [congruence | simpl; lia]. }
    destruct (process_notice_chunks W (String.length msg) msg
                (String.length msg) 999 0 s) as [written s1] eqn:Eloop.
    cbn [fst snd] in Hs, Hw, Hexit, Hsub. rewrite Nat.sub_0_r in Hsub.
    set (last := substring written (String.length msg - written) msg).
    assert (Hmsg : (fold_right String.append EmptyString chunks ++ last)%string = msg).
    { rewrite <- Hsub. apply substring_rest. lia. }
    assert (Hlast : String.length last = String.length msg - written).
    { apply substring_length. lia. }
    assert (Hlast_nl : ends_in_newline last = false).
    { rewrite <- Enl, <- Hmsg at 1. symmetry. apply ends_in_newline_suffix.
      intros E. rewrite E in Hlast. simpl in Hlast. lia. }
    rewrite Hlast_nl.
    exists (map (fun ch => (ch ++ separator)%string) chunks
            ++ [(last ++ newline)%string]).
    rewrite fold_left_app, <- Hs. cbn [fold_left].
    repeat split; try (intros; discriminate).
    intros _ _. exists chunks, last. repeat split; auto; lia. }
  destruct Htexts as (texts & Hrun & Hnl & Hcopy & Hcut).
  assert (Hends : forall t, In t texts ->
            ends_in_newline t = true
            /\ (ends_in_newline msg = false -> ends_in_exactly_one_newline t = true)).
  { intros t Ht. destruct (ends_in_newline msg) eqn:Enl.
    - rewrite (Hnl eq_refl) in Ht. destruct Ht as [<-|[]].
      split; [assumption | discriminate].
    - assert (ends_in_exactly_one_newline t = true) as Hone.
      { destruct (string_alloc W (String.length msg)) eqn:Ea.
        - rewrite (Hcopy eq_refl eq_refl) in Ht. destruct Ht as [<-|[]].
          now apply exactly_one_newline_appended.
        - destruct (Hcut eq_refl eq_refl) as (chunks & last & -> & Hmsg & _ & Hl).
          apply in_app_or in Ht. destruct Ht as [Ht|[<-|[]]].
          + apply in_map_iff in Ht. destruct Ht as (ch & <- & _).
            apply chunk_with_separator.
          + apply exactly_one_newline_appended.
            rewrite <- Enl, <- Hmsg at 1. symmetry. apply ends_in_newline_suffix.
            intros E. rewrite E in Hl. simpl in Hl. lia. }
      split; [now apply exactly_one_ends | now intros _]. }
  exists texts. repeat split; try assumption; try (apply Hends; assumption).
  - intros h t Hin. rewrite Hrun, deliveries_emit, since_emit in Hin.
    apply in_flat_map in Hin. destruct Hin as (t' & Ht' & Hin).
    now rewrite (raw_events_text _ _ _ _ Hin).
  - intros older h t Hchain Ht. rewrite Hrun, deliveries_emit, since_emit.
    apply in_flat_map. exists t. split; [assumption|]. rewrite Hchain.
    apply raw_events_newest. apply ends_in_newline_nonempty. now apply Hends.
Qed.

End Normalising.

(** *** Computations that send no command *)

Lemma same_handle_refl (c : PGconn) : same_handle c c.
Proof. repeat split. Qed.

Lemma same_session_refl (s : connection_base) : same_session s s.
Proof.
  unfold same_session. repeat split.
  destruct (m_conn s); [apply same_handle_refl | exact I].
Qed.

Lemma same_session_trans (s1 s2 s3 : connection_base) :
  same_session s1 s2 -> same_session s2 s3 -> same_session s1 s3.
Proof.
  intros (A1 & A2 & A3 & A4 & A5 & A6) (B1 & B2 & B3 & B4 & B5 & B6).
  unfold same_session. repeat split; try congruence.
  destruct (m_conn s1), (m_conn s2), (m_conn s3); try contradiction; auto.
  destruct A6 as (? & ? & ? & ?), B6 as (? & ? & ? & ?).
  repeat split; congruence.
Qed.

Lemma queries_sent_app (a b : list event) :
  queries_sent (a ++ b) = queries_sent a ++ queries_sent b.
Proof. unfold queries_sent. apply flat_map_app. Qed.

Lemma handler_calls_no_queries (evs : list event) :
  forallb is_handler_call evs = true -> queries_sent evs = [].
Proof.
  induction evs as [|e evs IH]; [reflexivity|].
  simpl. intros H. apply andb_true_iff in H. destruct H as [He Hr].
  destruct e; try discriminate. simpl. now apply IH.
Qed.

Lemma same_session_emit (evs : list event) (s : connection_base) :
  queries_sent evs = [] -> same_session s (emit evs s).
Proof.
  intros H. unfold same_session. cbn [emit m_completed m_trans m_errorhandlers
                                       m_receivers wire m_conn].
  rewrite queries_sent_app, H, app_nil_r. repeat split.
  destruct (m_conn s); [apply same_handle_refl | exact I].
Qed.

Lemma same_session_handlers (f : connection_base -> connection_base)
  (s : connection_base) :
  only_calls_handlers f -> same_session s (f s).
Proof.
  intros Hf. destruct (Hf s) as (evs & -> & Hcalls).
  apply same_session_emit. now apply handler_calls_no_queries.
Qed.

Lemma same_session_conn (s : connection_base) (c c' : PGconn) :
  m_conn s = Some c -> same_handle c c' ->
  same_session s (set_m_conn (Some c') s).
Proof.
  intros Hc Hh. unfold same_session. cbn. rewrite Hc. repeat split; apply Hh.
Qed.

Lemma framed_ret {A} (a : A) : framed (ret a).
Proof. intros s. apply same_session_refl. Qed.


Lemma framed_bind {A B} (m : M A) (k : A -> M B) :
  framed m -> (forall a, framed (k a)) -> framed (bind m k).
Proof.
  intros Hm Hk s. unfold bind. specialize (Hm s).
  destruct (m s) as [[a|e] s1]; cbn [snd] in *; [|exact Hm].
  eapply same_session_trans; [exact Hm | apply Hk].
Qed.

Lemma framed_get_bind {B} (k : connection_base -> M B) :
  (forall s, same_session s (snd (k s s))) -> framed (bind get k).
Proof. intros Hk s. unfold bind, get. apply Hk. Qed.

Lemma framed_try_catch {A} (m : M A) (catches : exception -> bool)
  (handler : exception -> M A) :
  framed m -> (forall e, framed (handler e)) ->
  framed (try_catch m catches handler).
Proof.
  intros Hm Hh s. unfold try_catch. specialize (Hm s).
  destruct (m s) as [[a|e] s1]; cbn [snd] in *; [exact Hm|].
  destruct (catches e); [|exact Hm].
  eapply same_session_trans; [exact Hm | apply Hh].
Qed.

Lemma framed_modify (f : connection_base -> connection_base) :
  only_calls_handlers f -> framed (modify f).
Proof. intros Hf s. unfold modify. cbn [snd]. now apply same_session_handlers. Qed.

Lemma framed_encoding_id : framed encoding_id.
Proof.
  unfold encoding_id. apply framed_get_bind. intros s. cbv beta.
  destruct (_ =? _)%Z; [destruct (negb _)|]; apply same_session_refl.
Qed.

Lemma framed_make_result (rhs : option PGresult) (query : string) :
  framed (make_result rhs query).
Proof.
  apply framed_bind; [apply framed_encoding_id | intros; apply framed_ret].
Qed.

Lemma framed_check_status (R : result) : framed (check_status R).
Proof.
  intros s. unfold check_status. destruct (r_data R) as [r|];
    [destruct (PQresultStatus r)|]; apply same_session_refl.
Qed.

Lemma framed_check_result (W : collaborators) (R : result) :
  framed (check_result W R).
Proof.
  unfold check_result. apply framed_get_bind. intros s. cbv beta.
  destruct (negb (is_open s)); [apply same_session_refl|].
  destruct (negb (result_connection R)); [apply same_session_refl|].
  apply framed_check_status.
Qed.

Lemma framed_quote_name (identifier : string) : framed (quote_name identifier).
Proof.
  unfold quote_name. apply framed_get_bind. intros s. cbv beta.
  destruct (m_conn s) as [c|]; [|apply same_session_refl].
  destruct (PQescapeIdentifier c identifier); apply same_session_refl.
Qed.

Section FramedNotifications.

Variable W : collaborators.

Lemma same_session_consume_input (s : connection_base) :
  same_session s (snd (consume_input s)).
Proof.
  unfold consume_input, PQconsumeInput.
  destruct (m_conn s) as [c|] eqn:Hc; [|apply same_session_refl].
  destruct (pg_consumeInput c =? 0)%Z; cbn [snd];
    apply (same_session_conn s c _ Hc); repeat split.
Qed.

Lemma same_session_get_notif (s : connection_base) :
  same_session s (snd (get_notif s)).
Proof.
  unfold get_notif, PQnotifies.
  destruct (m_conn s) as [c|] eqn:Hc; [|apply same_session_refl].
  destruct (pg_notifies c); cbn [snd];
    apply (same_session_conn s c _ Hc); repeat split.
Qed.

Lemma same_session_notify_receivers (N : PGnotify) (Hit : receiver_list) :
  forall s, same_session s (notify_receivers W Hit N s).
Proof.
  induction Hit as [|i rest IH]; intros s; [apply same_session_refl|].
  cbn [notify_receivers].
  eapply same_session_trans; [|apply IH].
  eapply same_session_trans;
    [apply (same_session_emit [ReceiverCalled (snd i) (extra N) (be_pid N)] s);
     reflexivity|].
  destruct (receiver_call W (snd i) (extra N) (be_pid N)) as [e|];
    [|apply same_session_refl].
  apply same_session_handlers. apply receiver_threw_only_calls.
Qed.

Lemma same_session_get_notifs_loop (fuel : nat) :
  forall notifs s, same_session s (snd (get_notifs_loop W fuel notifs s)).
Proof.
  induction fuel as [|fuel IH]; intros notifs s; [apply same_session_refl|].
  cbn [get_notifs_loop]. pose proof (same_session_get_notif s) as Hg.
  destruct (get_notif s) as [[N|] s1]; cbn [snd] in *; [|exact Hg].
  eapply same_session_trans; [exact Hg|].
  eapply same_session_trans; [|apply IH].
  apply same_session_notify_receivers.
Qed.

Lemma framed_get_notifs : framed (get_notifs W).
Proof.
  intros s. unfold get_notifs.
  destruct (negb (is_open s)); [apply same_session_refl|].
  pose proof (same_session_consume_input s) as Hc.
  destruct (consume_input s) as [ok s1]. cbn [snd] in Hc.
  destruct (negb ok); [exact Hc|].
  destruct (m_trans s1); [exact Hc|].
  pose proof (same_session_get_notifs_loop (S (pending_notifies s1)) 0%Z s1) as Hl.
  destruct (get_notifs_loop W (S (pending_notifies s1)) 0 s1) as [n s2].
  cbn [snd] in *. eapply same_session_trans; eassumption.
Qed.

End FramedNotifications.

(** *** The registry as a multimap *)

Lemma entry_eqb_eq (e needle : string * notification_receiver) :
  entry_eqb e needle = true <-> e = needle.
Proof.
  unfold entry_eqb. destruct e as [k v], needle as [k' v']. simpl.
  rewrite andb_true_iff, String.eqb_eq, Nat.eqb_eq.
  split; [intros [-> ->]; reflexivity | intros E; injection E; auto].
Qed.

Lemma mm_contains_count (k : string) (l : receiver_list) :
  mm_contains k l = negb (mm_count k l =? 0)%nat.
Proof.
  unfold mm_contains, mm_count, mm_equal_range.
  induction l as [|e l IH]; [reflexivity|].
  simpl. destruct (has_key k e); [reflexivity | exact IH].
Qed.

Lemma mm_count_insert (v : string * notification_receiver) (k : string)
  (l : receiver_list) :
  mm_count k (mm_insert v l) = (if has_key k v then 1 else 0) + mm_count k l.
Proof.
  unfold mm_count, mm_equal_range.
  induction l as [|e l IH]; simpl.
  - destruct (has_key k v); reflexivity.
  - destruct (String.leb (fst e) (fst v)); simpl.
    + destruct (has_key k e); simpl; rewrite IH; lia.
    + destruct (has_key k v); reflexivity.
Qed.

Lemma mm_count_insert_hint (v : string * notification_receiver) (k : string)
  (l : receiver_list) :
  mm_count k (mm_insert_hint v l) = (if has_key k v then 1 else 0) + mm_count k l.
Proof.
  unfold mm_count, mm_equal_range.
  induction l as [|e l IH]; simpl.
  - destruct (has_key k v); reflexivity.
  - destruct (has_key (fst v) e); simpl.
    + destruct (has_key k v); reflexivity.
    + destruct (has_key k e); simpl; rewrite IH; lia.
Qed.

Lemma mm_count_erase_other (needle : string * notification_receiver)
  (k : string) (l : receiver_list) :
  has_key k needle = false ->
  mm_count k (mm_erase needle l) = mm_count k l.
Proof.
  intros Hk. unfold mm_count, mm_equal_range.
  induction l as [|e l IH]; [reflexivity|].
  simpl. destruct (entry_eqb e needle) eqn:E.
  - apply entry_eqb_eq in E. subst e. now rewrite Hk.
  - simpl. destruct (has_key k e); simpl; now rewrite IH.
Qed.

Lemma mm_count_found (needle : string * notification_receiver)
  (l : receiver_list) :
  existsb (fun e => entry_eqb e needle) l = true ->
  0 < mm_count (fst needle) l.
Proof.
  unfold mm_count, mm_equal_range.
  induction l as [|e l IH]; [discriminate|].
  simpl. destruct (entry_eqb e needle) eqn:E.
  - intros _. apply entry_eqb_eq in E. subst e.
    unfold has_key. rewrite String.eqb_refl. simpl. lia.
  - simpl. intros H. destruct (has_key (fst needle) e); simpl; [lia | now apply IH].
Qed.

Lemma mm_count_erase_found (needle : string * notification_receiver)
  (l : receiver_list) :
  existsb (fun e => entry_eqb e needle) l = true ->
  mm_count (fst needle) (mm_erase needle l) = pred (mm_count (fst needle) l).
Proof.
  induction l as [|e l IH]; [discriminate|].
  intros Hfound. simpl in Hfound. cbn [mm_erase].
  destruct (entry_eqb e needle) eqn:E.
  - apply entry_eqb_eq in E. subst e.
    unfold mm_count, mm_equal_range. cbn [filter].
    unfold has_key at 2. now rewrite String.eqb_refl.
  - simpl in Hfound. pose proof (mm_count_found needle l Hfound) as Hpos.
    specialize (IH Hfound). unfold mm_count, mm_equal_range in *. cbn [filter].
    destruct (has_key (fst needle) e); cbn [List.length]; lia.
Qed.

Lemma found_in_equal_range (needle : string * notification_receiver)
  (l : receiver_list) :
  existsb (fun e => entry_eqb e needle) (mm_equal_range (fst needle) l)
  = existsb (fun e => entry_eqb e needle) l.
Proof.
  unfold mm_equal_range. induction l as [|e l IH]; [reflexivity|].
  simpl. destruct (has_key (fst needle) e) eqn:Hk; simpl; rewrite IH.
  - reflexivity.
  - destruct (entry_eqb e needle) eqn:E; [|reflexivity].
    apply entry_eqb_eq in E. subst e. unfold has_key in Hk.
    now rewrite String.eqb_refl in Hk.
Qed.

Lemma single_found (needle e : string * notification_receiver)
  (l : receiver_list) :
  mm_equal_range (fst needle) l = [e] ->
  existsb (fun e' => entry_eqb e' needle) l = Nat.eqb (snd e) (snd needle).
Proof.
  intros Hr. rewrite <- found_in_equal_range, Hr. simpl. rewrite orb_false_r.
  assert (Hk : has_key (fst needle) e = true).
  { assert (In e (mm_equal_range (fst needle) l)) as Hin by (rewrite Hr; now left).
    unfold mm_equal_range in Hin. apply filter_In in Hin. tauto. }
  unfold entry_eqb. unfold has_key in Hk. now rewrite Hk.
Qed.

(** *** Removing a null receiver *)

(** C10.  In every state, [remove_receiver] called with a null pointer
    returns at once: it raises nothing, no handler is called and the
    connection, its registry included, is what it was.  Called with a
    receiver that is not registered it returns normally too, but only
    after the notice "Attempt to remove unknown receiver" went through
    [process_notice]. *)
Theorem remove_null_receiver_is_noop :
  forall (W : collaborators) (s : connection_base),
    remove_receiver W None s = (Returns tt, s)
    /\ forall t : notification_receiver,
         existsb (fun e => entry_eqb e (receiver_channel W t, t)) (m_receivers s)
         = false ->
         remove_receiver W (Some t) s
         = (Returns tt,
            process_notice_string W
              ("Attempt to remove unknown receiver '" ++ receiver_channel W t ++ "'")
              s).
Proof.
  intros W s. split; [reflexivity|].
  intros t Hunknown.
  unfold remove_receiver, try_catch. unfold bind at 1. unfold get at 1.
  cbv beta zeta. cbn [fst].
  pose proof (found_in_equal_range (receiver_channel W t, t) (m_receivers s))
    as Hrange.
  cbn [fst] in Hrange. rewrite Hrange, Hunknown. reflexivity.
Qed.

(** *** Commands and subscriptions *)

Lemma subscription_app (l u : string) (a b : list string) (active : bool) :
  subscription l u (a ++ b) active
  = subscription l u b (subscription l u a active).
Proof.
  revert active. induction a as [|q a IH]; intros active; [reflexivity|].
  simpl. apply IH.
Qed.

Lemma listen_command_text (q : string) :
  c_str q = q -> listen_command q = ("LISTEN " ++ q)%string.
Proof.
  intros H. unfold listen_command.
  now rewrite (c_str_app "LISTEN " q eq_refl), H.
Qed.

Lemma unlisten_command_text (q : string) :
  c_str q = q -> unlisten_command q = ("UNLISTEN " ++ q)%string.
Proof.
  intros H. unfold unlisten_command.
  now rewrite (c_str_app "UNLISTEN " q eq_refl), H.
Qed.

Lemma listen_eqb_listen (q q' : string) :
  c_str q = q -> c_str q' = q' ->
  String.eqb (listen_command q) (listen_command q') = String.eqb q q'.
Proof.
  intros H H'. rewrite !listen_command_text by assumption. reflexivity.
Qed.

Lemma unlisten_eqb_unlisten (q q' : string) :
  c_str q = q -> c_str q' = q' ->
  String.eqb (unlisten_command q) (unlisten_command q') = String.eqb q q'.
Proof.
  intros H H'. rewrite !unlisten_command_text by assumption. reflexivity.
Qed.

Lemma listen_eqb_unlisten (q q' : string) :
  c_str q = q -> c_str q' = q' ->
  String.eqb (listen_command q) (unlisten_command q') = false.
Proof.
  intros H H'. rewrite listen_command_text, unlisten_command_text by assumption.
  reflexivity.
Qed.

Lemma unlisten_eqb_listen (q q' : string) :
  c_str q = q -> c_str q' = q' ->
  String.eqb (unlisten_command q) (listen_command q') = false.
Proof.
  intros H H'. rewrite listen_command_text, unlisten_command_text by assumption.
  reflexivity.
Qed.

Lemma quoted_is_cstring (s : connection_base) (channel q : string) :
  quoted s channel = Some q -> c_str q = q.
Proof.
  unfold quoted. destruct (m_conn s) as [c|]; [|discriminate].
  destruct (PQescapeIdentifier c channel) as [buf|]; [|discriminate].
  simpl. intros E. injection E as <-. apply c_str_idem.
Qed.

(** *** Computations that send no batch *)

Lemma no_batch_since_refl (s : connection_base) : no_batch_since s s.
Proof. exists []. now rewrite app_nil_r. Qed.

Lemma no_batch_since_trans (s1 s2 s3 : connection_base) :
  no_batch_since s1 s2 -> no_batch_since s2 s3 -> no_batch_since s1 s3.
Proof.
  intros (a & Ha & Hna) (b & Hb & Hnb). exists (a ++ b).
  rewrite Hb, Ha, app_assoc, forallb_app, Hna, Hnb. now split.
Qed.

Lemma no_batch_since_wire (s s' : connection_base) :
  wire s' = wire s -> no_batch_since s s'.
Proof. intros H. exists []. now rewrite app_nil_r. Qed.

Lemma no_batch_since_emit (evs : list event) (s : connection_base) :
  forallb (fun e => negb (is_batch e)) evs = true ->
  no_batch_since s (emit evs s).
Proof. intros H. exists evs. now split. Qed.

Lemma handler_calls_no_batch (evs : list event) :
  forallb is_handler_call evs = true ->
  forallb (fun e => negb (is_batch e)) evs = true.
Proof.
  induction evs as [|e evs IH]; [reflexivity|].
  simpl. intros H. apply andb_true_iff in H. destruct H as [He Hr].
  destruct e; try discriminate. simpl. now apply IH.
Qed.

Lemma no_batch_since_handlers (f : connection_base -> connection_base)
  (s : connection_base) :
  only_calls_handlers f -> no_batch_since s (f s).
Proof.
  intros Hf. destruct (Hf s) as (evs & -> & Hcalls).
  apply no_batch_since_emit. now apply handler_calls_no_batch.
Qed.

Lemma sends_no_batch_ret {A} (a : A) : sends_no_batch (ret a).
Proof. intros s. apply no_batch_since_refl. Qed.

Lemma sends_no_batch_throw {A} (c : exception_class) (msg : string) :
  sends_no_batch (@throw A c msg).
Proof. intros s. apply no_batch_since_refl. Qed.

Lemma sends_no_batch_bind {A B} (m : M A) (k : A -> M B) :
  sends_no_batch m -> (forall a, sends_no_batch (k a)) ->
  sends_no_batch (bind m k).
Proof.
  intros Hm Hk s. unfold bind. specialize (Hm s).
  destruct (m s) as [[a|e] s1]; cbn [snd] in *; [|exact Hm].
  eapply no_batch_since_trans; [exact Hm | apply Hk].
Qed.

Lemma sends_no_batch_get_bind {B} (k : connection_base -> M B) :
  (forall s, no_batch_since s (snd (k s s))) -> sends_no_batch (bind get k).
Proof. intros Hk s. unfold bind, get. apply Hk. Qed.

Lemma sends_no_batch_try_catch {A} (m : M A) (catches : exception -> bool)
  (handler : exception -> M A) :
  sends_no_batch m -> (forall e, sends_no_batch (handler e)) ->
  sends_no_batch (try_catch m catches handler).
Proof.
  intros Hm Hh s. unfold try_catch. specialize (Hm s).
  destruct (m s) as [[a|e] s1]; cbn [snd] in *; [exact Hm|].
  destruct (catches e); [|exact Hm].
  eapply no_batch_since_trans; [exact Hm | apply Hh].
Qed.

Lemma sends_no_batch_handlers (f : connection_base -> connection_base) :
  only_calls_handlers f -> sends_no_batch (modify f).
Proof.
  intros Hf s. unfold modify. cbn [snd]. now apply no_batch_since_handlers.
Qed.

Lemma sends_no_batch_silent (f : connection_base -> connection_base) :
  (forall s, wire (f s) = wire s) -> sends_no_batch (modify f).
Proof.
  intros Hf s. unfold modify. cbn [snd]. apply no_batch_since_wire, Hf.
Qed.

Lemma sends_no_batch_encoding_id : sends_no_batch encoding_id.
Proof.
  unfold encoding_id. apply sends_no_batch_get_bind. intros s. cbv beta.
  destruct (_ =? _)%Z; [destruct (negb _)|]; apply no_batch_since_refl.
Qed.

Lemma sends_no_batch_make_result (rhs : option PGresult) (query : string) :
  sends_no_batch (make_result rhs query).
Proof.
  apply sends_no_batch_bind;
    [apply sends_no_batch_encoding_id | intros; apply sends_no_batch_ret].
Qed.

Lemma sends_no_batch_check_result (W : collaborators) (R : result) :
  sends_no_batch (check_result W R).
Proof.
  unfold check_result. apply sends_no_batch_get_bind. intros s. cbv beta.
  destruct (negb (is_open s)); [apply no_batch_since_refl|].
  destruct (negb (result_connection R)); [apply no_batch_since_refl|].
  unfold check_status. destruct (r_data R) as [r|];
    [destruct (PQresultStatus r)|]; apply no_batch_since_refl.
Qed.

Lemma sends_no_batch_quote_name (identifier : string) :
  sends_no_batch (quote_name identifier).
Proof.
  unfold quote_name. apply sends_no_batch_get_bind. intros s. cbv beta.
  destruct (m_conn s) as [c|]; [|apply no_batch_since_refl].
  destruct (PQescapeIdentifier c identifier); apply no_batch_since_refl.
Qed.

Lemma sends_no_batch_call_PQexec (query : string) :
  sends_no_batch (call_PQexec query).
Proof.
  intros s. unfold call_PQexec.
  destruct (m_conn s) as [c|]; [|apply no_batch_since_refl].
  destruct (PQexec c query) as [c' r]. cbn [snd].
  now exists [SentQuery query].
Qed.

Section QuietNotifications.

Variable W : collaborators.

Lemma no_batch_since_consume_input (s : connection_base) :
  no_batch_since s (snd (consume_input s)).
Proof.
  unfold consume_input.
  destruct (m_conn s) as [c|]; [|apply no_batch_since_refl].
  destruct (PQconsumeInput c) as [c' r]. now apply no_batch_since_wire.
Qed.

Lemma no_batch_since_get_notif (s : connection_base) :
  no_batch_since s (snd (get_notif s)).
Proof.
  unfold get_notif.
  destruct (m_conn s) as [c|]; [|apply no_batch_since_refl].
  destruct (PQnotifies c) as [c' n]. now apply no_batch_since_wire.
Qed.

Lemma no_batch_since_notify_receivers (N : PGnotify) (Hit : receiver_list) :
  forall s, no_batch_since s (notify_receivers W Hit N s).
Proof.
  induction Hit as [|i rest IH]; intros s; [apply no_batch_since_refl|].
  cbn [notify_receivers].
  eapply no_batch_since_trans; [|apply IH].
  eapply no_batch_since_trans;
    [apply (no_batch_since_emit [ReceiverCalled (snd i) (extra N) (be_pid N)] s);
     reflexivity|].
  destruct (receiver_call W (snd i) (extra N) (be_pid N)) as [e|];
    [|apply no_batch_since_refl].
  apply no_batch_since_handlers. apply receiver_threw_only_calls.
Qed.

Lemma no_batch_since_get_notifs_loop (fuel : nat) :
  forall notifs s, no_batch_since s (snd (get_notifs_loop W fuel notifs s)).
Proof.
  induction fuel as [|fuel IH]; intros notifs s; [apply no_batch_since_refl|].
  cbn [get_notifs_loop]. pose proof (no_batch_since_get_notif s) as Hg.
  destruct (get_notif s) as [[N|] s1]; cbn [snd] in *; [|exact Hg].
  eapply no_batch_since_trans; [exact Hg|].
  eapply no_batch_since_trans; [|apply IH].
  apply no_batch_since_notify_receivers.
Qed.

Lemma sends_no_batch_get_notifs : sends_no_batch (get_notifs W).
Proof.
  intros s. unfold get_notifs.
  destruct (negb (is_open s)); [apply no_batch_since_refl|].
  pose proof (no_batch_since_consume_input s) as Hc.
  destruct (consume_input s) as [ok s1]. cbn [snd] in Hc.
  destruct (negb ok); [exact Hc|].
  destruct (m_trans s1); [exact Hc|].
  pose proof (no_batch_since_get_notifs_loop (S (pending_notifies s1)) 0%Z s1)
    as Hl.
  destruct (get_notifs_loop W (S (pending_notifies s1)) 0 s1) as [n s2].
  cbn [snd] in *. eapply no_batch_since_trans; eassumption.
Qed.

Lemma sends_no_batch_exec (Query : string) : sends_no_batch (exec W Query).
Proof.
  unfold exec. apply sends_no_batch_get_bind. intros s. cbv beta.
  destruct (m_conn s); [|apply no_batch_since_refl].
  apply sends_no_batch_bind; [apply sends_no_batch_call_PQexec|].
  intros r. apply sends_no_batch_bind; [apply sends_no_batch_make_result|].
  intros R. apply sends_no_batch_bind; [apply sends_no_batch_check_result|].
  intros _. apply sends_no_batch_bind; [apply sends_no_batch_get_notifs|].
  intros _. apply sends_no_batch_ret.
Qed.

Lemma sends_no_batch_add_receiver (T : option notification_receiver) :
  sends_no_batch (add_receiver W T).
Proof.
  destruct T as [t|]; [|apply sends_no_batch_throw].
  unfold add_receiver. apply sends_no_batch_get_bind. intros s. cbv beta zeta.
  destruct (negb (mm_contains (receiver_channel W t) (m_receivers s)));
    [|now apply sends_no_batch_silent].
  apply sends_no_batch_bind; [apply sends_no_batch_quote_name|].
  intros q. apply sends_no_batch_get_bind. intros s1. cbv beta.
  apply sends_no_batch_bind; [|intros _; now apply sends_no_batch_silent].
  destruct (is_open s1); [|apply sends_no_batch_ret].
  apply sends_no_batch_try_catch; [|intros _; apply sends_no_batch_ret].
  apply sends_no_batch_bind; [apply sends_no_batch_call_PQexec|].
  intros r. apply sends_no_batch_bind; [apply sends_no_batch_make_result|].
  intros R. apply sends_no_batch_check_result.
Qed.

Lemma sends_no_batch_remove_receiver (T : option notification_receiver) :
  sends_no_batch (remove_receiver W T).
Proof.
  destruct T as [t|]; [|apply sends_no_batch_ret].
  unfold remove_receiver. apply sends_no_batch_try_catch.
  - apply sends_no_batch_get_bind. intros s. cbv beta zeta.
    destruct (negb _).
    + apply sends_no_batch_handlers, process_notice_string_only_calls.
    + apply sends_no_batch_bind; [now apply sends_no_batch_silent|].
      intros _. destruct (match m_conn s with Some _ => _ | None => false end);
        [|apply sends_no_batch_ret].
      apply sends_no_batch_bind; [apply sends_no_batch_quote_name|].
      intros q. apply sends_no_batch_bind; [apply sends_no_batch_exec|].
      intros _. apply sends_no_batch_ret.
  - intros e. apply sends_no_batch_handlers, process_notice_only_calls.
Qed.

Lemma apply_op_no_batch (op : receiver_op) (s : connection_base) :
  no_batch_since s (apply_op W op s).
Proof.
  destruct op as [T|T]; cbn [apply_op].
  - apply sends_no_batch_add_receiver.
  - apply sends_no_batch_remove_receiver.
Qed.

End QuietNotifications.

(** *** The commands issued *)

Lemma commands_issued_app (a b : list event) :
  commands_issued (a ++ b) = commands_issued a ++ commands_issued b.
Proof. unfold commands_issued. apply flat_map_app. Qed.

Lemma commands_issued_no_batch (evs : list event) :
  forallb (fun e => negb (is_batch e)) evs = true ->
  commands_issued evs = queries_sent evs.
Proof.
  induction evs as [|e evs IH]; [reflexivity|].
  cbn [forallb]. intros H. apply andb_true_iff in H. destruct H as [He Hr].
  change (e :: evs) with ([e] ++ evs).
  rewrite commands_issued_app, queries_sent_app, (IH Hr). f_equal.
  destruct e; try reflexivity. discriminate.
Qed.

(** When no batch is sent, the commands issued are those sent with
    PQexec. *)
Lemma commands_follow_queries (s s' : connection_base) (due : list string) :
  no_batch_since s s' ->
  queries_sent (wire s') = queries_sent (wire s) ++ due ->
  commands_issued (wire s') = commands_issued (wire s) ++ due.
Proof.
  intros (evs & Hw & Hq) Hdue. rewrite Hw in *.
  rewrite queries_sent_app in Hdue. apply app_inv_head in Hdue.
  now rewrite commands_issued_app, (commands_issued_no_batch evs Hq), Hdue.
Qed.

(** *** Subscriptions follow the registry *)

Section Registry.

Variable W : collaborators.

Lemma queries_sent_commands (cmds : list string) :
  queries_sent (map SentQuery cmds) = cmds.
Proof. induction cmds as [|q cmds IH]; simpl; [reflexivity | now rewrite IH]. Qed.

Lemma cooperative_same_handle (c c' : PGconn) :
  cooperative W c -> same_handle c c' -> cooperative W c'.
Proof.
  intros [H1 H2 H3 H4 H5] (E1 & E2 & E3 & E4).
  constructor; unfold accepts in *; rewrite ?E1, ?E2, ?E3, ?E4; auto.
Qed.

Lemma after_nothing (s : connection_base) (c : PGconn) (rs' : receiver_list) :
  m_conn s = Some c ->
  same_session (after_commands s c rs' []) (set_m_receivers rs' s).
Proof.
  intros Hc. unfold same_session, after_commands. cbn.
  rewrite app_nil_r, Hc. repeat split.
Qed.

Lemma set_m_receivers_same (s : connection_base) :
  set_m_receivers (m_receivers s) s = s.
Proof. now destruct s. Qed.

Lemma quoted_healthy (s : connection_base) (r : notification_receiver) :
  healthy W s ->
  exists q, quoted s (receiver_channel W r) = Some q
            /\ quote_name (receiver_channel W r) s = (Returns q, s).
Proof.
  intros (_ & c & Hc & Hcoop).
  unfold quoted, quote_name, bind, get. rewrite Hc. unfold PQescapeIdentifier.
  pose proof (coop_escape Hcoop r) as He.
  destruct (pg_escapeIdentifier c (receiver_channel W r)) as [buf|]; [|congruence].
  exists (c_str buf). split; reflexivity.
Qed.

Lemma healthy_open (s : connection_base) : healthy W s -> is_open s = true.
Proof.
  intros (Hm & c & Hc & Hcoop). unfold is_open, status, PQstatus.
  now rewrite Hc, Hm, (coop_status Hcoop).
Qed.

(** A command the server accepts, sent with PQexec on a cooperative
    handle. *)
Lemma call_PQexec_accepted (s : connection_base) (c : PGconn) (cmd : string) :
  m_conn s = Some c -> pg_status c = CONNECTION_OK -> accepts c cmd ->
  exists r c',
    call_PQexec cmd s
    = (Returns (Some r), emit [SentQuery cmd] (set_m_conn (Some c') s))
    /\ good_result r = true /\ same_handle c c'.
Proof.
  intros Hc Hst (Hrs & r & Hr & Hg).
  exists r, (set_pg_status (reply_status (pg_reply c cmd)) c).
  unfold call_PQexec, PQexec. rewrite Hc, Hr. repeat split; try assumption.
  cbn. now rewrite Hrs, Hst.
Qed.

(** Whatever the server answers, [exec] sends its command and after that
    nothing that counts as a command. *)
Lemma exec_effect (s : connection_base) (c : PGconn) (cmd : string) :
  m_conn s = Some c ->
  same_session
    (emit [SentQuery cmd] (set_m_conn (Some (fst (PQexec c cmd))) s))
    (snd (exec W cmd s)).
Proof.
  intros Hc. unfold exec. unfold bind at 1. unfold get at 1. rewrite Hc.
  unfold bind at 1. unfold call_PQexec. rewrite Hc.
  destruct (PQexec c cmd) as [c' r]. cbn [fst].
  apply (framed_bind (make_result r cmd)
           (fun R => check_result W R ;; get_notifs W ;; ret R)).
  - apply framed_make_result.
  - intros R. apply framed_bind; [apply framed_check_result|].
    intros _. apply framed_bind; [apply framed_get_notifs|].
    intros _. apply framed_ret.
Qed.

(** What one call does to a healthy session: the commands due, and no
    other, are sent; the registry changes so that every channel is
    subscribed exactly if it has a receiver, given that this held before. *)
Lemma op_effect (s : connection_base) (op : receiver_op) :
  healthy W s ->
  exists c c' rs',
    m_conn s = Some c
    /\ same_handle c c'
    /\ same_session (after_commands s c' rs' (commands_due W op s))
         (apply_op W op s)
    /\ forall r q,
         quoted s (receiver_channel W r) = Some q ->
         subscription (listen_command q) (unlisten_command q)
           (commands_due W op s)
           (mm_contains (receiver_channel W r) (m_receivers s))
         = mm_contains (receiver_channel W r) rs'.
Proof.
  intros Hh. pose proof Hh as (Hm & c & Hc & Hcoop).
  pose proof (healthy_open s Hh) as Hopen.
  assert (Hidle : forall s', same_session s s' ->
            same_session (after_commands s c (m_receivers s) []) s').
  { intros s' Hs'. eapply same_session_trans; [|exact Hs'].
    rewrite <- (set_m_receivers_same s) at 2. now apply after_nothing. }
  assert (Hinj : forall r r' q,
            quoted s (receiver_channel W r) = Some q ->
            quoted s (receiver_channel W r') = Some q ->
            receiver_channel W r = receiver_channel W r').
  { intros r r' q Hq Hq'. apply (coop_escape_inj Hcoop).
    unfold quoted in Hq, Hq'. rewrite Hc in Hq, Hq'.
    unfold PQescapeIdentifier in Hq, Hq'. congruence. }
  destruct op as [[t|]|[t|]].
  - (* add_receiver *)
    set (ch := receiver_channel W t).
    destruct (mm_contains ch (m_receivers s)) eqn:Hknown.
    + exists c, c, (mm_insert_hint (ch, t) (m_receivers s)).
      split; [assumption|]. split; [apply same_handle_refl|].
      assert (Hrun : add_receiver W (Some t) s
                = (Returns tt,
                   set_m_receivers (mm_insert_hint (ch, t) (m_receivers s)) s)).
      { unfold add_receiver, bind, get. fold ch. rewrite Hknown. reflexivity. }
      cbn [apply_op commands_due]. fold ch. rewrite Hknown, Hrun. cbn [snd].
      split; [now apply after_nothing|].
      intros r q _. cbn [subscription].
      rewrite !mm_contains_count, mm_count_insert_hint.
      destruct (has_key (receiver_channel W r) (ch, t)) eqn:Hk; [|reflexivity].
      unfold has_key in Hk. cbn [fst] in Hk. apply String.eqb_eq in Hk.
      rewrite <- Hk, mm_contains_count in *.
      destruct (mm_count ch (m_receivers s)); [discriminate | reflexivity].
    + destruct (quoted_healthy s t Hh) as (q & Hq & Hquote). fold ch in Hq, Hquote.
      assert (Hacc : accepts c (listen_command q)).
      { apply (coop_accepts Hcoop t). unfold quoted in Hq. now rewrite Hc in Hq. }
      destruct (call_PQexec_accepted s c (listen_command q) Hc
                  (coop_status Hcoop) Hacc)
        as (res & c' & Hexec & Hgood & Hsame).
      pose proof (cooperative_same_handle c c' Hcoop Hsame) as Hcoop'.
      set (sa := emit [SentQuery (listen_command q)] (set_m_conn (Some c') s)).
      assert (Hopen' : is_open sa = true).
      { unfold is_open, status, PQstatus, sa. cbn.
        now rewrite Hm, (coop_status Hcoop'). }
      assert (Hrun : add_receiver W (Some t) s
                = (Returns tt,
                   after_commands s c' (mm_insert (ch, t) (m_receivers s))
                     [listen_command q])).
      { unfold add_receiver. unfold bind at 1. unfold get at 1. fold ch.
        rewrite Hknown. cbn [negb].
        rewrite (bind_eq _ _ _ _ _ Hquote).
        rewrite (bind_eq get _ s s s eq_refl). rewrite Hopen.
        unfold bind at 1. unfold try_catch.
        fold (listen_command q).
        rewrite (bind_eq _ _ _ _ _ Hexec). fold sa.
        rewrite (bind_eq _ _ _ _ _
                   (make_result_known (Some res) ("LISTEN " ++ q)%string sa c'
                      eq_refl (coop_encoding Hcoop'))).
        rewrite (check_result_good W
                   (mkResult (Some res) ("LISTEN " ++ q)%string (pg_clientEncoding c'))
                   res sa Hopen' eq_refl Hgood).
        reflexivity. }
      exists c, c', (mm_insert (ch, t) (m_receivers s)).
      split; [assumption|]. split; [assumption|].
      cbn [apply_op commands_due]. fold ch. rewrite Hknown, Hq, Hrun. cbn [snd].
      split; [apply same_session_refl|].
      intros r qk Hqk. cbn [subscription].
      pose proof (quoted_is_cstring s ch q Hq) as Cq.
      pose proof (quoted_is_cstring s _ qk Hqk) as Cqk.
      rewrite (listen_eqb_listen q qk Cq Cqk), (listen_eqb_unlisten q qk Cq Cqk).
      rewrite !mm_contains_count, mm_count_insert.
      unfold has_key. cbn [fst].
      destruct (String.eqb q qk) eqn:E.
      * apply String.eqb_eq in E. subst qk.
        pose proof (Hinj t r q Hq Hqk) as Hch. fold ch in Hch.
        rewrite Hch, String.eqb_refl. reflexivity.
      * destruct (String.eqb ch (receiver_channel W r)) eqn:E'; [|reflexivity].
        apply String.eqb_eq in E'. rewrite <- E' in Hqk.
        rewrite Hq in Hqk. injection Hqk as <-.
        now rewrite String.eqb_refl in E.
  - (* add_receiver on a null pointer *)
    exists c, c, (m_receivers s). split; [assumption|].
    split; [apply same_handle_refl|]. split; [|reflexivity].
    apply Hidle. apply same_session_refl.
  - (* remove_receiver *)
    cbn [apply_op]. unfold remove_receiver, try_catch.
    unfold bind at 1. unfold get at 1. cbv beta zeta. cbn [fst].
    remember (receiver_channel W t) as ch eqn:Ech.
    remember (existsb (fun e => entry_eqb e (ch, t)) (m_receivers s)) as found
      eqn:Efound.
    assert (Hfound : existsb (fun e => entry_eqb e (ch, t))
                       (mm_equal_range ch (m_receivers s)) = found).
    { rewrite Efound. apply (found_in_equal_range (ch, t)). }
    assert (Hdue_none :
              (found = false \/ (mm_count ch (m_receivers s) =? 1)%nat = false) ->
              commands_due W (RemoveReceiver (Some t)) s = []).
    { intros Hcase. cbn [commands_due]. rewrite <- Ech.
      destruct (mm_equal_range ch (m_receivers s)) as [|e [|e' R]] eqn:ER;
        try reflexivity.
      pose proof (single_found (ch, t) e (m_receivers s) ER) as Hs.
      rewrite <- Efound in Hs. cbn [snd] in Hs.
      destruct Hcase as [Hnf|Hn1].
      - rewrite <- Hs, Hnf. reflexivity.
      - unfold mm_count in Hn1. rewrite ER in Hn1. discriminate. }
    rewrite Hfound, Hc. fold (mm_count ch (m_receivers s)).
    destruct found.
    2:{ (* a receiver that is not registered *)
      cbn [negb]. unfold modify at 1. cbn [snd].
      exists c, c, (m_receivers s). split; [reflexivity|].
      split; [apply same_handle_refl|].
      rewrite (Hdue_none (or_introl eq_refl)). split; [|reflexivity].
      apply Hidle. apply same_session_handlers.
      apply process_notice_string_only_calls. }
    cbn [negb].
    pose proof (mm_count_found (ch, t) (m_receivers s) (eq_sym Efound)) as Hpos.
    pose proof (mm_count_erase_found (ch, t) (m_receivers s) (eq_sym Efound))
      as Hcount.
    cbn [fst] in Hpos, Hcount.
    destruct (mm_count ch (m_receivers s) =? 1)%nat eqn:Hone.
    2:{ (* other receivers of the channel remain *)
      unfold bind, modify, ret. cbn [snd].
      exists c, c, (mm_erase (ch, t) (m_receivers s)). split; [reflexivity|].
      split; [apply same_handle_refl|].
      rewrite (Hdue_none (or_intror eq_refl)).
      split; [now apply after_nothing|].
      intros r q _. cbn [subscription]. rewrite !mm_contains_count.
      destruct (has_key (receiver_channel W r) (ch, t)) eqn:Hk.
      - unfold has_key in Hk. cbn [fst] in Hk. apply String.eqb_eq in Hk.
        rewrite <- Hk, Hcount. apply Nat.eqb_neq in Hone.
        destruct (mm_count ch (m_receivers s)) as [|[|n]]; try lia; reflexivity.
      - now rewrite (mm_count_erase_other _ _ _ Hk). }
    (* the last receiver of the channel *)
    apply Nat.eqb_eq in Hone.
    set (se := set_m_receivers (mm_erase (ch, t) (m_receivers s)) s).
    assert (Hhe : healthy W se) by (split; [exact Hm | exists c; now split]).
    destruct (quoted_healthy se t Hhe) as (q & Hq & Hquote).
    rewrite <- Ech in Hq, Hquote.
    assert (Hqs : quoted s ch = Some q) by exact Hq.
    unfold bind at 1. unfold modify at 1. fold se.
    rewrite (bind_eq _ _ _ _ _ Hquote). fold (unlisten_command q).
    assert (Hacc : accepts c (unlisten_command q)).
    { apply (coop_accepts Hcoop t). rewrite <- Ech.
      unfold quoted in Hqs. now rewrite Hc in Hqs. }
    set (c' := fst (PQexec c (unlisten_command q))).
    assert (Hsame : same_handle c c').
    { destruct Hacc as (Hrs & _). unfold c', PQexec, same_handle.
      cbn [fst set_pg_status pg_status pg_reply pg_escapeIdentifier
             pg_clientEncoding].
      rewrite Hrs, (coop_status Hcoop). repeat split. }
    exists c, c', (mm_erase (ch, t) (m_receivers s)).
    split; [reflexivity|]. split; [assumption|].
    assert (Hdue : commands_due W (RemoveReceiver (Some t)) s = [unlisten_command q]).
    { cbn [commands_due]. rewrite <- Ech. unfold mm_count in Hone.
      destruct (mm_equal_range ch (m_receivers s)) as [|e [|e' R]] eqn:ER;
        try discriminate.
      pose proof (single_found (ch, t) e (m_receivers s) ER) as Hs.
      rewrite <- Efound in Hs. cbn [snd] in Hs. now rewrite <- Hs, Hqs. }
    rewrite Hdue. split.
    + pose proof (exec_effect se c (unlisten_command q) Hc) as Hex.
      fold c' in Hex.
      eapply same_session_trans; [apply same_session_refl|].
      eapply same_session_trans; [exact Hex|].
      unfold bind.
      destruct (exec W (unlisten_command q) se) as [[R|e] s1]; cbn [snd].
      * apply same_session_refl.
      * cbn [catch_std_exception]. unfold modify. cbn [snd].
        apply same_session_handlers. apply process_notice_only_calls.
    + intros r qk Hqk. cbn [subscription].
      pose proof (quoted_is_cstring s ch q Hqs) as Cq.
      pose proof (quoted_is_cstring s _ qk Hqk) as Cqk.
      rewrite (unlisten_eqb_listen q qk Cq Cqk),
        (unlisten_eqb_unlisten q qk Cq Cqk).
      rewrite !mm_contains_count.
      destruct (String.eqb q qk) eqn:E.
      * apply String.eqb_eq in E. subst qk.
        rewrite Ech in Hqs. rewrite <- (Hinj t r q Hqs Hqk), <- Ech.
        now rewrite Hcount, Hone.
      * destruct (has_key (receiver_channel W r) (ch, t)) eqn:Hk.
        -- unfold has_key in Hk. cbn [fst] in Hk. apply String.eqb_eq in Hk.
           rewrite <- Hk in Hqk. rewrite Hqs in Hqk. injection Hqk as <-.
           now rewrite String.eqb_refl in E.
        -- now rewrite (mm_count_erase_other _ _ _ Hk).
  - exists c, c, (m_receivers s). split; [assumption|].
    split; [apply same_handle_refl|]. split; [|reflexivity].
    apply Hidle. apply same_session_refl.
Qed.

End Registry.

Section RegistryInvariant.

Variable W : collaborators.

(** One call keeps a healthy session healthy and the subscriptions in
    step with the registry, and sends exactly the commands due. *)
Lemma step_invariants (s : connection_base) (op : receiver_op) :
  healthy W s -> subscriptions_match W s ->
  healthy W (apply_op W op s)
  /\ subscriptions_match W (apply_op W op s)
  /\ queries_sent (wire (apply_op W op s))
     = queries_sent (wire s) ++ commands_due W op s.
Proof.
  intros Hh Hinv.
  destruct (op_effect W s op Hh) as (c & c' & rs' & Hc & Hsame & Hss & Hmatch).
  destruct Hh as (Hm & c0 & Hc0 & Hcoop).
  rewrite Hc in Hc0. injection Hc0 as <-.
  set (s' := apply_op W op s) in *.
  destruct Hss as (A1 & _ & _ & A4 & A5 & A6).
  unfold after_commands in A1, A4, A5, A6.
  cbn [m_completed m_receivers wire m_conn set_m_receivers emit set_m_conn]
    in A1, A4, A5, A6.
  rewrite queries_sent_app, queries_sent_commands in A5.
  destruct (m_conn s') as [c''|] eqn:Hc''; [|contradiction].
  assert (Hcoop'' : cooperative W c'').
  { apply (cooperative_same_handle W c' c''); [|assumption].
    now apply (cooperative_same_handle W c c'). }
  split; [split; [congruence | exists c''; now split]|].
  split; [|exact A5].
  intros r. specialize (Hinv r). unfold subscribed in *.
  assert (Hq : quoted s' (receiver_channel W r) = quoted s (receiver_channel W r)).
  { unfold quoted. rewrite Hc'', Hc. unfold PQescapeIdentifier.
    destruct Hsame as (_ & _ & E & _), A6 as (_ & _ & E' & _). now rewrite E', E. }
  rewrite Hq. destruct (quoted s (receiver_channel W r)) as [q|] eqn:Eq.
  - rewrite (commands_follow_queries s s' _ (apply_op_no_batch W op s) A5).
    rewrite subscription_app, Hinv, A4. now apply Hmatch.
  - exfalso. unfold quoted in Eq. rewrite Hc in Eq.
    pose proof (coop_escape Hcoop r) as Hesc. unfold PQescapeIdentifier in Eq.
    destruct (pg_escapeIdentifier c (receiver_channel W r)); [discriminate | congruence].
Qed.

Lemma run_ops_snoc (ops : list receiver_op) (op : receiver_op)
  (s : connection_base) :
  run_ops W (ops ++ [op]) s = apply_op W op (run_ops W ops s).
Proof. unfold run_ops. now rewrite fold_left_app. Qed.

Lemma run_ops_invariants (s : connection_base) :
  healthy W s -> subscriptions_match W s ->
  forall ops, healthy W (run_ops W ops s)
              /\ subscriptions_match W (run_ops W ops s).
Proof.
  intros Hh Hinv ops. induction ops as [|op ops IH] using rev_ind.
  - now split.
  - rewrite run_ops_snoc. destruct IH as [IHh IHi].
    destruct (step_invariants (run_ops W ops s) op IHh IHi) as (H1 & H2 & _).
    now split.
Qed.

End RegistryInvariant.

(** ** The sample session *)

Lemma sample_server_cooperative :
  cooperative Sample.objects Sample.server.
Proof.
  constructor.
  - reflexivity.
  - discriminate.
  - discriminate.
  - intros r1 r2. simpl.
    destruct (r1 <? 10)%nat, (r2 <? 10)%nat; intros H;
      try reflexivity; vm_compute in H; discriminate.
  - intros r q _. split; (split; [reflexivity | now exists Sample.command_ok]).
Qed.

Lemma sample_open_session_healthy :
  healthy Sample.objects Sample.open_session.
Proof.
  split; [reflexivity|]. exists Sample.server.
  split; [reflexivity | apply sample_server_cooperative].
Qed.

Lemma sample_open_session_matches :
  subscriptions_match Sample.objects Sample.open_session.
Proof.
  intros r. unfold subscribed. destruct (quoted _ _); reflexivity.
Qed.

Lemma get_notifs_defers_witness :
  get_notifs Sample.objects (Sample.listening 1 (Some 7))
  = (Returns 0%Z,
     set_m_conn (Some (set_pg_queues [] [Sample.alert "p1"]
                         (Sample.handle 1 [Sample.alert "p1"] [])))
       (Sample.listening 1 (Some 7))).
Proof.
  destruct (get_notifs_defers_during_transaction Sample.objects
              (Sample.listening 1 (Some 7))
              (Sample.handle 1 [Sample.alert "p1"] []) 7 eq_refl eq_refl eq_refl)
    as (_ & Hdefer).
  apply Hdefer. discriminate.
Defined.

(** C3, as stated, fails when the input cannot be consumed: the session is
    open, a transaction is registered, and [get_notifs] raises
    broken_connection instead of returning 0.  And when the input can be
    consumed it is consumed: the notification leaves the socket for
    libpq's queue, where it stays. *)
Lemma get_notifs_raises_during_transaction :
  (is_open (Sample.listening 0 (Some 7)) = true
   /\ m_trans (Sample.listening 0 (Some 7)) = Some 7
   /\ get_notifs Sample.objects (Sample.listening 0 (Some 7))
      = (Throws (Exception broken_connection "Connection to database failed"),
         Sample.listening 0 (Some 7))
   /\ fst (get_notifs Sample.objects (Sample.listening 0 (Some 7)))
      <> Returns 0%Z)
  /\ (option_map pg_socket (m_conn (Sample.listening 1 (Some 7)))
      = Some [Sample.alert "p1"]
      /\ option_map pg_socket
           (m_conn (snd (get_notifs Sample.objects (Sample.listening 1 (Some 7)))))
         = Some []
      /\ option_map pg_notifies
           (m_conn (snd (get_notifs Sample.objects (Sample.listening 1 (Some 7)))))
         = Some [Sample.alert "p1"]).
Proof. repeat split. discriminate. Qed.

(** The notification scenario: with no transaction the receiver gets the
    payload and the call returns 1; with a transaction the call returns 0
    and calls nobody, and the call made after the transaction is
    unregistered delivers the payload. *)
Example alerts_scenario :
  (let r := get_notifs Sample.objects (Sample.listening 1 None) in
   fst r = Returns 1%Z /\ wire (snd r) = [ReceiverCalled 3 "p1" 4242])
  /\ (let r := get_notifs Sample.objects (Sample.listening 1 (Some 7)) in
      fst r = Returns 0%Z /\ wire (snd r) = []
      /\ let r' := get_notifs Sample.objects
                     (snd (unregister_transaction Sample.objects 7 (snd r))) in
         fst r' = Returns 1%Z /\ wire (snd r') = [ReceiverCalled 3 "p1" 4242]).
Proof. repeat split. Qed.

Lemma close_never_raises_witness :
  close Sample.objects Sample.busy
  = (Returns tt,
     mkConnection None true (Some 7) [] None 0 []
       [HandlerCalled 2
          ("Closing connection while transaction 'T' is still open."
           ++ newline)%string;
        HandlerCalled 2
          ("Closing connection with outstanding receivers." ++ newline)%string;
        HandlerUnregistered 2; HandlerUnregistered 1; Disconnected]).
Proof.
  destruct (close_never_raises Sample.objects Sample.busy) as (_ & _ & _ & H).
  destruct H as (Hclose & _).
  - intros t _. now exists "transaction 'T'"%string.
  - exact Hclose.
Defined.

Lemma notice_text_ends_in_newline_witness :
  (exists texts,
     process_notice Sample.objects (Some "disk full") Sample.two_handlers
     = fold_left (fun st t => process_notice_raw Sample.objects (Some t) st)
         texts Sample.two_handlers
     /\ texts = [("disk full" ++ newline)%string])
  /\ (exists texts chunks last,
        process_notice Sample.objects_low_memory (Some "disk full")
          Sample.two_handlers
        = fold_left
            (fun st t => process_notice_raw Sample.objects_low_memory (Some t) st)
            texts Sample.two_handlers
        /\ texts = map (fun ch => (ch ++ separator)%string) chunks
                   ++ [(last ++ newline)%string]
        /\ (fold_right String.append EmptyString chunks ++ last)%string
           = "disk full").
Proof.
  split.
  - destruct (notice_text_ends_in_newline Sample.objects Sample.two_handlers
                "disk full") as (Hchar & _).
    + discriminate.
    + reflexivity.
    + destruct Hchar as (texts & Hrun & _ & Hcopy & _); [reflexivity|].
      exists texts. split; [exact Hrun | now apply Hcopy].
  - destruct (notice_text_ends_in_newline Sample.objects_low_memory
                Sample.two_handlers "disk full") as (Hchar & _).
    + discriminate.
    + reflexivity.
    + destruct Hchar as (texts & Hrun & _ & _ & Hcut & _); [discriminate|].
      destruct (Hcut eq_refl eq_refl) as (chunks & last & Htexts & Hmsg & _).
      exists texts, chunks, last. repeat split; assumption.
Defined.

(** C6, as stated, fails in three ways.  A text that arrives ending in
    two newlines reaches the handler as it is.  When the text can be
    copied but the copy with the newline cannot be allocated, the handler
    is called with the text without a newline, then with a newline
    alone.  And a std::string with a NUL character inside reaches the
    handler cut at that character. *)
Lemma notice_text_not_normalised :
  (let msg := ("disk full" ++ newline ++ newline)%string in
   since Sample.two_handlers
     (process_notice Sample.objects (Some msg) Sample.two_handlers)
   = [HandlerCalled 2 msg]
   /\ ends_in_exactly_one_newline msg = false)
  /\ (since Sample.two_handlers
        (process_notice Sample.objects_low_memory (Some "abc") Sample.two_handlers)
      = [HandlerCalled 2 "abc"; HandlerCalled 2 newline]
      /\ ends_in_newline "abc" = false)
  /\ (let msg := String "a" (String NUL (String "b" newline)) in
      since Sample.two_handlers
        (process_notice_string Sample.objects msg Sample.two_handlers)
      = [HandlerCalled 2 "a"]
      /\ ends_in_newline "a" = false).
Proof. repeat split. Qed.

(** A long text when nothing can be allocated: two full pieces with the
    marker, and the rest with a newline. *)
Example long_notice_is_cut :
  texts_delivered
    (since Sample.two_handlers
       (process_notice Sample.objects_low_memory (Some (Sample.letters 2000))
          Sample.two_handlers))
  = [(Sample.letters 999 ++ separator)%string;
     (Sample.letters 999 ++ separator)%string;
     (Sample.letters 2 ++ newline)%string].
Proof. vm_compute. reflexivity. Qed.

Lemma read_copy_line_witness :
  read_copy_line Sample.objects "stale" (Sample.copying [(5%Z, Some "hello")])
  = (Returns (Some (true, "hello")), Sample.copying []).
Proof.
  destruct (read_copy_line_by_return_value Sample.objects
              (Sample.copying [(5%Z, Some "hello")])
              (Sample.handle 1 [] [(5%Z, Some "hello")])
              "stale" 5%Z (Some "hello") [] eq_refl eq_refl eq_refl)
    as (_ & _ & _ & _ & Hrow & _).
  apply (Hrow "hello"); [unfold INT_MAX; lia | reflexivity | reflexivity].
Defined.

(** C8, as stated, fails on a row: the data is not appended to what the
    output string held.  The string is erased on entry, so after a call
    on a string that holds "stale" with the row "hello" the string is
    "hello", not "stalehello". *)
Lemma read_copy_line_replaces_the_line :
  is_open (Sample.copying [(5%Z, Some "hello")]) = true
  /\ read_copy_line Sample.objects "stale" (Sample.copying [(5%Z, Some "hello")])
     = (Returns (Some (true, "hello")), Sample.copying [])
  /\ "hello" <> ("stale" ++ "hello")%string
  /\ read_copy_line Sample.objects "stale" (Sample.copying [(5%Z, Some "hello")])
     <> (Returns (Some (true, ("stale" ++ "hello")%string)), Sample.copying []).
Proof. repeat split; discriminate. Qed.

Lemma get_notifs_counts_all_witness :
  get_notifs Sample.objects Sample.nobody_listening
  = (Returns 2%Z,
     set_m_conn (Some (Sample.handle 1 [] [])) Sample.nobody_listening).
Proof.
  destruct (get_notifs_counts_all Sample.objects Sample.nobody_listening
              (Sample.handle 1 [Sample.alert "p1"; Sample.alert "p2"] [])
              eq_refl eq_refl eq_refl) as (_ & Hdrain).
  destruct Hdrain as (_ & _ & _ & Hnone); [discriminate|].
  apply Hnone. intros N _. reflexivity.
Defined.

Lemma remove_null_receiver_witness :
  remove_receiver Sample.objects (Some 5) Sample.two_handlers
  = (Returns tt,
     process_notice_string Sample.objects
       "Attempt to remove unknown receiver 'alerts'" Sample.two_handlers).
Proof.
  apply (remove_null_receiver_is_noop Sample.objects Sample.two_handlers).
  reflexivity.
Defined.

(** With handler 2 registered, removing receiver 5, which was never
    added, makes that handler see the diagnostic; removing a null pointer
    does not. *)
Example unknown_receiver_is_reported :
  since Sample.two_handlers
    (snd (remove_receiver Sample.objects (Some 5) Sample.two_handlers))
  = [HandlerCalled 2 ("Attempt to remove unknown receiver 'alerts'" ++ newline)]
  /\ since Sample.two_handlers
       (snd (remove_receiver Sample.objects None Sample.two_handlers))
     = [].
Proof. split; reflexivity. Qed.

(** ** Further properties *)

(** *** The handler chain and the notice processor *)

Section HandlerChain.

Lemma filter_absent (h : errorhandler) (l : list errorhandler) :
  ~ In h l -> filter (fun h' => negb (Nat.eqb h' h)) l = l.
Proof.
  induction l as [|a l IH]; intros Hin; simpl; [reflexivity|].
  destruct (Nat.eqb_spec a h) as [->|Hne]; simpl.
  - exfalso. apply Hin. now left.
  - rewrite IH; [reflexivity|]. intros Hl. apply Hin. now right.
Qed.

Lemma filter_removes (h : errorhandler) (l : list errorhandler) :
  ~ In h (filter (fun h' => negb (Nat.eqb h' h)) l).
Proof.
  intros Hin. apply filter_In in Hin. destruct Hin as [_ Hne].
  now rewrite Nat.eqb_refl in Hne.
Qed.

Lemma clear_notice_processor_twice (s : connection_base) :
  clear_notice_processor (clear_notice_processor s) = clear_notice_processor s.
Proof. destruct s as [[c|] ? ? ? ? ? ? ?]; reflexivity. Qed.

Lemma unregister_absent (h : errorhandler) (s : connection_base) :
  ~ In h (m_errorhandlers s) ->
  unregister_errorhandler h s
  = match m_errorhandlers s with
    | [] => clear_notice_processor s
    | _ :: _ => s
    end.
Proof.
  intros Hin. unfold unregister_errorhandler.
  rewrite (filter_absent h _ Hin).
  destruct s as [conn comp tr hs tra sv rs w]; simpl in *.
  destruct hs; reflexivity.
Qed.

Lemma unregister_chain (h : errorhandler) (s : connection_base) :
  m_errorhandlers (unregister_errorhandler h s)
  = filter (fun h' => negb (Nat.eqb h' h)) (m_errorhandlers s).
Proof.
  unfold unregister_errorhandler.
  destruct s as [[c|] comp tr hs tra sv rs w]; simpl;
    destruct (filter (fun h' => negb (Nat.eqb h' h)) hs); reflexivity.
Qed.

Lemma follows_chain_clear (s : connection_base) :
  processor_follows_chain s -> m_errorhandlers s = [] ->
  clear_notice_processor s = s.
Proof.
  intros Hinv Hnil. destruct s as [[c|] comp tr hs tra sv rs w]; [|reflexivity].
  simpl in Hnil. subst hs.
  specialize (Hinv c eq_refl). simpl in Hinv.
  unfold clear_notice_processor, set_m_conn; simpl.
  destruct c; simpl in *. now subst.
Qed.

(** X1.  Unregistering an error handler takes every occurrence of it out
    of the chain, and doing it again changes nothing: the second call is
    a no-op. *)
Theorem unregister_errorhandler_idempotent :
  forall (h : errorhandler) (s : connection_base),
    unregister_errorhandler h (unregister_errorhandler h s)
    = unregister_errorhandler h s
    /\ ~ In h (m_errorhandlers (unregister_errorhandler h s))
    /\ forall h', h' <> h ->
         (In h' (m_errorhandlers (unregister_errorhandler h s))
          <-> In h' (m_errorhandlers s)).
Proof.
  intros h s. split; [|split].
  - rewrite (unregister_absent h (unregister_errorhandler h s))
      by (rewrite unregister_chain; apply filter_removes).
    rewrite unregister_chain.
    destruct (filter (fun h' => negb (Nat.eqb h' h)) (m_errorhandlers s)) eqn:Hf;
      [|reflexivity].
    assert (Hu : unregister_errorhandler h s
                 = clear_notice_processor (set_m_errorhandlers [] s)).
    { unfold unregister_errorhandler. rewrite Hf. reflexivity. }
    rewrite Hu. apply clear_notice_processor_twice.
  - rewrite unregister_chain. apply filter_removes.
  - intros h' Hne. rewrite unregister_chain, filter_In. split.
    + now intros [Hin _].
    + intros Hin. split; [assumption|].
      destruct (Nat.eqb_spec h' h); [contradiction|reflexivity].
Qed.

Lemma unregister_errorhandler_idempotent_witness :
  unregister_errorhandler 1 (unregister_errorhandler 1 Sample.two_handlers)
  = unregister_errorhandler 1 Sample.two_handlers
  /\ In 2 (m_errorhandlers (unregister_errorhandler 1 Sample.two_handlers)).
Proof.
  destruct (unregister_errorhandler_idempotent 1 Sample.two_handlers)
    as (Htwice & _ & Hothers).
  split; [exact Htwice|].
  apply (Hothers 2); [discriminate|]. simpl. auto.
Defined.

(** X2.  Registering a handler that is not in the chain and unregistering
    it again restores the connection.  The chain and the wire are as
    before; the notice processor of the handle is as before too when it
    was in step with the chain, and otherwise, on an empty chain, it is
    now the inert one. *)
Theorem register_unregister_round_trip :
  forall (h : errorhandler) (s : connection_base),
    ~ In h (m_errorhandlers s) ->
    unregister_errorhandler h (register_errorhandler h s)
    = match m_errorhandlers s with
      | [] => clear_notice_processor s
      | _ :: _ => s
      end
    /\ (processor_follows_chain s ->
        unregister_errorhandler h (register_errorhandler h s) = s).
Proof.
  intros h s Hin.
  assert (Hfirst :
    unregister_errorhandler h (register_errorhandler h s)
    = match m_errorhandlers s with
      | [] => clear_notice_processor s
      | _ :: _ => s
      end).
  { unfold unregister_errorhandler, register_errorhandler.
    destruct s as [conn comp tr hs tra sv rs w]; simpl in *.
    destruct hs as [|a hs].
    - destruct conn as [c|]; simpl; rewrite Nat.eqb_refl; simpl; reflexivity.
    - simpl. rewrite filter_app. simpl. rewrite Nat.eqb_refl. simpl.
      rewrite app_nil_r.
      assert (Ha : Nat.eqb a h = false).
      { apply Nat.eqb_neq. intros ->. apply Hin. now left. }
      rewrite Ha. simpl.
      rewrite filter_absent; [reflexivity|].
      intros Hl. apply Hin. now right. }
  split; [exact Hfirst|].
  intros Hinv. rewrite Hfirst.
  destruct (m_errorhandlers s) eqn:Hhs; [|reflexivity].
  now apply follows_chain_clear.
Qed.

Lemma register_unregister_round_trip_witness :
  unregister_errorhandler 4 (register_errorhandler 4 Sample.two_handlers)
  = Sample.two_handlers.
Proof.
  destruct (register_unregister_round_trip 4 Sample.two_handlers) as [H _].
  - simpl. intros [H|[H|[]]]; discriminate.
  - exact H.
Defined.

Lemma register_follows_chain (h : errorhandler) (s : connection_base) :
  processor_follows_chain s -> processor_follows_chain (register_errorhandler h s).
Proof.
  intros Hinv c Hc. unfold register_errorhandler in *.
  destruct s as [[c0|] comp tr hs tra sv rs w]; simpl in *.
  - specialize (Hinv c0 eq_refl). simpl in Hinv.
    destruct hs as [|a hs]; simpl in *.
    + injection Hc as <-. reflexivity.
    + injection Hc as <-. rewrite Hinv. destruct (hs ++ [h]); reflexivity.
  - destruct hs; simpl in Hc; discriminate.
Qed.

Lemma unregister_follows_chain (h : errorhandler) (s : connection_base) :
  processor_follows_chain s ->
  processor_follows_chain (unregister_errorhandler h s).
Proof.
  intros Hinv c Hc. unfold unregister_errorhandler in *.
  destruct s as [[c0|] comp tr hs tra sv rs w]; simpl in *.
  - specialize (Hinv c0 eq_refl). simpl in Hinv.
    destruct (filter (fun h' => negb (Nat.eqb h' h)) hs) as [|a l] eqn:Hf;
      simpl in *; injection Hc as <-; [reflexivity|].
    rewrite Hinv. destruct hs; [discriminate|reflexivity].
  - destruct (filter (fun h' => negb (Nat.eqb h' h)) hs); simpl in Hc; discriminate.
Qed.

Lemma handler_op_frame (op : handler_op) (s : connection_base) :
  wire (apply_handler_op op s) = wire s
  /\ is_open (apply_handler_op op s) = is_open s
  /\ m_receivers (apply_handler_op op s) = m_receivers s
  /\ m_trans (apply_handler_op op s) = m_trans s.
Proof.
  destruct op as [h|h]; simpl;
    unfold register_errorhandler, unregister_errorhandler;
    destruct s as [[c|] comp tr hs tra sv rs w]; simpl.
  - destruct hs; simpl; repeat split; reflexivity.
  - destruct hs; simpl; repeat split; reflexivity.
  - destruct (filter (fun h' => negb (Nat.eqb h' h)) hs); simpl; repeat split; reflexivity.
  - destruct (filter (fun h' => negb (Nat.eqb h' h)) hs); simpl; repeat split; reflexivity.
Qed.

(** X3.  Registering and unregistering handlers keeps the notice
    processor of the handle in step with the chain: after any sequence of
    the two calls, libpq passes notices to the connection exactly when
    the chain is not empty.  The calls touch nothing else: the wire, the
    registry, the transaction and whether the session is open stay as
    they were. *)
Theorem notice_processor_follows_chain :
  forall (s : connection_base) (ops : list handler_op),
    processor_follows_chain s ->
    processor_follows_chain (run_handler_ops ops s)
    /\ wire (run_handler_ops ops s) = wire s
    /\ is_open (run_handler_ops ops s) = is_open s
    /\ m_receivers (run_handler_ops ops s) = m_receivers s
    /\ m_trans (run_handler_ops ops s) = m_trans s.
Proof.
  intros s ops. revert s.
  induction ops as [|op ops IH]; intros s Hinv; simpl.
  - repeat split; auto.
  - assert (Hstep : processor_follows_chain (apply_handler_op op s)).
    { destruct op; simpl;
        [now apply register_follows_chain|now apply unregister_follows_chain]. }
    destruct (IH _ Hstep) as (H1 & H2 & H3 & H4 & H5).
    destruct (handler_op_frame op s) as (F2 & F3 & F4 & F5).
    unfold run_handler_ops in *.
    repeat split; [assumption|congruence..].
Qed.

Lemma notice_processor_follows_chain_witness :
  processor_follows_chain
    (run_handler_ops [Register 1; Register 2; Unregister 1; Unregister 2]
       Sample.open_session).
Proof.
  apply (notice_processor_follows_chain Sample.open_session
           [Register 1; Register 2; Unregister 1; Unregister 2]).
  intros c Hc. injection Hc as <-. reflexivity.
Defined.

End HandlerChain.

(** *** Notices when nobody listens *)

Section SilentNotices.

Variable W : collaborators.

Lemma process_notice_raw_silent (t : option string) (s : connection_base) :
  m_errorhandlers s = [] -> process_notice_raw W t s = s.
Proof.
  intros H. destruct t as [[|c r]|]; simpl; try reflexivity.
  rewrite H. simpl. apply emit_nil.
Qed.

Lemma process_notice_string_silent (msg : string) (s : connection_base) :
  m_errorhandlers s = [] -> process_notice_string W msg s = s.
Proof.
  intros H. unfold process_notice_string.
  destruct (ends_in_newline msg); [now apply process_notice_raw_silent|].
  destruct (string_alloc W _); [now apply process_notice_raw_silent|].
  rewrite (process_notice_raw_silent (Some (c_str msg)) s H).
  now apply process_notice_raw_silent.
Qed.

Lemma process_notice_chunks_silent (msg : string) (len bytes : nat)
  (s : connection_base) :
  m_errorhandlers s = [] ->
  forall fuel written,
    snd (process_notice_chunks W fuel msg len bytes written s) = s.
Proof.
  intros H. induction fuel as [|fuel IH]; intros written;
    cbn [process_notice_chunks]; [reflexivity|].
  destruct (written + bytes <? len)%nat; [|reflexivity].
  rewrite process_notice_raw_silent by assumption. apply IH.
Qed.

Lemma process_notice_silent (msg : option string) (s : connection_base) :
  m_errorhandlers s = [] -> process_notice W msg s = s.
Proof.
  intros H. unfold process_notice. destruct msg as [m|]; [|reflexivity].
  destruct (String.length m =? 0)%nat; [reflexivity|].
  destruct (ends_in_newline m); [now apply process_notice_raw_silent|].
  destruct (string_alloc W _); [now apply process_notice_string_silent|].
  pose proof (process_notice_chunks_silent m (String.length m)
                (sizeof_buf - sizeof_separator - 1) s H (String.length m) 0) as Hc.
  destruct (process_notice_chunks W (String.length m) m (String.length m)
              (sizeof_buf - sizeof_separator - 1) 0 s) as [written s1].
  simpl in Hc. subst s1. now apply process_notice_raw_silent.
Qed.

Lemma emit_same (evs : list event) (s : connection_base) :
  emit evs s = s -> evs = [].
Proof.
  intros H. apply (f_equal wire) in H. rewrite wire_emit in H.
  rewrite <- (app_nil_r (wire s)) in H at 2.
  now apply app_inv_head in H.
Qed.

(** X4.  A notice only ever reaches error handlers.  Whatever the text and
    however it is cut up, [process_notice] changes nothing of the
    connection but the wire, where it adds calls of handlers and nothing
    else; with no handler registered it does nothing at all. *)
Theorem notices_reach_handlers_only :
  forall (msg : option string) (s : connection_base),
    (exists evs,
       process_notice W msg s = emit evs s
       /\ forallb is_handler_call evs = true
       /\ queries_sent evs = []
       /\ (m_errorhandlers s = [] -> evs = []))
    /\ (m_errorhandlers s = [] ->
        process_notice W msg s = s
        /\ forall text, process_notice_string W text s = s).
Proof.
  intros msg s. split.
  - destruct (process_notice_only_calls W msg s) as (evs & He & Hall).
    exists evs. repeat split; try assumption.
    + now apply handler_calls_no_queries.
    + intros Hnil. apply (emit_same evs s).
      rewrite <- He. now apply process_notice_silent.
  - intros Hnil. split.
    + now apply process_notice_silent.
    + intros text. now apply process_notice_string_silent.
Qed.

End SilentNotices.

Lemma notices_reach_handlers_only_witness :
  process_notice Sample.objects_low_memory (Some (Sample.letters 2000))
    Sample.open_session
  = Sample.open_session.
Proof.
  destruct (notices_reach_handlers_only Sample.objects_low_memory
              (Some (Sample.letters 2000)) Sample.open_session) as [_ H].
  destruct (H eq_refl) as [H1 _]. exact H1.
Defined.

(** *** Activation *)

Section FirstActivation.

Variable W : collaborators.

Lemma read_capabilities_state (s : connection_base) :
  snd (read_capabilities s)
  = set_m_serverversion
      (match m_conn s with Some c => pg_serverVersion c | None => 0%Z end) s.
Proof.
  unfold read_capabilities, bind, get, modify, throw, ret. simpl.
  destruct (_ <=? 90000)%Z; [reflexivity|].
  destruct (protocol_version s =? 0)%Z; [reflexivity|].
  destruct (protocol_version s <? 3)%Z; reflexivity.
Qed.

Lemma read_capabilities_outcome (s : connection_base) :
  let v := match m_conn s with Some c => pg_serverVersion c | None => 0%Z end in
  fst (read_capabilities s)
  = if (v <=? 90000)%Z then
      Throws (Exception feature_not_supported
                "Unsupported server version; 9.0 is the minimum.")
    else if (protocol_version s =? 0)%Z then
      Throws (Exception broken_connection "No connection.")
    else if (protocol_version s <? 3)%Z then
      Throws (Exception feature_not_supported
                "Unsupported frontend/backend protocol version; 3.0 is the minimum.")
    else Returns tt.
Proof.
  intros v. unfold read_capabilities, bind, get, modify, throw, ret. simpl. fold v.
  destruct (v <=? 90000)%Z; [reflexivity|].
  destruct (protocol_version s =? 0)%Z; [reflexivity|].
  destruct (protocol_version s <? 3)%Z; reflexivity.
Qed.

Lemma read_capabilities_supported (s : connection_base) (c : PGconn) :
  m_conn s = Some c ->
  (90000 < pg_serverVersion c)%Z -> (3 <= pg_protocolVersion c)%Z ->
  read_capabilities s = (Returns tt, set_m_serverversion (pg_serverVersion c) s).
Proof.
  intros Hc Hv Hp.
  pose proof (read_capabilities_outcome s) as Hf.
  pose proof (read_capabilities_state s) as Hs.
  cbv zeta in Hf. unfold protocol_version in Hf. rewrite Hc in Hf, Hs.
  destruct (Z.leb_spec (pg_serverVersion c) 90000); [lia|].
  destruct (Z.eqb_spec (pg_protocolVersion c) 0); [lia|].
  destruct (Z.ltb_spec (pg_protocolVersion c) 3); [lia|].
  destruct (read_capabilities s) as [o s']. simpl in Hf, Hs. now subst.
Qed.

(** X5.  [read_capabilities] accepts a server exactly when its version is
    above 90000 and the protocol is 3 or later.  Version 90000 itself,
    that is 9.0.0, is refused.  The version is stored in the connection
    whether the server is accepted or not, and a session without a handle
    is refused as an unsupported server, not as a broken connection. *)
Theorem read_capabilities_thresholds :
  forall s : connection_base,
    let v := match m_conn s with Some c => pg_serverVersion c | None => 0%Z end in
    snd (read_capabilities s) = set_m_serverversion v s
    /\ (fst (read_capabilities s) = Returns tt
        <-> (90000 < v)%Z /\ (3 <= protocol_version s)%Z)
    /\ ((v <= 90000)%Z ->
        fst (read_capabilities s)
        = Throws (Exception feature_not_supported
                    "Unsupported server version; 9.0 is the minimum."))
    /\ ((90000 < v)%Z -> protocol_version s = 0%Z ->
        fst (read_capabilities s)
        = Throws (Exception broken_connection "No connection."))
    /\ ((90000 < v)%Z -> protocol_version s <> 0%Z ->
        (protocol_version s < 3)%Z ->
        fst (read_capabilities s)
        = Throws (Exception feature_not_supported
                    "Unsupported frontend/backend protocol version; 3.0 is the minimum."))
    /\ (m_conn s = None ->
        fst (read_capabilities s)
        = Throws (Exception feature_not_supported
                    "Unsupported server version; 9.0 is the minimum.")).
Proof.
  intros s v. split; [apply read_capabilities_state|].
  pose proof (read_capabilities_outcome s) as Hfst. cbv zeta in Hfst. fold v in Hfst.
  rewrite Hfst.
  destruct (Z.leb_spec v 90000) as [Hv|Hv];
    destruct (Z.eqb_spec (protocol_version s) 0) as [Hp|Hp];
    destruct (Z.ltb_spec (protocol_version s) 3) as [Hq|Hq];
    repeat split; intros; try reflexivity; try discriminate; try lia;
    try (subst v; match goal with H : m_conn s = None |- _ => rewrite H in *; lia end).
  all: try (match goal with H : _ /\ _ |- _ => destruct H; lia end).
Qed.

End FirstActivation.

Lemma read_capabilities_thresholds_witness :
  fst (read_capabilities (Sample.session (Some Scenario.old_server) true))
  = Throws (Exception feature_not_supported
              "Unsupported server version; 9.0 is the minimum.").
Proof.
  destruct (read_capabilities_thresholds
              (Sample.session (Some Scenario.old_server) true))
    as (_ & _ & H & _).
  apply H. simpl. lia.
Defined.

(** *** What activation leaves alone *)

Section ActivationFrame.



Lemma same_session_completed (s : connection_base) :
  m_completed s = true -> same_session s (set_m_completed true s).
Proof.
  intros H. unfold same_session. simpl. repeat split; auto.
  destruct (m_conn s); [apply same_handle_refl|exact I].
Qed.




Lemma framed_call_PQgetResult : framed call_PQgetResult.
Proof.
  intros s. unfold call_PQgetResult. destruct (m_conn s) as [c|] eqn:Hc.
  - unfold PQgetResult. destruct (pg_results c); simpl.
    + rewrite (set_m_conn_same s c Hc). apply same_session_refl.
    + apply (same_session_conn s c _ Hc). repeat split.
  - apply same_session_refl.
Qed.





Lemma same_session_is_open (s s' : connection_base) :
  same_session s s' -> is_open s' = is_open s.
Proof.
  intros (Hc & _ & _ & _ & _ & Hh). unfold is_open, status.
  destruct (m_conn s) as [c|], (m_conn s') as [c'|]; try contradiction;
    [|reflexivity].
  destruct Hh as (Hst & _). unfold PQstatus. now rewrite Hc, Hst.
Qed.

End ActivationFrame.

(** *** The first activation *)

Section ActivationOutcome.

Variable W : collaborators.

Lemma listen_batch_from (c : PGconn) (ks : list string) :
  forall text,
    fold_left
      (fun text k =>
         (text ++ "LISTEN "
          ++ match PQescapeIdentifier c k with
             | Some buf => c_str buf
             | None => ""
             end ++ "; ")%string)
      ks text
    = (text ++ listen_batch c ks)%string.
Proof.
  unfold listen_batch.
  induction ks as [|k ks IH]; intros text; simpl.
  - clear. induction text; simpl; congruence.
  - rewrite IH. rewrite (IH (String _ _)). now rewrite string_app_assoc.
Qed.

Lemma restore_listens_text (rs : receiver_list) :
  forall (Last restore_query : string) (s : connection_base) (c : PGconn),
    m_conn s = Some c ->
    (forall e, In e rs -> pg_escapeIdentifier c (fst e) <> None) ->
    restore_listens rs Last restore_query s
    = (Returns (restore_query ++ listen_batch c (restored_channels rs Last))%string,
       s).
Proof.
  induction rs as [|i rest IH]; intros Last restore_query s c Hc Hesc.
  - simpl. unfold ret, listen_batch. simpl.
    f_equal. f_equal. clear. induction restore_query; simpl; congruence.
  - cbn [restore_listens restored_channels].
    destruct (String.eqb (fst i) Last); cbn [negb].
    + apply (IH Last restore_query s c Hc). intros e He. apply Hesc. now right.
    + assert (Hq : exists buf, pg_escapeIdentifier c (fst i) = Some buf).
      { destruct (pg_escapeIdentifier c (fst i)) eqn:Hb; [eauto|].
        exfalso. apply (Hesc i); [now left|assumption]. }
      destruct Hq as (buf & Hbuf).
      assert (Hquote : quote_name (fst i) s = (Returns (c_str buf), s)).
      { unfold quote_name, bind, get. rewrite Hc. unfold PQescapeIdentifier.
        rewrite Hbuf. reflexivity. }
      rewrite (bind_eq _ _ _ _ _ Hquote).
      rewrite (IH (fst i) _ s c Hc) by (intros e He; apply Hesc; now right).
      f_equal. f_equal.
      unfold listen_batch at 2. cbn [fold_left].
      rewrite listen_batch_from. unfold PQescapeIdentifier. rewrite Hbuf.
      rewrite !string_app_assoc. reflexivity.
Qed.

Lemma restored_channels_cover (rs : receiver_list) :
  forall (Last k : string),
    k <> Last -> mm_contains k rs = true -> In k (restored_channels rs Last).
Proof.
  induction rs as [|i rest IH]; intros Last k Hne Hin; [discriminate|].
  cbn [restored_channels]. unfold mm_contains in Hin. cbn [existsb] in Hin.
  destruct (String.eqb_spec (fst i) Last) as [Heq|Hdiff].
  - apply IH; [assumption|].
    apply orb_true_iff in Hin. destruct Hin as [Hk|Hk]; [|exact Hk].
    unfold has_key in Hk. apply String.eqb_eq in Hk. congruence.
  - destruct (String.eqb_spec (fst i) k) as [Hik|Hik].
    + left. assumption.
    + right. apply IH; [congruence|].
      apply orb_true_iff in Hin. destruct Hin as [Hk|Hk]; [|exact Hk].
      unfold has_key in Hk. apply String.eqb_eq in Hk. contradiction.
Qed.

Lemma restored_channels_registered (rs : receiver_list) :
  forall (Last k : string),
    In k (restored_channels rs Last) -> mm_contains k rs = true.
Proof.
  induction rs as [|i rest IH]; intros Last k Hin; [contradiction|].
  cbn [restored_channels] in Hin. unfold mm_contains. cbn [existsb].
  apply orb_true_iff.
  destruct (String.eqb (fst i) Last).
  - right. now apply (IH Last).
  - destruct Hin as [Hk|Hk].
    + left. unfold has_key. now apply String.eqb_eq.
    + right. now apply (IH (fst i)).
Qed.

Lemma restored_channels_no_repeat (rs : receiver_list) :
  forall (Last : string) (a b : list string) (k k' : string),
    restored_channels rs Last = a ++ k :: k' :: b -> k <> k'.
Proof.
  assert (Hhead : forall rs0 Last k l,
            restored_channels rs0 Last = k :: l -> k <> Last).
  { intros rs0. induction rs0 as [|i rest IH]; intros Last k l H; [discriminate|].
    cbn [restored_channels] in H.
    destruct (String.eqb_spec (fst i) Last) as [Heq|Hdiff].
    - now apply (IH Last k l).
    - injection H as <- _. assumption. }
  induction rs as [|i rest IH]; intros Last a b k k' H.
  - destruct a; discriminate.
  - cbn [restored_channels] in H.
    destruct (String.eqb (fst i) Last).
    + now apply (IH Last a b).
    + destruct a as [|x a].
      * simpl in H. injection H as <- Hrest.
        apply Hhead in Hrest. congruence.
      * simpl in H. injection H as _ Hrest. now apply (IH (fst i) a b).
Qed.

(** X6.  The batch that [set_up_state] sends to restore the subscriptions
    holds a LISTEN for every channel that has a receiver and whose name is
    not empty, only for channels that have one, never the same channel
    twice in a row, each name quoted by the handle.  Receivers on the
    channel with the empty name at the head of the registry, where a
    multimap keeps them, get no LISTEN. *)
Theorem restore_covers_named_channels :
  forall (s : connection_base) (c : PGconn) (rs : receiver_list),
    m_conn s = Some c ->
    (forall e, In e rs -> pg_escapeIdentifier c (fst e) <> None) ->
    restore_listens rs "" "" s
    = (Returns (listen_batch c (restored_channels rs "")), s)
    /\ (forall k, k <> EmptyString -> mm_contains k rs = true ->
                  In k (restored_channels rs ""))
    /\ (forall k, In k (restored_channels rs "") -> mm_contains k rs = true)
    /\ (forall a b k k', restored_channels rs "" = a ++ k :: k' :: b -> k <> k')
    /\ (forall t rest, rs = (EmptyString, t) :: rest ->
                       restored_channels rs "" = restored_channels rest "").
Proof.
  intros s c rs Hc Hesc. split; [|split; [|split; [|split]]].
  - rewrite (restore_listens_text rs "" "" s c Hc Hesc). reflexivity.
  - intros k Hk. now apply restored_channels_cover.
  - intros k. apply restored_channels_registered.
  - intros a b k k'. apply restored_channels_no_repeat.
  - intros t rest ->. reflexivity.
Qed.

End ActivationOutcome.

Lemma restore_covers_named_channels_witness :
  restore_listens [("alerts", 1); ("alerts", 2); ("jobs", 11)] "" ""
    Sample.open_session
  = (Returns ("LISTEN " ++ Sample.dquote ++ "alerts" ++ Sample.dquote
              ++ "; LISTEN " ++ Sample.dquote ++ "jobs" ++ Sample.dquote
              ++ "; ")%string,
     Sample.open_session).
Proof.
  destruct (restore_covers_named_channels Sample.open_session Sample.server
              [("alerts", 1); ("alerts", 2); ("jobs", 11)] eq_refl) as [H _].
  - intros e _. discriminate.
  - exact H.
Defined.

Section ActivationSucceeds.

Variable W : collaborators.

Lemma drain_results_step (fuel : nat) :
  drain_results (S fuel)
  = (r <- call_PQgetResult ;;
     R <- make_result r "[RECONNECT]" ;;
     if result_connection R then drain_results fuel else ret tt).
Proof. reflexivity. Qed.

Lemma drain_results_all (rs : list PGresult) :
  forall (c : PGconn) (s : connection_base) (fuel : nat),
    m_conn s = Some c ->
    pg_clientEncoding c <> (-1)%Z ->
    pg_results c = rs ->
    List.length rs < fuel ->
    drain_results fuel s
    = (Returns tt, set_m_conn (Some (set_pg_results [] c)) s).
Proof.
  induction rs as [|r rest IH]; intros c s fuel Hc Henc Hrs Hfuel;
    (destruct fuel as [|fuel]; [simpl in Hfuel; lia|]);
    rewrite drain_results_step;
    pose proof (call_PQgetResult_next s c Hc) as Hnext; rewrite Hrs in Hnext;
    rewrite (bind_eq _ _ _ _ _ Hnext).
  - rewrite (bind_eq _ _ _ _ _ (make_result_known None "[RECONNECT]" s c Hc Henc)).
    cbn [result_connection r_data]. unfold ret.
    now rewrite (set_pg_results_same c [] Hrs), (set_m_conn_same s c Hc).
  - set (c1 := set_pg_results rest c). set (s1 := set_m_conn (Some c1) s).
    rewrite (bind_eq _ _ _ _ _
               (make_result_known (Some r) "[RECONNECT]" s1 c1 eq_refl Henc)).
    cbn [result_connection r_data].
    assert (Hlt : List.length rest < fuel) by (simpl in Hfuel; lia).
    rewrite (IH c1 s1 fuel eq_refl Henc eq_refl Hlt). reflexivity.
Qed.

Lemma try_catch_ok {A} (m : M A) catches handler s (a : A) s' :
  m s = (Returns a, s') -> try_catch m catches handler s = (Returns a, s').
Proof. intros H. unfold try_catch. now rewrite H. Qed.

Lemma set_up_state_supported (s : connection_base) (c : PGconn) :
  m_conn s = Some c ->
  m_completed s = true ->
  supported c ->
  (forall e, In e (m_receivers s) -> pg_escapeIdentifier c (fst e) <> None) ->
  let c1 := set_pg_trace (m_trace s)
              (set_pg_noticeProcessor inert_notice_processor c) in
  let s1 := set_m_serverversion (pg_serverVersion c) s in
  set_up_state s
  = (Returns tt,
     match m_receivers s with
     | [] => set_m_conn (Some c1) s1
     | _ :: _ =>
         emit [SentQueryAsync
                 (c_str (listen_batch c (restored_channels (m_receivers s) "")))]
           (set_m_conn (Some (set_pg_results [] c1)) s1)
     end).
Proof.
  intros Hc Hcomp (Hst & Hv & Hp & Henc) Hesc c1 s1.
  unfold set_up_state.
  rewrite (bind_eq _ _ _ _ _ (read_capabilities_supported s c Hc Hv Hp)).
  fold s1.
  destruct s as [conn comp tr hs tra sv rs w]. simpl in Hc, Hcomp, Hesc.
  subst conn comp.
  unfold bind at 1. unfold modify at 1.
  unfold bind at 1. unfold modify at 1.
  unfold bind at 1. unfold get at 1.
  cbn [s1 clear_notice_processor internal_set_trace set_m_conn set_m_serverversion
       m_conn m_completed m_trans m_errorhandlers m_trace m_serverversion
       m_receivers wire].
  change (set_m_conn
            (Some (set_pg_trace tra
                     (set_pg_noticeProcessor inert_notice_processor c)))
            (set_m_conn (Some (set_pg_noticeProcessor inert_notice_processor c)) s1))
    with (set_m_conn (Some c1) s1).
  set (st := set_m_conn (Some c1) s1).
  assert (Hopen : forall evs c', pg_status c' = CONNECTION_OK ->
            is_open (emit evs (set_m_conn (Some c') s1)) = true).
  { intros evs c' Hc'. unfold is_open, status, PQstatus. simpl. now rewrite Hc'. }
  destruct rs as [|e rest].
  - rewrite (bind_eq (ret tt) _ st tt st eq_refl).
    rewrite (bind_eq get _ st st st eq_refl).
    pose proof (Hopen [] c1 Hst) as Ho. rewrite emit_nil in Ho. fold st in Ho.
    rewrite Ho. reflexivity.
  - set (batch := listen_batch c (restored_channels (e :: rest) "")).
    set (final := emit [SentQueryAsync (c_str batch)]
                    (set_m_conn (Some (set_pg_results [] c1)) s1)).
    assert (HA : (restore_query <- restore_listens (e :: rest) "" "" ;;
                  call_PQsendQuery (c_str restore_query) ;;
                  s0 <- get ;; drain_results (S (pending_results s0))) st
                 = (Returns tt, final)).
    { rewrite (bind_eq _ _ _ _ _
                 (restore_listens_text (e :: rest) "" "" st c1 eq_refl Hesc)).
      change (("" ++ listen_batch c1 (restored_channels (e :: rest) ""))%string)
        with batch.
      rewrite (bind_eq (call_PQsendQuery (c_str batch)) _ st tt
                 (emit [SentQueryAsync (c_str batch)] st) eq_refl).
      rewrite (bind_eq get _ _ _ _ eq_refl).
      rewrite (drain_results_all (pg_results c1) c1
                 (emit [SentQueryAsync (c_str batch)] st) _ eq_refl Henc eq_refl)
        by (unfold pending_results; simpl; lia).
      reflexivity. }
    rewrite (bind_eq _ _ _ _ _ HA).
    rewrite (bind_eq get _ final final final eq_refl).
    assert (Ho : is_open final = true) by (apply Hopen; exact Hst).
    rewrite Ho. reflexivity.
Qed.


Lemma activate_unattempted (s : connection_base) :
  m_completed s = false ->
  let s0 := set_m_completed true s in
  activate W s
  = match (if is_open s0 then set_up_state s0
           else (Throws (Exception broken_connection (err_msg s)), s0)) with
    | (Returns a, s') => (Returns a, s')
    | (Throws e, s') =>
        if catch_broken_connection e then
          (Throws (Exception broken_connection (what e)), disconnect W s')
        else (Throws e, s')
    end.
Proof.
  intros Hm s0. unfold activate.
  rewrite (bind_eq get _ s s s eq_refl). rewrite Hm.
  unfold try_catch.
  rewrite (bind_eq (modify (set_m_completed true)) _ s tt s0 eq_refl).
  rewrite (bind_eq get _ s0 s0 s0 eq_refl).
  destruct (is_open s0); cbn [negb].
  - destruct (set_up_state s0) as [[a|e] s']; [reflexivity|].
    destruct (catch_broken_connection e); reflexivity.
  - unfold throw. cbn [catch_broken_connection exc_class exception_class_eqb].
    reflexivity.
Qed.



(** X7.  The first activation of a session on a supported handle
    succeeds.  It stores the server version, installs the inert notice
    processor whether or not error handlers are registered, installs the
    trace sink of the connection and, when receivers are registered,
    sends the batch of LISTEN commands in one asynchronous query and
    discards every result that is pending.  The session is open
    afterwards and no command went through PQexec. *)
Theorem first_activation_succeeds :
  forall (s : connection_base) (c : PGconn),
    m_completed s = false ->
    m_conn s = Some c ->
    supported c ->
    (forall e, In e (m_receivers s) -> pg_escapeIdentifier c (fst e) <> None) ->
    let c1 := set_pg_trace (m_trace s)
                (set_pg_noticeProcessor inert_notice_processor c) in
    let s1 := set_m_serverversion (pg_serverVersion c) (set_m_completed true s) in
    let batch := listen_batch c (restored_channels (m_receivers s) "") in
    activate W s
    = (Returns tt,
       match m_receivers s with
       | [] => set_m_conn (Some c1) s1
       | _ :: _ =>
           emit [SentQueryAsync (c_str batch)]
             (set_m_conn (Some (set_pg_results [] c1)) s1)
       end)
    /\ is_open (snd (activate W s)) = true
    /\ queries_sent (wire (snd (activate W s))) = queries_sent (wire s)
    /\ (forall c', m_conn (snd (activate W s)) = Some c' ->
          pg_noticeProcessor c' = inert_notice_processor
          /\ pg_trace c' = m_trace s
          /\ (m_receivers s <> [] -> pg_results c' = [])).
Proof.
  intros s c Hm Hc Hsup Hesc c1 s1 batch.
  assert (Hact : activate W s
    = (Returns tt,
       match m_receivers s with
       | [] => set_m_conn (Some c1) s1
       | _ :: _ =>
           emit [SentQueryAsync (c_str batch)]
             (set_m_conn (Some (set_pg_results [] c1)) s1)
       end)).
  { rewrite (activate_unattempted s Hm). cbv zeta.
    assert (Ho : is_open (set_m_completed true s) = true).
    { destruct Hsup as (Hst & _). unfold is_open, status, PQstatus. simpl.
      now rewrite Hc, Hst. }
    rewrite Ho.
    rewrite (set_up_state_supported (set_m_completed true s) c Hc eq_refl Hsup Hesc).
    reflexivity. }
  split; [exact Hact|]. rewrite Hact. cbn [snd].
  destruct Hsup as (Hst & _).
  assert (Hopen : forall evs c', pg_status c' = CONNECTION_OK ->
            is_open (emit evs (set_m_conn (Some c') s1)) = true).
  { intros evs c' Hc'. unfold is_open, status, PQstatus. simpl. now rewrite Hc'. }
  destruct (m_receivers s) as [|e rest] eqn:Hrs.
  - split; [|split].
    + rewrite <- (emit_nil (set_m_conn (Some c1) s1)). now apply Hopen.
    + reflexivity.
    + intros c' Hc'. injection Hc' as <-.
      split; [reflexivity|]. split; [reflexivity|].
      intros Hne. now contradiction Hne.
  - split; [|split].
    + now apply Hopen.
    + rewrite wire_emit, queries_sent_app. simpl. now rewrite app_nil_r.
    + intros c' Hc'. injection Hc' as <-.
      split; [reflexivity|]. split; reflexivity.
Qed.


End ActivationSucceeds.

Lemma first_activation_succeeds_witness :
  activate Sample.objects
    (mkConnection (Some (Scenario.with_results [Sample.command_ok])) false None
       [1] None 0 [("alerts", 1); ("alerts", 2); ("jobs", 11)] [])
  = (Returns tt,
     mkConnection (Some Sample.server) true None [1] None 110000
       [("alerts", 1); ("alerts", 2); ("jobs", 11)]
       [SentQueryAsync
          ("LISTEN " ++ Sample.dquote ++ "alerts" ++ Sample.dquote
           ++ "; LISTEN " ++ Sample.dquote ++ "jobs" ++ Sample.dquote
           ++ "; ")%string]).
Proof.
  destruct (first_activation_succeeds Sample.objects
              (mkConnection (Some (Scenario.with_results [Sample.command_ok]))
                 false None [1] None 0
                 [("alerts", 1); ("alerts", 2); ("jobs", 11)] [])
              (Scenario.with_results [Sample.command_ok]) eq_refl eq_refl)
    as [H _].
  - unfold supported. simpl. repeat split; lia.
  - intros e _. discriminate.
  - exact H.
Defined.


(** *** Commands *)

Section Commands.

Variable W : collaborators.
Variable E : environment.

Lemma exec_queries (s : connection_base) (c : PGconn) (cmd : string) :
  m_conn s = Some c ->
  queries_sent (wire (snd (exec W cmd s))) = queries_sent (wire s) ++ [cmd].
Proof.
  intros Hc. destruct (exec_effect W s c cmd Hc) as (_ & _ & _ & _ & Hq & _).
  rewrite Hq, wire_emit, queries_sent_app. reflexivity.
Qed.

Lemma bind_ret_snd {A} (m : M A) (s : connection_base) :
  snd ((m ;; ret tt) s) = snd (m s).
Proof. unfold bind. destruct (m s) as [[a|e] s']; reflexivity. Qed.

Lemma bind_ret_fst {A} (m : M A) (s : connection_base) :
  fst ((m ;; ret tt) s) = Returns tt <-> exists a, fst (m s) = Returns a.
Proof.
  unfold bind. destruct (m s) as [[a|e] s']; simpl; split.
  - intros _. now exists a.
  - reflexivity.
  - discriminate.
  - intros (a & Ha). discriminate.
Qed.

Lemma exec_on_handle (s : connection_base) (c : PGconn) (Query : string) :
  m_conn s = Some c ->
  exec W Query s
  = (R <- make_result (reply_result (pg_reply c Query)) Query ;;
     check_result W R ;;
     get_notifs W ;;
     ret R)
      (emit [SentQuery Query]
         (set_m_conn (Some (set_pg_status (reply_status (pg_reply c Query)) c)) s)).
Proof.
  intros Hc. unfold exec. rewrite (bind_eq get _ s s s eq_refl). rewrite Hc.
  assert (Hcall : call_PQexec Query s
                  = (Returns (reply_result (pg_reply c Query)),
                     emit [SentQuery Query]
                       (set_m_conn
                          (Some (set_pg_status (reply_status (pg_reply c Query)) c))
                          s))).
  { unfold call_PQexec, PQexec. rewrite Hc. reflexivity. }
  now rewrite (bind_eq _ _ _ _ _ Hcall).
Qed.

(** X9.  No result leaves [exec] without passing validation.  When [exec]
    returns, the session had a handle and was activated, the connection
    was still up after the command, the driver handed out a result object
    whose status is not an error, and that object, with the query text
    and the encoding of the handle, is what is returned.  The command
    went to the server exactly once, and nothing else did. *)
Theorem exec_returns_validated_results :
  forall (s : connection_base) (Query : string) (R : result)
         (s' : connection_base),
    exec W Query s = (Returns R, s') ->
    exists c r,
      m_conn s = Some c
      /\ m_completed s = true
      /\ reply_status (pg_reply c Query) = CONNECTION_OK
      /\ reply_result (pg_reply c Query) = Some r
      /\ good_result r = true
      /\ pg_clientEncoding c <> (-1)%Z
      /\ R = mkResult (Some r) Query (pg_clientEncoding c)
      /\ queries_sent (wire s') = queries_sent (wire s) ++ [Query].
Proof.
  intros s Query R s' Hexec.
  destruct (m_conn s) as [c|] eqn:Hc.
  2:{ unfold exec in Hexec. rewrite (bind_eq get _ s s s eq_refl) in Hexec.
      rewrite Hc in Hexec. discriminate. }
  pose proof (exec_queries s c Query Hc) as Hq. rewrite Hexec in Hq. cbn [snd] in Hq.
  rewrite (exec_on_handle s c Query Hc) in Hexec.
  set (s1 := emit [SentQuery Query]
               (set_m_conn (Some (set_pg_status (reply_status (pg_reply c Query)) c)) s))
    in *.
  apply bind_returns in Hexec. destruct Hexec as (R0 & s2 & Hmake & Hexec).
  apply bind_returns in Hexec. destruct Hexec as ([] & s3 & Hcheck & Hexec).
  apply bind_returns in Hexec. destruct Hexec as (n & s4 & _ & Hexec).
  unfold ret in Hexec. injection Hexec as -> _.
  (* the result as make_result built it *)
  unfold make_result in Hmake.
  apply bind_returns in Hmake. destruct Hmake as (enc & s2' & Henc & Hmake).
  unfold ret in Hmake. injection Hmake as <- <-.
  unfold encoding_id in Henc. rewrite (bind_eq get _ s1 s1 s1 eq_refl) in Henc.
  cbn [s1 m_conn emit set_m_conn] in Henc.
  unfold PQclientEncoding in Henc. cbn [pg_clientEncoding set_pg_status] in Henc.
  destruct (Z.eqb_spec (pg_clientEncoding c) (-1)) as [Hbad|Hgood].
  { destruct (negb _) in Henc; discriminate. }
  unfold ret in Henc. injection Henc as <- <-.
  (* what check_result asked for *)
  unfold check_result in Hcheck.
  rewrite (bind_eq get _ _ _ _ eq_refl) in Hcheck.
  destruct (is_open s1) eqn:Hopen; cbn [negb] in Hcheck; [|discriminate].
  unfold result_connection in Hcheck. cbn [r_data] in Hcheck.
  destruct (reply_result (pg_reply c Query)) as [r|] eqn:Hr;
    cbn [negb] in Hcheck; [|discriminate].
  unfold check_status in Hcheck. cbn [r_data] in Hcheck.
  assert (Hg : good_result r = true).
  { unfold good_result. destruct (PQresultStatus r); try reflexivity; discriminate. }
  apply is_open_conn in Hopen. destruct Hopen as (c1 & Hc1 & Hm1 & Hst1).
  cbn [s1 m_conn emit set_m_conn] in Hc1. injection Hc1 as <-.
  cbn [pg_status set_pg_status] in Hst1.
  exists c, r. repeat split; try assumption.
Qed.


(** X10.  How [exec] fails.  Without a handle it raises
    broken_connection and sends nothing.  With a handle it sends the
    command before it looks at the session: on a session that was never
    activated, or whose connection is down once the command is through,
    the command is on the wire and broken_connection is raised.  On an
    open session a missing result object is a failure with the text of
    the driver and a result in error is an SQL error with the text of the
    result; in neither case are notifications collected. *)
Theorem exec_failures :
  forall (s : connection_base) (Query : string),
    (m_conn s = None ->
     exec W Query s
     = (Throws (Exception broken_connection
                  "Could not execute query: connection is inactive."), s))
    /\ forall c, m_conn s = Some c ->
         let c1 := set_pg_status (reply_status (pg_reply c Query)) c in
         let s1 := emit [SentQuery Query] (set_m_conn (Some c1) s) in
         ((m_completed s = false
           \/ reply_status (pg_reply c Query) <> CONNECTION_OK) ->
          exists msg,
            exec W Query s = (Throws (Exception broken_connection msg), s1))
         /\ (m_completed s = true ->
             reply_status (pg_reply c Query) = CONNECTION_OK ->
             pg_clientEncoding c <> (-1)%Z ->
             (reply_result (pg_reply c Query) = None ->
              exec W Query s
              = (Throws (Exception failure (PQerrorMessage c)), s1))
             /\ (forall r, reply_result (pg_reply c Query) = Some r ->
                           good_result r = false ->
                           exec W Query s
                           = (Throws (Exception sql_error (PQresultErrorMessage r)),
                              s1))).
Proof.
  intros s Query. split.
  - intros Hc. unfold exec. rewrite (bind_eq get _ s s s eq_refl).
    now rewrite Hc.
  - intros c Hc c1 s1. rewrite (exec_on_handle s c Query Hc). fold c1. fold s1.
    assert (Hopen : is_open s1
                    = m_completed s
                      && ConnStatusType_is_ok (reply_status (pg_reply c Query)))
      by reflexivity.
    split.
    + intros Hclosed.
      assert (Ho : is_open s1 = false).
      { rewrite Hopen. destruct Hclosed as [->|Hst]; [reflexivity|].
        destruct (reply_status (pg_reply c Query)); try contradiction;
          apply andb_false_r. }
      unfold make_result, encoding_id.
      unfold bind at 1. unfold bind at 1. rewrite (bind_eq get _ s1 s1 s1 eq_refl).
      change (m_conn s1) with (Some c1). unfold PQclientEncoding.
      change (pg_clientEncoding c1) with (pg_clientEncoding c).
      destruct (pg_clientEncoding c =? -1)%Z.
      * rewrite Ho. cbn [negb]. eexists. reflexivity.
      * unfold ret at 1. unfold ret at 1. unfold check_result. unfold bind at 1.
        rewrite (bind_eq get _ s1 s1 s1 eq_refl). rewrite Ho. cbn [negb].
        eexists. reflexivity.
    + intros Hm Hst Henc.
      assert (Ho : is_open s1 = true) by (rewrite Hopen, Hm, Hst; reflexivity).
      split.
      * intros Hnull. rewrite Hnull.
        rewrite (bind_eq _ _ _ _ _ (make_result_known None Query s1 c1 eq_refl Henc)).
        unfold bind at 1. unfold check_result.
        rewrite (bind_eq get _ s1 s1 s1 eq_refl). rewrite Ho.
        reflexivity.
      * intros r Hr Hbad. rewrite Hr.
        rewrite (bind_eq _ _ _ _ _
                   (make_result_known (Some r) Query s1 c1 eq_refl Henc)).
        unfold bind at 1.
        now rewrite (check_result_bad W
                       (mkResult (Some r) Query (pg_clientEncoding c1)) r s1 Ho
                       eq_refl Hbad).
Qed.


(** X11.  [set_variable] hands the setting to the transaction when one is
    registered.  Otherwise it sets a session variable, but only on an open
    session: on a session that is not open the setting is dropped without
    an error.  On an open session the command is SET, the name, an equals
    sign and the value put together as they are, cut at the first NUL
    byte, and it is the one thing sent. *)
Theorem set_variable_targets :
  forall (s : connection_base) (Var Value : string),
    (forall t, m_trans s = Some t ->
       set_variable W E Var Value s = transaction_set_variable E t Var Value s)
    /\ (m_trans s = None -> is_open s = false ->
        set_variable W E Var Value s = (Returns tt, s))
    /\ (m_trans s = None -> is_open s = true ->
        let cmd := c_str ("SET " ++ Var ++ "=" ++ Value)%string in
        queries_sent (wire (snd (set_variable W E Var Value s)))
        = queries_sent (wire s) ++ [cmd]
        /\ (fst (set_variable W E Var Value s) = Returns tt
            <-> exists R, fst (exec W cmd s) = Returns R)).
Proof.
  intros s Var Value. unfold set_variable.
  rewrite (bind_eq get _ s s s eq_refl). split; [|split].
  - intros t Ht. now rewrite Ht.
  - intros Ht Ho. now rewrite Ht, Ho.
  - intros Ht Ho. cbv zeta. rewrite Ht, Ho. unfold raw_set_var.
    destruct (is_open_conn s Ho) as (c & Hc & _).
    split.
    + rewrite bind_ret_snd. now apply (exec_queries s c).
    + apply bind_ret_fst.
Qed.

End Commands.

Lemma exec_returns_validated_results_witness :
  exists c r,
    m_conn Sample.open_session = Some c
    /\ reply_result (pg_reply c "SELECT 1") = Some r
    /\ good_result r = true.
Proof.
  destruct (exec_returns_validated_results Sample.objects Sample.open_session "SELECT 1"
              (mkResult (Some Sample.command_ok) "SELECT 1" 6)
              (emit [SentQuery "SELECT 1"] Sample.open_session) eq_refl)
    as (c & r & H1 & _ & _ & H4 & H5 & _).
  exists c, r. repeat split; assumption.
Defined.

Lemma exec_failures_witness :
  exists msg,
    exec Sample.objects "SELECT 1" Sample.unactivated_session
    = (Throws (Exception broken_connection msg),
       emit [SentQuery "SELECT 1"] Sample.unactivated_session).
Proof.
  destruct (exec_failures Sample.objects Sample.unactivated_session "SELECT 1") as (_ & H).
  destruct (H Sample.server eq_refl) as (Hclosed & _).
  destruct (Hclosed (or_introl eq_refl)) as (msg & Hmsg).
  exists msg. exact Hmsg.
Defined.

Lemma set_variable_targets_witness :
  set_variable Sample.objects Scenario.libpq "search_path" "public"
    Sample.unactivated_session
  = (Returns tt, Sample.unactivated_session).
Proof.
  destruct (set_variable_targets Sample.objects Scenario.libpq
              Sample.unactivated_session "search_path" "public") as (_ & H & _).
  apply H; reflexivity.
Defined.

Section Unprepare.

Variable W : collaborators.

(** X12.  [unprepare] quotes the statement name before anything is sent.
    Without a handle, or when the driver cannot quote the name, it raises
    and the server sees nothing.  Once the name is quoted, the one
    command that goes out is DEALLOCATE followed by the quoted name. *)
Theorem unprepare_quotes_first :
  forall (s : connection_base) (name : string),
    (m_conn s = None ->
     unprepare W name s
     = (Throws (Exception broken_connection
                  "Can't escape identifier: connection is not active."), s))
    /\ forall c, m_conn s = Some c ->
         (pg_escapeIdentifier c name = None ->
          unprepare W name s = (Throws (Exception failure (PQerrorMessage c)), s))
         /\ (forall buf, pg_escapeIdentifier c name = Some buf ->
               queries_sent (wire (snd (unprepare W name s)))
               = queries_sent (wire s)
                 ++ [c_str ("DEALLOCATE " ++ c_str buf)%string]).
Proof.
  intros s name. unfold unprepare. split.
  - intros Hc. unfold bind at 1. unfold quote_name.
    rewrite (bind_eq get _ s s s eq_refl). now rewrite Hc.
  - intros c Hc. split.
    + intros Hnone. unfold bind at 1. unfold quote_name.
      rewrite (bind_eq get _ s s s eq_refl). rewrite Hc.
      unfold PQescapeIdentifier. rewrite Hnone. unfold err_msg. now rewrite Hc.
    + intros buf Hbuf.
      assert (Hq : quote_name name s = (Returns (c_str buf), s)).
      { unfold quote_name. rewrite (bind_eq get _ s s s eq_refl). rewrite Hc.
        unfold PQescapeIdentifier. now rewrite Hbuf. }
      rewrite (bind_eq _ _ _ _ _ Hq). rewrite bind_ret_snd.
      now apply (exec_queries W s c).
Qed.

End Unprepare.

Lemma unprepare_quotes_first_witness :
  queries_sent (wire (snd (unprepare Sample.objects "plan" Sample.open_session)))
  = [("DEALLOCATE " ++ Sample.dquote ++ "plan" ++ Sample.dquote)%string].
Proof.
  destruct (unprepare_quotes_first Sample.objects Sample.open_session "plan")
    as (_ & H).
  destruct (H Sample.server eq_refl) as (_ & Hsent).
  exact (Hsent _ eq_refl).
Defined.

(** *** The end of a COPY to the server *)

Section CopyEnd.

Variable W : collaborators.
Variable E : environment.

Lemma end_copy_write_refused (s : connection_base) (e : exception) :
  (Res <- call_PQputCopyEnd E ;;
   match Res with
   | (-1)%Z =>
       s0 <- get ;;
       throw failure ("Write to table failed: " ++ err_msg s0)
   | 0%Z => throw internal_error "table write is inexplicably asynchronous"
   | 1%Z => ret tt
   | _ =>
       throw internal_error
         ("unexpected result " ++ to_string E Res ++ " from PQputCopyEnd()")
   end) s = (Throws e, s) ->
  end_copy_write W E s = (Throws e, s).
Proof.
  intros H. unfold end_copy_write.
  unfold bind at 1. unfold bind at 1.
  unfold bind at 1 in H.
  destruct (call_PQputCopyEnd E s) as [[Res|e0] s0]; [|exact H].
  now rewrite H.
Qed.

(** X13.  [end_copy_write] goes by the value PQputCopyEnd returns.  It
    fetches a result only on 1.  On -1, which is also what a session
    without a handle gives, it raises a failure with the text of the
    driver; on 0 and on every other value an internal error, the other
    value being named in the text; in all these cases the connection is
    left as it was.  On 1 exactly one pending result is taken and
    validated: none pending is a failure, a result in error an SQL error,
    and on a session that is not open the outcome is broken_connection:
    unlike the line functions of COPY, the call does not look at the
    session first. *)
Theorem end_copy_write_by_return_value :
  forall s : connection_base,
    (m_conn s = None ->
     end_copy_write W E s
     = (Throws (Exception failure
                  "Write to table failed: No connection to database"), s))
    /\ forall c, m_conn s = Some c ->
         let Res := env_putCopyEnd E in
         (Res = (-1)%Z ->
          end_copy_write W E s
          = (Throws (Exception failure
                       ("Write to table failed: " ++ PQerrorMessage c)%string), s))
         /\ (Res = 0%Z ->
             end_copy_write W E s
             = (Throws (Exception internal_error
                          "table write is inexplicably asynchronous"), s))
         /\ (Res <> (-1)%Z -> Res <> 0%Z -> Res <> 1%Z ->
             end_copy_write W E s
             = (Throws (Exception internal_error
                          ("unexpected result " ++ to_string E Res
                           ++ " from PQputCopyEnd()")%string), s))
         /\ (Res = 1%Z -> is_open s = true -> pg_clientEncoding c <> (-1)%Z ->
             match pg_results c with
             | [] =>
                 end_copy_write W E s
                 = (Throws (Exception failure (PQerrorMessage c)), s)
             | r :: rest =>
                 end_copy_write W E s
                 = (if good_result r then Returns tt
                    else Throws (Exception sql_error (PQresultErrorMessage r)),
                    set_m_conn (Some (set_pg_results rest c)) s)
             end)
         /\ (Res = 1%Z -> is_open s = false ->
             exists msg,
               fst (end_copy_write W E s)
               = Throws (Exception broken_connection msg)).
Proof.
  intros s. split.
  - intros Hc. apply end_copy_write_refused.
    unfold bind at 1. unfold call_PQputCopyEnd. rewrite Hc.
    rewrite (bind_eq get _ s s s eq_refl). unfold err_msg. now rewrite Hc.
  - intros c Hc Res.
    assert (Hcall : call_PQputCopyEnd E s = (Returns Res, s)).
    { unfold call_PQputCopyEnd. now rewrite Hc. }
    split; [|split; [|split; [|split]]].
    + intros HR. apply end_copy_write_refused.
      rewrite (bind_eq _ _ _ _ _ Hcall). rewrite HR.
      rewrite (bind_eq get _ s s s eq_refl). unfold err_msg. now rewrite Hc.
    + intros HR. apply end_copy_write_refused.
      rewrite (bind_eq _ _ _ _ _ Hcall). now rewrite HR.
    + intros H1 H2 H3. apply end_copy_write_refused.
      rewrite (bind_eq _ _ _ _ _ Hcall).
      destruct Res as [|[p|p|]|[p|p|]]; try reflexivity; contradiction.
    + intros HR Ho Henc. unfold end_copy_write.
      rewrite (bind_eq _ _ _ _ _ Hcall). rewrite HR.
      rewrite (bind_eq (ret tt) _ s tt s eq_refl).
      pose proof (call_PQgetResult_next s c Hc) as Hnext.
      destruct (pg_results c) as [|r rest].
      * rewrite (bind_eq _ _ _ _ _ Hnext).
        rewrite (bind_eq _ _ _ _ _ (make_result_known None "[END COPY]" s c Hc Henc)).
        unfold check_result. rewrite (bind_eq get _ s s s eq_refl).
        rewrite Ho. cbn [negb result_connection r_data].
        unfold err_msg. now rewrite Hc.
      * rewrite (bind_eq _ _ _ _ _ Hnext).
        set (c1 := set_pg_results rest c). set (s1 := set_m_conn (Some c1) s).
        rewrite (bind_eq _ _ _ _ _
                   (make_result_known (Some r) "[END COPY]" s1 c1 eq_refl Henc)).
        assert (Ho1 : is_open s1 = true).
        { apply is_open_conn in Ho. destruct Ho as (c0 & Hc0 & Hm & Hst).
          rewrite Hc in Hc0. injection Hc0 as <-.
          unfold is_open, status, PQstatus, s1, c1. simpl. now rewrite Hm, Hst. }
        destruct (good_result r) eqn:Hg.
        -- apply (check_result_good W
                    (mkResult (Some r) "[END COPY]" (pg_clientEncoding c1)) r s1
                    Ho1 eq_refl Hg).
        -- apply (check_result_bad W
                    (mkResult (Some r) "[END COPY]" (pg_clientEncoding c1)) r s1
                    Ho1 eq_refl Hg).
    + intros HR Ho. unfold end_copy_write.
      rewrite (bind_eq _ _ _ _ _ Hcall). rewrite HR.
      rewrite (bind_eq (ret tt) _ s tt s eq_refl).
      pose proof (framed_call_PQgetResult s) as Hframe.
      assert (Hret : exists r s1, call_PQgetResult s = (Returns r, s1)).
      { unfold call_PQgetResult.
        destruct (m_conn s) as [c0|]; [destruct (PQgetResult c0)|]; eauto. }
      destruct Hret as (r & s1 & Hr). rewrite Hr in Hframe. cbn [snd] in Hframe.
      rewrite (bind_eq _ _ _ _ _ Hr).
      assert (Ho1 : is_open s1 = false)
        by (rewrite (same_session_is_open s s1 Hframe); exact Ho).
      unfold make_result, encoding_id.
      unfold bind at 1. unfold bind at 1. rewrite (bind_eq get _ s1 s1 s1 eq_refl).
      destruct (_ =? -1)%Z.
      * rewrite Ho1. cbn [negb]. eexists. reflexivity.
      * unfold ret at 1. unfold ret at 1. unfold check_result.
        rewrite (bind_eq get _ s1 s1 s1 eq_refl). rewrite Ho1. cbn [negb].
        eexists. reflexivity.
Qed.

End CopyEnd.

Lemma end_copy_write_by_return_value_witness :
  end_copy_write Sample.objects Scenario.libpq
    (Sample.session (Some (Scenario.with_results [Sample.command_ok])) true)
  = (Returns tt, Sample.open_session).
Proof.
  destruct (end_copy_write_by_return_value Sample.objects Scenario.libpq
              (Sample.session (Some (Scenario.with_results [Sample.command_ok]))
                 true)) as (_ & H).
  destruct (H (Scenario.with_results [Sample.command_ok]) eq_refl)
    as (_ & _ & _ & H1 & _).
  apply H1; [reflexivity|reflexivity|discriminate].
Defined.

(** *** Cancelling a query *)

Section Cancel.

Variable E : environment.

(** X14.  [cancel_query] never changes the connection.  On a session
    without a handle it does nothing and returns, where most members
    raise broken_connection.  With a handle it raises bad_alloc when the
    driver gives no cancel object, and an SQL error carrying the text the
    driver left in the buffer when the driver reports that the request
    could not be sent (value 0); every other value is success. *)
Theorem cancel_query_outcomes :
  forall s : connection_base,
    snd (cancel_query E s) = s
    /\ (m_conn s = None -> cancel_query E s = (Returns tt, s))
    /\ (m_conn s <> None ->
        (env_getCancel E = false ->
         exists msg, fst (cancel_query E s) = Throws (Exception bad_alloc msg))
        /\ (env_getCancel E = true -> fst (env_cancel E) = 0%Z ->
            fst (cancel_query E s)
            = Throws (Exception sql_error (c_str (snd (env_cancel E)))))
        /\ (env_getCancel E = true -> fst (env_cancel E) <> 0%Z ->
            fst (cancel_query E s) = Returns tt)).
Proof.
  intros s. unfold cancel_query. rewrite (bind_eq get _ s s s eq_refl).
  destruct (m_conn s) as [c|].
  - destruct (env_getCancel E); cbn [negb];
      destruct (env_cancel E) as [r buf]; cbn [fst snd];
      destruct (Z.eqb_spec r 0) as [Hr|Hr].
    all: split; [reflexivity|]; split; [discriminate|]; intros _.
    all: split; [intros Hg; try discriminate; eexists; reflexivity|].
    all: split; intros Hg Hv; try discriminate; try contradiction; reflexivity.
  - split; [reflexivity|]. split; [reflexivity|]. intros H. now contradiction H.
Qed.

End Cancel.

Lemma cancel_query_outcomes_witness :
  cancel_query Scenario.libpq (Sample.session None false)
  = (Returns tt, Sample.session None false).
Proof.
  destruct (cancel_query_outcomes Scenario.libpq (Sample.session None false))
    as (_ & H & _).
  apply H. reflexivity.
Defined.

(** *** Waiting for notifications *)

Section Await.

Variable W : collaborators.
Variable E : environment.

Lemma get_notifs_in_transaction (s : connection_base) (c : PGconn)
  (T : transaction_base) :
  is_open s = true -> m_conn s = Some c -> pg_consumeInput c <> 0%Z ->
  m_trans s = Some T ->
  get_notifs W s
  = (Returns 0%Z,
     set_m_conn (Some (set_pg_queues [] (pg_notifies c ++ pg_socket c) c)) s).
Proof.
  intros Ho Hc Hcons Ht. unfold get_notifs. rewrite Ho. cbn [negb].
  unfold consume_input, PQconsumeInput. rewrite Hc.
  destruct (Z.eqb_spec (pg_consumeInput c) 0) as [Hz|Hz]; [contradiction|].
  apply Z.eqb_neq in Hz. rewrite Hz. cbn [negb].
  cbn [m_trans set_m_conn]. now rewrite Ht.
Qed.

Lemma get_notifs_nothing_in_transaction (s : connection_base)
  (T : transaction_base) (n : Z) :
  m_trans s = Some T -> fst (get_notifs W s) = Returns n -> n = 0%Z.
Proof.
  intros Ht H. unfold get_notifs in H.
  destruct (negb (is_open s)); [now injection H as <-|].
  assert (Hs1 : m_trans (snd (consume_input s)) = Some T).
  { unfold consume_input. destruct (m_conn s) as [c|]; [|exact Ht].
    destruct (PQconsumeInput c). exact Ht. }
  destruct (consume_input s) as [ok s1]. cbn [snd] in Hs1.
  destruct (negb ok); [discriminate|].
  rewrite Hs1 in H. now injection H as <-.
Qed.

Lemma wait_read_polls (s : connection_base) (c : PGconn) :
  m_conn s = Some c ->
  wait_read W E s
  = if (env_socket E <? 0)%Z then
      (Throws (Exception broken_connection (broken_connection_what W)), s)
    else (Returns tt, set_m_conn (Some (env_poll E c)) s).
Proof.
  intros Hc. unfold wait_read. rewrite (bind_eq get _ s s s eq_refl).
  unfold wait_fd, socket_of. rewrite Hc.
  destruct (env_socket E <? 0)%Z; [reflexivity|].
  unfold modify. now rewrite Hc.
Qed.

(** X15.  [await_notification] waits at most once, and only when the
    first look finds nothing.  On an open session with no transaction it
    returns the count of the notifications that were already there
    without waiting; when there are none it waits on the socket once, or
    raises broken_connection when the handle has no socket, and returns
    what is delivered after the wait.  While a transaction is registered
    it waits although notifications may be queued, and never reports
    any.  Without a handle it raises broken_connection. *)
Theorem await_notification_waits_at_most_once :
  forall s : connection_base,
    (m_conn s = None ->
     await_notification W E s
     = (Throws (Exception broken_connection
                  "Can't wait for notifications: connection is not active."), s))
    /\ forall c, m_conn s = Some c -> is_open s = true ->
         pg_consumeInput c <> 0%Z ->
         let pending := pg_notifies c ++ pg_socket c in
         (m_trans s = None -> pending <> [] ->
          await_notification W E s = get_notifs W s
          /\ fst (await_notification W E s)
             = Returns (Z.of_nat (List.length pending)))
         /\ (m_trans s = None -> pending = [] ->
             await_notification W E s
             = if (env_socket E <? 0)%Z then
                 (Throws (Exception broken_connection (broken_connection_what W)),
                  set_m_conn (Some (set_pg_queues [] [] c)) s)
               else
                 get_notifs W
                   (set_m_conn (Some (env_poll E (set_pg_queues [] [] c))) s))
         /\ (forall T, m_trans s = Some T ->
               (forall n, fst (await_notification W E s) = Returns n -> n = 0%Z)
               /\ ((0 <= env_socket E)%Z ->
                   await_notification W E s
                   = get_notifs W
                       (set_m_conn
                          (Some (env_poll E (set_pg_queues [] pending c))) s))).
Proof.
  intros s. unfold await_notification. rewrite (bind_eq get _ s s s eq_refl).
  split.
  - intros Hc. now rewrite Hc.
  - intros c Hc Ho Hcons. cbv zeta.
    set (pending := pg_notifies c ++ pg_socket c). rewrite Hc. split; [|split].
    + intros Ht Hne.
      destruct (get_notifs_drains W s c Ho Ht Hc Hcons) as (evs & Hg & _).
      cbv zeta in Hg. fold pending in Hg.
      rewrite (bind_eq _ _ _ _ _ Hg).
      assert (Hn : (Z.of_nat (List.length pending) =? 0)%Z = false).
      { apply Z.eqb_neq. destruct pending; [contradiction|simpl; lia]. }
      rewrite Hn. rewrite Hg. split; reflexivity.
    + intros Ht Hnil.
      destruct (get_notifs_drains W s c Ho Ht Hc Hcons) as (evs & Hg & _ & Hevs).
      cbv zeta in Hg, Hevs. fold pending in Hg, Hevs. rewrite Hnil in Hg, Hevs.
      rewrite Hevs in Hg by (intros N []). rewrite emit_nil in Hg.
      rewrite (bind_eq _ _ _ _ _ Hg). cbn [List.length Z.of_nat Z.eqb].
      set (s0 := set_m_conn (Some (set_pg_queues [] [] c)) s).
      unfold bind at 1.
      rewrite (wait_read_polls s0 (set_pg_queues [] [] c) eq_refl).
      destruct (env_socket E <? 0)%Z; reflexivity.
    + intros T Ht.
      pose proof (get_notifs_in_transaction s c T Ho Hc Hcons Ht) as Hg.
      fold pending in Hg.
      rewrite (bind_eq _ _ _ _ _ Hg). cbn [Z.eqb].
      set (s0 := set_m_conn (Some (set_pg_queues [] pending c)) s).
      split.
      * intros n Hn. unfold bind at 1 in Hn.
        rewrite (wait_read_polls s0 (set_pg_queues [] pending c) eq_refl) in Hn.
        destruct (env_socket E <? 0)%Z; [discriminate|].
        now apply (get_notifs_nothing_in_transaction _ T n) in Hn.
      * intros Hsock. unfold bind at 1.
        rewrite (wait_read_polls s0 (set_pg_queues [] pending c) eq_refl).
        destruct (Z.ltb_spec (env_socket E) 0); [lia|]. reflexivity.
Qed.

End Await.

Lemma await_notification_waits_at_most_once_witness :
  fst (await_notification Sample.objects Scenario.libpq Sample.nobody_listening)
  = Returns 2%Z.
Proof.
  destruct (await_notification_waits_at_most_once Sample.objects Scenario.libpq
              Sample.nobody_listening) as (_ & H).
  destruct (H (Sample.handle 1 [Sample.alert "p1"; Sample.alert "p2"] [])
              eq_refl eq_refl) as (H1 & _).
  - discriminate.
  - destruct (H1 eq_refl) as (_ & Hn); [discriminate|exact Hn].
Defined.

(** *** The registry of receivers *)

Section RegistryEffects.

Variable W : collaborators.

Lemma registry_framed {A} (m : M A) :
  framed m -> forall s, m_receivers (snd (m s)) = m_receivers s.
Proof. intros H s. now destruct (H s) as (_ & _ & _ & Hr & _). Qed.

Lemma registry_bind {A B} (m : M A) (k : A -> M B) :
  (forall s, m_receivers (snd (m s)) = m_receivers s) ->
  (forall a s, m_receivers (snd (k a s)) = m_receivers s) ->
  forall s, m_receivers (snd (bind m k s)) = m_receivers s.
Proof.
  intros Hm Hk s. unfold bind. specialize (Hm s).
  destruct (m s) as [[a|e] s1]; cbn [snd] in *; [|assumption].
  now rewrite Hk.
Qed.

Lemma registry_try_catch {A} (m : M A) (catches : exception -> bool)
  (handler : exception -> M A) :
  (forall s, m_receivers (snd (m s)) = m_receivers s) ->
  (forall e s, m_receivers (snd (handler e s)) = m_receivers s) ->
  forall s, m_receivers (snd (try_catch m catches handler s)) = m_receivers s.
Proof.
  intros Hm Hh s. unfold try_catch. specialize (Hm s).
  destruct (m s) as [[a|e] s1]; cbn [snd] in *; [assumption|].
  destruct (catches e); cbn [snd]; [|assumption].
  now rewrite Hh.
Qed.

Lemma registry_call_PQexec (query : string) (s : connection_base) :
  m_receivers (snd (call_PQexec query s)) = m_receivers s.
Proof.
  unfold call_PQexec. destruct (m_conn s) as [c|]; [|reflexivity].
  destruct (PQexec c query). reflexivity.
Qed.

Lemma registry_exec (cmd : string) (s : connection_base) :
  m_receivers (snd (exec W cmd s)) = m_receivers s.
Proof.
  destruct (m_conn s) as [c|] eqn:Hc.
  - destruct (exec_effect W s c cmd Hc) as (_ & _ & _ & Hr & _).
    rewrite Hr. reflexivity.
  - unfold exec. rewrite (bind_eq get _ s s s eq_refl). now rewrite Hc.
Qed.

Lemma registry_handlers (f : connection_base -> connection_base) :
  only_calls_handlers f -> forall s, m_receivers (f s) = m_receivers s.
Proof. intros H s. destruct (H s) as (evs & -> & _). reflexivity. Qed.

Lemma registry_listen (LQ : string) (s : connection_base) :
  m_receivers
    (snd ((if is_open s then
             try_catch
               (r <- call_PQexec (c_str LQ) ;;
                R <- make_result r LQ ;;
                check_result W R)
               catch_broken_connection
               (fun _ => ret tt)
           else ret tt) s))
  = m_receivers s.
Proof.
  destruct (is_open s); [|reflexivity].
  apply registry_try_catch; [|reflexivity].
  apply registry_bind; [apply registry_call_PQexec|]. intros r.
  apply registry_bind; [apply registry_framed, framed_make_result|]. intros R.
  apply registry_framed, framed_check_result.
Qed.

Lemma add_receiver_outcome (t : notification_receiver) (s : connection_base)
  (o : outcome unit) (s' : connection_base) :
  add_receiver W (Some t) s = (o, s') ->
  m_receivers s'
  = match o with
    | Returns _ =>
        if mm_contains (receiver_channel W t) (m_receivers s) then
          mm_insert_hint (receiver_channel W t, t) (m_receivers s)
        else mm_insert (receiver_channel W t, t) (m_receivers s)
    | Throws _ => m_receivers s
    end.
Proof.
  intros H. unfold add_receiver in H. rewrite (bind_eq get _ s s s eq_refl) in H.
  destruct (mm_contains (receiver_channel W t) (m_receivers s)); cbn [negb] in H.
  - unfold modify in H. now injection H as <- <-.
  - unfold bind at 1 in H.
    pose proof (registry_framed _ (framed_quote_name (receiver_channel W t)) s)
      as Hq.
    destruct (quote_name (receiver_channel W t) s) as [[q|e] s1];
      cbn [snd] in Hq.
    2:{ injection H as <- <-. assumption. }
    rewrite (bind_eq get _ s1 s1 s1 eq_refl) in H.
    pose proof (registry_listen ("LISTEN " ++ q)%string s1) as Hmid.
    unfold bind at 1 in H.
    match type of Hmid with
    | m_receivers (snd ?X) = _ => destruct X as [[[]|e] s2]
    end; cbn [snd] in Hmid.
    + unfold modify in H. injection H as <- <-.
      cbn [m_receivers set_m_receivers]. now rewrite Hmid, Hq.
    + injection H as <- <-. now rewrite Hmid, Hq.
Qed.

Lemma add_receiver_registry (t : notification_receiver) (s : connection_base) :
  m_receivers (snd (add_receiver W (Some t) s))
  = match fst (add_receiver W (Some t) s) with
    | Returns _ =>
        if mm_contains (receiver_channel W t) (m_receivers s) then
          mm_insert_hint (receiver_channel W t, t) (m_receivers s)
        else mm_insert (receiver_channel W t, t) (m_receivers s)
    | Throws _ => m_receivers s
    end.
Proof.
  apply add_receiver_outcome. now destruct (add_receiver W (Some t) s).
Qed.

Lemma mm_erase_insert_hint (v : string * notification_receiver)
  (l : receiver_list) :
  mm_erase v (mm_insert_hint v l) = l.
Proof.
  assert (Hv : entry_eqb v v = true) by now apply entry_eqb_eq.
  induction l as [|e r IH]; simpl.
  - now rewrite Hv.
  - destruct (has_key (fst v) e) eqn:Hk; simpl.
    + now rewrite Hv.
    + destruct (entry_eqb e v) eqn:He.
      * apply entry_eqb_eq in He. subst e. unfold has_key in Hk.
        now rewrite String.eqb_refl in Hk.
      * now rewrite IH.
Qed.

Lemma mm_erase_insert (v : string * notification_receiver) (l : receiver_list) :
  mm_contains (fst v) l = false -> mm_erase v (mm_insert v l) = l.
Proof.
  assert (Hv : entry_eqb v v = true) by now apply entry_eqb_eq.
  induction l as [|e r IH]; intros Hc; simpl.
  - now rewrite Hv.
  - unfold mm_contains in Hc. simpl in Hc. apply orb_false_iff in Hc.
    destruct Hc as (Hk & Hr).
    destruct (String.leb (fst e) (fst v)); simpl.
    + destruct (entry_eqb e v) eqn:He.
      * apply entry_eqb_eq in He. subst e. unfold has_key in Hk.
        now rewrite String.eqb_refl in Hk.
      * now rewrite (IH Hr).
    + now rewrite Hv.
Qed.

Lemma mm_erase_absent (v : string * notification_receiver) (l : receiver_list) :
  existsb (fun e => entry_eqb e v) l = false -> mm_erase v l = l.
Proof.
  induction l as [|e r IH]; intros H; simpl in *; [reflexivity|].
  apply orb_false_iff in H. destruct H as (He & Hr).
  now rewrite He, (IH Hr).
Qed.

Lemma remove_receiver_registry (t : notification_receiver) (s : connection_base) :
  fst (remove_receiver W (Some t) s) = Returns tt
  /\ m_receivers (snd (remove_receiver W (Some t) s))
     = mm_erase (receiver_channel W t, t) (m_receivers s).
Proof.
  unfold remove_receiver.
  set (needle := (receiver_channel W t, t)).
  set (body := (s0 <- get ;; _)).
  assert (Hbody : m_receivers (snd (body s)) = mm_erase needle (m_receivers s)).
  { unfold body. rewrite (bind_eq get _ s s s eq_refl).
    change (fst needle) with (receiver_channel W t).
    pose proof (found_in_equal_range needle (m_receivers s)) as Hfound.
    change (fst needle) with (receiver_channel W t) in Hfound.
    rewrite Hfound.
    destruct (existsb (fun e => entry_eqb e needle) (m_receivers s)) eqn:Hex;
      cbn [negb].
    - unfold bind at 1. unfold modify at 1.
      set (s1 := set_m_receivers (mm_erase needle (m_receivers s)) s).
      destruct (match m_conn s with
                | Some _ => _
                | None => false
                end).
      + transitivity (m_receivers s1); [|reflexivity].
        apply (registry_bind (quote_name (receiver_channel W t))).
        * apply registry_framed, framed_quote_name.
        * intros q. apply registry_bind; [apply registry_exec|reflexivity].
      + reflexivity.
    - unfold modify. cbn [snd].
      rewrite (registry_handlers _ (process_notice_string_only_calls W _)).
      symmetry. now apply mm_erase_absent. }
  unfold try_catch.
  destruct (body s) as [[[]|e] s1]; cbn [fst snd] in *.
  - split; [reflexivity|assumption].
  - cbn [catch_std_exception]. unfold modify. cbn [fst snd]. split; [reflexivity|].
    now rewrite (registry_handlers _ (process_notice_only_calls W _)).
Qed.

(** X16.  [remove_receiver] never raises, and whatever happens on the way
    (the receiver unknown, the handle gone, the UNLISTEN refused) the
    registry afterwards is the registry before without the first entry
    for this receiver on its channel: every other entry keeps its place.
    In particular the number of receivers of another channel does not
    change, and a receiver that was registered once is gone. *)
Theorem remove_receiver_erases_one_entry :
  forall (T : option notification_receiver) (s : connection_base),
    fst (remove_receiver W T s) = Returns tt
    /\ m_receivers (snd (remove_receiver W T s))
       = match T with
         | Some t => mm_erase (receiver_channel W t, t) (m_receivers s)
         | None => m_receivers s
         end
    /\ forall t, T = Some t ->
         (forall k, k <> receiver_channel W t ->
            mm_count k (m_receivers (snd (remove_receiver W T s)))
            = mm_count k (m_receivers s))
         /\ (existsb (fun e => entry_eqb e (receiver_channel W t, t))
               (m_receivers s) = true ->
             mm_count (receiver_channel W t)
               (m_receivers (snd (remove_receiver W T s)))
             = pred (mm_count (receiver_channel W t) (m_receivers s))).
Proof.
  intros [t|] s.
  - destruct (remove_receiver_registry t s) as (Hret & Hreg).
    split; [assumption|]. split; [assumption|].
    intros t' Ht'. injection Ht' as <-. rewrite Hreg. split.
    + intros k Hk. apply mm_count_erase_other. unfold has_key. cbn [fst].
      apply String.eqb_neq. congruence.
    + intros Hfound.
      apply (mm_count_erase_found (receiver_channel W t, t) (m_receivers s) Hfound).
  - split; [reflexivity|]. split; [reflexivity|]. intros t Ht. discriminate.
Qed.

(** X17.  [add_receiver] either registers the receiver or raises and
    leaves the registry as it was.  A null receiver is an argument error.
    On a channel that already has a receiver the call does not touch the
    server and cannot fail, even without a handle.  When the call
    returns, the receiver is in the registry and its channel has one
    receiver more, the other channels as many as before. *)
Theorem add_receiver_registers_or_raises :
  forall (T : option notification_receiver) (s : connection_base),
    (T = None ->
     add_receiver W T s
     = (Throws (Exception argument_error "Null receiver registered"), s))
    /\ (forall e s', add_receiver W T s = (Throws e, s') ->
                     m_receivers s' = m_receivers s)
    /\ forall t, T = Some t ->
         let channel := receiver_channel W t in
         (mm_contains channel (m_receivers s) = true ->
          add_receiver W T s
          = (Returns tt,
             set_m_receivers (mm_insert_hint (channel, t) (m_receivers s)) s))
         /\ (forall s', add_receiver W T s = (Returns tt, s') ->
               In (channel, t) (m_receivers s')
               /\ mm_count channel (m_receivers s')
                  = S (mm_count channel (m_receivers s))
               /\ forall k, k <> channel ->
                    mm_count k (m_receivers s') = mm_count k (m_receivers s)).
Proof.
  intros T s. split; [|split].
  - intros ->. reflexivity.
  - intros e s' H. destruct T as [t|].
    + pose proof (add_receiver_registry t s) as Hreg. rewrite H in Hreg.
      exact Hreg.
    + unfold add_receiver, throw in H. now injection H as _ <-.
  - intros t -> channel. split.
    + intros Hc. unfold add_receiver. rewrite (bind_eq get _ s s s eq_refl).
      fold channel. rewrite Hc. reflexivity.
    + intros s' H.
      pose proof (add_receiver_registry t s) as Hreg. rewrite H in Hreg.
      cbn [fst snd] in Hreg. fold channel in Hreg.
      assert (Hcount : forall k,
                mm_count k (m_receivers s')
                = (if has_key k (channel, t) then 1 else 0)
                  + mm_count k (m_receivers s)).
      { intros k. rewrite Hreg.
        destruct (mm_contains channel (m_receivers s));
          [apply mm_count_insert_hint|apply mm_count_insert]. }
      split; [|split].
      * assert (Hpos : 0 < mm_count channel (m_receivers s')).
        { rewrite Hcount. unfold has_key. cbn [fst].
          rewrite String.eqb_refl. lia. }
        rewrite Hreg. clear.
        destruct (mm_contains channel (m_receivers s)).
        -- induction (m_receivers s) as [|e r IH]; simpl; [now left|].
           destruct (has_key channel e); simpl; auto.
        -- induction (m_receivers s) as [|e r IH]; simpl; [now left|].
           destruct (String.leb (fst e) channel); simpl; auto.
      * rewrite Hcount. unfold has_key. cbn [fst]. now rewrite String.eqb_refl.
      * intros k Hk. rewrite Hcount. unfold has_key. cbn [fst].
        assert (Hne : String.eqb channel k = false)
          by (apply String.eqb_neq; congruence).
        now rewrite Hne.
Qed.

(** X18.  Adding a receiver and removing it again leaves the registry
    exactly as it was: the same entries in the same order, whether the
    channel had receivers before or not and whatever the server did with
    the LISTEN and the UNLISTEN. *)
Theorem add_remove_round_trip :
  forall (t : notification_receiver) (s s1 : connection_base),
    add_receiver W (Some t) s = (Returns tt, s1) ->
    fst (remove_receiver W (Some t) s1) = Returns tt
    /\ m_receivers (snd (remove_receiver W (Some t) s1)) = m_receivers s.
Proof.
  intros t s s1 Hadd.
  destruct (remove_receiver_registry t s1) as (Hret & Hreg).
  split; [assumption|]. rewrite Hreg.
  pose proof (add_receiver_registry t s) as Hins. rewrite Hadd in Hins.
  cbn [fst snd] in Hins. rewrite Hins.
  destruct (mm_contains (receiver_channel W t) (m_receivers s)) eqn:Hc.
  - apply mm_erase_insert_hint.
  - now apply mm_erase_insert.
Qed.

End RegistryEffects.

Lemma remove_receiver_erases_one_entry_witness :
  m_receivers (snd (remove_receiver Sample.objects (Some 3) Sample.busy)) = [].
Proof.
  destruct (remove_receiver_erases_one_entry Sample.objects (Some 3) Sample.busy)
    as (_ & H & _).
  exact H.
Defined.

Lemma add_receiver_registers_or_raises_witness :
  add_receiver Sample.objects (Some 4) Sample.busy
  = (Returns tt, set_m_receivers [("alerts", 4); ("alerts", 3)] Sample.busy).
Proof.
  destruct (add_receiver_registers_or_raises Sample.objects (Some 4) Sample.busy)
    as (_ & _ & H).
  destruct (H 4 eq_refl) as (Hsecond & _).
  apply Hsecond. reflexivity.
Defined.

Lemma add_remove_round_trip_witness :
  m_receivers
    (snd (remove_receiver Sample.objects (Some 11)
            (snd (add_receiver Sample.objects (Some 11) Sample.busy))))
  = [("alerts", 3)].
Proof.
  destruct (add_remove_round_trip Sample.objects 11 Sample.busy
              (snd (add_receiver Sample.objects (Some 11) Sample.busy)) eq_refl)
    as (_ & H).
  exact H.
Defined.

(** *** Adorned names *)

Section Names.

Variable E : environment.

Lemma no_underscore_app (a b : string) :
  no_underscore (a ++ b)%string = no_underscore a && no_underscore b.
Proof.
  induction a as [|c a IH]; simpl; [reflexivity|].
  rewrite IH. now rewrite andb_assoc.
Qed.

Lemma underscore_inside (a b : string) :
  no_underscore (a ++ String "_" b)%string = false.
Proof.
  rewrite no_underscore_app. simpl. apply andb_false_r.
Qed.

Lemma underscore_split (a b x y : string) :
  (a ++ "_" ++ x)%string = (b ++ "_" ++ y)%string ->
  no_underscore x = true -> no_underscore y = true ->
  a = b /\ x = y.
Proof.
  revert b. induction a as [|c a IH]; intros b H Hx Hy.
  - destruct b as [|d b]; simpl in H.
    + injection H as ->. now split.
    + injection H as _ H. subst x. now rewrite underscore_inside in Hx.
  - destruct b as [|d b]; simpl in H.
    + injection H as _ H. subst y. now rewrite underscore_inside in Hy.
    + injection H as -> H. destruct (IH b H Hx Hy) as (-> & ->). now split.
Qed.

Lemma to_int_add_l (a b : Z) : to_int (to_int a + b) = to_int (a + b).
Proof.
  unfold to_int.
  replace ((a + 2 ^ 31) mod 2 ^ 32 - 2 ^ 31 + b + 2 ^ 31)%Z
    with ((a + 2 ^ 31) mod 2 ^ 32 + b)%Z by lia.
  rewrite Z.add_mod_idemp_l by lia.
  now replace (a + 2 ^ 31 + b)%Z with (a + b + 2 ^ 31)%Z by lia.
Qed.

Lemma to_int_range (a : Z) : (- 2 ^ 31 <= to_int a <= INT_MAX)%Z.
Proof.
  unfold to_int, INT_MAX.
  pose proof (Z.mod_pos_bound (a + 2 ^ 31) (2 ^ 32) ltac:(lia)). lia.
Qed.

Lemma to_int_congruent (a b : Z) :
  to_int a = to_int b -> exists q : Z, (a - b = 2 ^ 32 * q)%Z.
Proof.
  unfold to_int. intros H.
  assert (Hm : ((a + 2 ^ 31) mod 2 ^ 32 = (b + 2 ^ 31) mod 2 ^ 32)%Z) by lia.
  exists ((a + 2 ^ 31) / 2 ^ 32 - (b + 2 ^ 31) / 2 ^ 32)%Z.
  pose proof (Z.div_mod (a + 2 ^ 31) (2 ^ 32) ltac:(lia)).
  pose proof (Z.div_mod (b + 2 ^ 31) (2 ^ 32) ltac:(lia)).
  lia.
Qed.

Lemma adorn_name_injective (n n' : string) (k k' : Z) :
  (forall z, no_underscore (to_string E z) = true) ->
  (forall a b, to_string E a = to_string E b -> a = b) ->
  fst (adorn_name E n k) = fst (adorn_name E n' k') ->
  n = n' /\ to_int (k + 1) = to_int (k' + 1).
Proof.
  intros Hdigits Hinj. unfold adorn_name. cbn [fst].
  destruct (String.eqb_spec n "") as [->|Hn];
    destruct (String.eqb_spec n' "") as [->|Hn']; intros H.
  - injection H as H. apply Hinj in H. now split.
  - exfalso. destruct n' as [|c n']; [contradiction|].
    simpl in H. injection H as _ H.
    pose proof (Hdigits (to_int (k + 1))) as Hd. rewrite H in Hd.
    now rewrite underscore_inside in Hd.
  - exfalso. destruct n as [|c n]; [contradiction|].
    simpl in H. injection H as _ H.
    pose proof (Hdigits (to_int (k' + 1))) as Hd. rewrite <- H in Hd.
    now rewrite underscore_inside in Hd.
  - destruct (underscore_split n n' _ _ H (Hdigits _) (Hdigits _)) as (-> & Hid).
    apply Hinj in Hid. now split.
Qed.

Lemma adorn_name_counter_class (n : string) (j j' : Z) :
  to_int (j + 1) = to_int (j' + 1) ->
  fst (adorn_name E n j) = fst (adorn_name E n j').
Proof. intros H. unfold adorn_name. cbn [fst]. now rewrite H. Qed.

Lemma adorn_names_counter (ns : list string) :
  forall k, (- 2 ^ 31 <= k <= INT_MAX)%Z ->
            snd (adorn_names E ns k) = to_int (k + Z.of_nat (List.length ns)).
Proof.
  induction ns as [|n rest IH]; intros k Hk; cbn [adorn_names].
  - cbn [snd List.length]. rewrite Z.add_0_r. symmetry. now apply to_int_small.
  - unfold adorn_name. specialize (IH (to_int (k + 1)) (to_int_range _)).
    destruct (adorn_names E rest (to_int (k + 1))) as [names k'].
    cbn [snd] in *. rewrite IH, to_int_add_l. f_equal.
    cbn [List.length]. lia.
Qed.

(** The names of a run are those of the counts [k], [k + 1], ... *)
Lemma adorn_names_in (ns : list string) :
  forall k x,
    In x (fst (adorn_names E ns k)) ->
    exists n i, (0 <= i < Z.of_nat (List.length ns))%Z
                /\ x = fst (adorn_name E n (k + i)).
Proof.
  induction ns as [|n rest IH]; intros k x Hin; cbn [adorn_names] in Hin.
  - contradiction.
  - unfold adorn_name in Hin at 1. specialize (IH (to_int (k + 1))).
    destruct (adorn_names E rest (to_int (k + 1))) as [names k'].
    cbn [fst] in *.
    destruct Hin as [<-|Hin].
    + exists n, 0%Z. split; [cbn [List.length]; lia|].
      now rewrite Z.add_0_r.
    + destruct (IH x Hin) as (n' & i & Hi & Hx).
      exists n', (i + 1)%Z. split; [cbn [List.length]; lia|].
      rewrite Hx. apply adorn_name_counter_class.
      rewrite <- Z.add_assoc, to_int_add_l. f_equal. lia.
Qed.

(** X19.  [adorn_name] gives no name twice in a run of up to 2^32 calls.
    The counter is an [int]: it goes up by one per call and wraps around
    from INT_MAX to the smallest [int].  Given that the decimal form of a
    number has no underscore and tells numbers apart, the names of a run
    of at most 2^32 calls are pairwise different whatever the base names
    are, the empty one included; after the run the counter is the start
    plus the number of calls, as an [int]; an adorned name determines the
    base name and the [int] count it was made from; and 2^32 calls later
    the same base name gets the same adorned name again. *)
Theorem adorn_name_unique :
  (forall z, no_underscore (to_string E z) = true) ->
  (forall a b, to_string E a = to_string E b -> a = b) ->
  forall (ns : list string) (k : Z),
    (- 2 ^ 31 <= k <= INT_MAX)%Z ->
    (Z.of_nat (List.length ns) <= 2 ^ 32)%Z ->
    NoDup (fst (adorn_names E ns k))
    /\ snd (adorn_names E ns k) = to_int (k + Z.of_nat (List.length ns))
    /\ (forall n n' j j',
          (- 2 ^ 31 <= j <= INT_MAX)%Z -> (- 2 ^ 31 <= j' <= INT_MAX)%Z ->
          fst (adorn_name E n j) = fst (adorn_name E n' j') ->
          n = n' /\ j = j')
    /\ (forall n j, adorn_name E n (j + 2 ^ 32) = adorn_name E n j).
Proof.
  intros Hdigits Hinj ns k Hk Hlen. split; [|split; [|split]].
  - clear Hk. revert k Hlen.
    induction ns as [|n rest IH]; intros k Hlen; cbn [adorn_names].
    + constructor.
    + pose proof (adorn_names_in rest (to_int (k + 1))) as Hin.
      cbn [List.length] in Hlen.
      specialize (IH (to_int (k + 1)) ltac:(lia)). unfold adorn_name at 1.
      destruct (adorn_names E rest (to_int (k + 1))) as [names k'].
      cbn [fst] in *.
      constructor; [|assumption].
      intros Hx. destruct (Hin _ Hx) as (n' & i & Hi & Heq).
      change (if String.eqb n "" then ("x" ++ to_string E (to_int (k + 1)))%string
              else (n ++ "_" ++ to_string E (to_int (k + 1)))%string)
        with (fst (adorn_name E n k)) in Heq.
      apply (adorn_name_injective n n' _ _ Hdigits Hinj) in Heq.
      destruct Heq as (_ & Heq). rewrite <- Z.add_assoc, to_int_add_l in Heq.
      apply to_int_congruent in Heq. destruct Heq as (q & Hq). lia.
  - now apply adorn_names_counter.
  - intros n n' j j' Hj Hj' H.
    apply (adorn_name_injective n n' _ _ Hdigits Hinj) in H.
    destruct H as (-> & H). split; [reflexivity|].
    apply to_int_congruent in H. destruct H as (q & Hq).
    unfold INT_MAX in *. lia.
  - intros n j. unfold adorn_name.
    assert (H : to_int (j + 2 ^ 32 + 1) = to_int (j + 1)).
    { unfold to_int.
      replace (j + 2 ^ 32 + 1 + 2 ^ 31)%Z with (j + 1 + 2 ^ 31 + 1 * 2 ^ 32)%Z
        by lia.
      now rewrite Z.mod_add by lia. }
    cbv zeta. now rewrite H.
Qed.

End Names.

Lemma decimal_digits (z : Z) : no_underscore (Scenario.decimal z) = true.
Proof.
  unfold Scenario.decimal.
  assert (H : forall d, no_underscore (NilEmpty.string_of_uint d) = true)
    by (induction d; simpl; auto).
  destruct (Z.to_int z); simpl; apply H.
Qed.

Lemma decimal_injective (a b : Z) :
  Scenario.decimal a = Scenario.decimal b -> a = b.
Proof.
  unfold Scenario.decimal. intros H.
  apply DecimalZ.to_int_inj.
  pose proof (NilEmpty.isi (Z.to_int a)) as Ha. rewrite H in Ha.
  rewrite NilEmpty.isi in Ha. now injection Ha.
Qed.

Lemma adorn_name_unique_witness :
  NoDup (fst (adorn_names Scenario.libpq ["cursor"; ""; "cursor"; "x"] 0))
  /\ snd (adorn_names Scenario.libpq ["cursor"; ""; "cursor"; "x"] 0) = 4%Z.
Proof.
  destruct (adorn_name_unique Scenario.libpq decimal_digits decimal_injective
              ["cursor"; ""; "cursor"; "x"] 0%Z) as (H & Hk & _).
  - unfold INT_MAX. lia.
  - simpl. lia.
  - split; [exact H|exact Hk].
Defined.

Example adorned_names :
  fst (adorn_names Scenario.libpq ["cursor"; ""; "cursor"; "x"] 0)
  = ["cursor_1"; "x2"; "cursor_3"; "x_4"]%string.
Proof. reflexivity. Qed.

(** At INT_MAX the counter wraps around. *)
Example adorned_names_wrap :
  adorn_names Scenario.libpq ["cursor"; "cursor"] INT_MAX
  = (["cursor_-2147483648"; "cursor_-2147483647"]%string, (-2147483647)%Z).
Proof. vm_compute. reflexivity. Qed.

(** *** Patterns for LIKE *)

Section Patterns.

Variable E : environment.

Lemma string_app_empty (a : string) : (a ++ "")%string = a.
Proof. induction a; simpl; congruence. Qed.

Lemma esc_like_fold (escape_char : ascii) (gs : list string) :
  forall out,
    fold_left (fun out g => (out ++ esc_like_glyph escape_char g)%string) gs out
    = (out ++ fold_right (fun g r => (esc_like_glyph escape_char g ++ r)%string)
                EmptyString gs)%string.
Proof.
  induction gs as [|g gs IH]; intros out; simpl.
  - now rewrite string_app_empty.
  - rewrite IH. now rewrite string_app_assoc.
Qed.

Lemma esc_like_glyph_length (escape_char : ascii) (g : string) :
  String.length (esc_like_glyph escape_char g)
  = String.length g + (if is_wildcard g then 1 else 0).
Proof.
  unfold esc_like_glyph, is_wildcard.
  destruct g as [|c [|d r]]; simpl; try lia.
  destruct (Ascii.eqb c "_" || Ascii.eqb c "%"); simpl; lia.
Qed.

Lemma esc_like_glyph_plain (escape_char : ascii) (g : string) :
  is_wildcard g = false -> esc_like_glyph escape_char g = g.
Proof.
  unfold esc_like_glyph, is_wildcard.
  destruct g as [|c [|d r]]; try reflexivity.
  now intros ->.
Qed.

Lemma esc_like_text (s : connection_base) (c : PGconn) (str : string)
  (escape_char : ascii) (gs : list string) :
  m_conn s = Some c -> pg_clientEncoding c <> (-1)%Z ->
  for_glyphs E (pg_clientEncoding c) str = Returns gs ->
  esc_like E str escape_char s
  = (Returns (fold_right (fun g r => (esc_like_glyph escape_char g ++ r)%string)
                EmptyString gs), s).
Proof.
  intros Hc Henc Hgs. unfold esc_like.
  rewrite (bind_eq _ _ _ _ _ (encoding_id_known s c Hc Henc)).
  rewrite Hgs. unfold ret. now rewrite esc_like_fold.
Qed.

Lemma esc_like_glyph_spelled (escape_char : ascii) (g : string) :
  esc_like_glyph escape_char g
  = if is_wildcard g then String escape_char g else g.
Proof.
  unfold esc_like_glyph, is_wildcard.
  destruct g as [|c [|d r]]; reflexivity.
Qed.

(** X20.  [esc_like] copies the glyphs of the text in order and puts the
    escape character immediately before those, and only those, that are
    the single byte '_' or '%': the result is the concatenation, glyph by
    glyph in the order of the text, of the glyph itself, or of the escape
    character followed by the glyph when it is such a byte.  Given that
    the glyphs handed out make up the text, the result is longer than the
    text by the number of such glyphs, and a text without them comes back
    unchanged, occurrences of the escape character included.  A multibyte
    glyph is never touched, whatever bytes it holds. *)
Theorem esc_like_adds_only_escapes :
  forall (s : connection_base) (c : PGconn) (str : string) (escape_char : ascii)
         (gs : list string),
    m_conn s = Some c ->
    pg_clientEncoding c <> (-1)%Z ->
    for_glyphs E (pg_clientEncoding c) str = Returns gs ->
    fold_right String.append EmptyString gs = str ->
    exists out,
      esc_like E str escape_char s = (Returns out, s)
      /\ out
         = fold_right
             (fun g rest =>
                ((if is_wildcard g then String escape_char g else g) ++ rest)%string)
             EmptyString gs
      /\ String.length out
         = String.length str + List.length (filter is_wildcard gs)
      /\ (forallb (fun g => negb (is_wildcard g)) gs = true -> out = str)
      /\ (forall g, (1 < String.length g)%nat ->
                    esc_like_glyph escape_char g = g).
Proof.
  intros s c str escape_char gs Hc Henc Hgs Hcover.
  eexists. split; [apply (esc_like_text s c str escape_char gs Hc Henc Hgs)|].
  subst str. split; [|split; [|split]].
  - clear. induction gs as [|g gs IH]; [reflexivity|].
    cbn [fold_right]. now rewrite IH, esc_like_glyph_spelled.
  - clear. induction gs as [|g gs IH]; [reflexivity|].
    cbn [fold_right filter]. rewrite !string_length_app, IH, esc_like_glyph_length.
    destruct (is_wildcard g); cbn [List.length]; lia.
  - clear. induction gs as [|g gs IH]; intros H; [reflexivity|].
    cbn [forallb] in H. apply andb_true_iff in H. destruct H as (Hg & Hrest).
    cbn [fold_right]. rewrite (IH Hrest).
    rewrite esc_like_glyph_plain; [reflexivity|].
    now destruct (is_wildcard g).
  - intros g Hlen. destruct g as [|a [|b r]]; simpl in Hlen; try lia.
    reflexivity.
Qed.

Lemma single_bytes_text (str : string) :
  fold_right String.append EmptyString (single_bytes str) = str.
Proof. induction str as [|a str IH]; simpl; congruence. Qed.

(** X21.  Round trip of [esc_like] in an encoding whose glyphs are single
    bytes.  Read as a LIKE pattern with the same escape character, the
    result has no wildcard left and matches the text literally, provided
    the escape character does not occur in the text; the function does
    not escape the escape character itself. *)
Theorem esc_like_round_trip :
  forall (s : connection_base) (c : PGconn) (str : string) (escape_char : ascii),
    m_conn s = Some c ->
    pg_clientEncoding c <> (-1)%Z ->
    for_glyphs E (pg_clientEncoding c) str = Returns (single_bytes str) ->
    occurs escape_char str = false ->
    exists out,
      esc_like E str escape_char s = (Returns out, s)
      /\ like_literal escape_char out = Some str.
Proof.
  intros s c str escape_char Hc Henc Hgs Hocc.
  eexists. split; [apply (esc_like_text s c str escape_char _ Hc Henc Hgs)|].
  clear Hgs. induction str as [|a str IH]; [reflexivity|].
  cbn [occurs] in Hocc. apply orb_false_iff in Hocc. destruct Hocc as (Ha & Hrest).
  specialize (IH Hrest).
  cbn [single_bytes fold_right]. unfold esc_like_glyph at 1.
  destruct (Ascii.eqb a "_" || Ascii.eqb a "%") eqn:Hw.
  - cbn [String.append like_literal]. rewrite Ascii.eqb_refl.
    now rewrite IH.
  - cbn [String.append like_literal]. rewrite Ha, Hw. now rewrite IH.
Qed.

End Patterns.

Lemma esc_like_adds_only_escapes_witness :
  esc_like Scenario.libpq "50%_off" Scenario.backslash Sample.open_session
  = (Returns ("50" ++ String Scenario.backslash "%"
              ++ String Scenario.backslash "_off")%string,
     Sample.open_session).
Proof.
  destruct (esc_like_adds_only_escapes Scenario.libpq Sample.open_session
              Sample.server "50%_off" Scenario.backslash (single_bytes "50%_off")
              eq_refl) as (out & H1 & H2 & _).
  - discriminate.
  - reflexivity.
  - reflexivity.
  - rewrite H1, H2. reflexivity.
Defined.

Lemma esc_like_round_trip_witness :
  exists out,
    esc_like Scenario.libpq "50%_off" Scenario.backslash Sample.open_session
    = (Returns out, Sample.open_session)
    /\ like_literal Scenario.backslash out = Some "50%_off"%string.
Proof.
  apply (esc_like_round_trip Scenario.libpq Sample.open_session Sample.server
           "50%_off" Scenario.backslash eq_refl).
  - discriminate.
  - reflexivity.
  - reflexivity.
Defined.

Example escaped_pattern :
  fst (esc_like Scenario.libpq "50%_off" Scenario.backslash Sample.open_session)
  = Returns ("50" ++ String Scenario.backslash "%"
             ++ String Scenario.backslash "_off")%string.
Proof. reflexivity. Qed.

(** *** Closing twice *)

Section CloseAgain.

Variable W : collaborators.

Lemma close_state (s : connection_base) :
  (forall t, m_trans s = Some t ->
             exists d, transaction_description W t = Returns d) ->
  (forall h, In h (m_errorhandlers s) -> errorhandler_unregister W h = None) ->
  exists notices,
    forallb is_handler_call notices = true
    /\ (m_errorhandlers s = [] -> notices = [])
    /\ close W s
       = (Returns tt,
          mkConnection (policy_do_disconnect W (m_conn s)) (m_completed s)
            (m_trans s) [] (m_trace s) (m_serverversion s) []
            (wire s ++ notices
             ++ map HandlerUnregistered (rev (m_errorhandlers s))
             ++ [Disconnected])).
Proof.
  intros Hdesc Hunreg.
  assert (Ha : exists a,
             forallb is_handler_call a = true
             /\ (m_errorhandlers s = [] -> a = [])
             /\ (match m_trans s with
                 | Some t =>
                     d <- (fun s0 => (transaction_description W t, s0)) ;;
                     modify (process_notice_string W
                               ("Closing connection while " ++ d ++ " is still open."))
                 | None => ret tt
                 end) s = (Returns tt, emit a s)).
  { destruct (m_trans s) as [t|] eqn:Et.
    - destruct (Hdesc t eq_refl) as (d & Hd).
      destruct (process_notice_string_only_calls W
                  ("Closing connection while " ++ d ++ " is still open.")%string s)
        as (a & Ea & Hcalls).
      exists a. unfold bind, modify. rewrite Hd, Ea.
      repeat split; [assumption|].
      intros Hnil. apply (emit_same a s). rewrite <- Ea.
      now apply process_notice_string_silent.
    - exists []. unfold ret. rewrite emit_nil. repeat split. }
  destruct Ha as (a & Hcalls_a & Hnil_a & Ea).
  assert (Hb : exists b,
             forallb is_handler_call b = true
             /\ (m_errorhandlers s = [] -> b = [])
             /\ (match m_receivers (emit a s) with
                 | [] => ret tt
                 | _ :: _ =>
                     modify (process_notice W
                               (Some "Closing connection with outstanding receivers.")) ;;
                     modify (set_m_receivers [])
                 end) (emit a s)
                = (Returns tt, set_m_receivers [] (emit (a ++ b) s))).
  { cbn [m_receivers emit]. destruct (m_receivers s) eqn:Er.
    - exists []. rewrite app_nil_r. repeat split.
      unfold ret, set_m_receivers, emit. simpl. now rewrite Er.
    - destruct (process_notice_only_calls W
                  (Some "Closing connection with outstanding receivers.") (emit a s))
        as (b & Eb & Hcalls).
      exists b. unfold bind, modify. rewrite Eb, emit_emit.
      repeat split; [assumption|].
      intros Hnil. apply (emit_same b (emit a s)). rewrite <- Eb.
      now apply process_notice_silent. }
  destruct Hb as (b & Hcalls_b & Hnil_b & Eb).
  exists (a ++ b). split; [|split].
  - now rewrite forallb_app, Hcalls_a, Hcalls_b.
  - intros Hnil. now rewrite (Hnil_a Hnil), (Hnil_b Hnil).
  - unfold close, try_catch.
    rewrite (bind_eq get _ s s s eq_refl).
    rewrite (bind_eq _ _ _ _ _ Ea).
    rewrite (bind_eq get _ (emit a s) _ _ eq_refl).
    rewrite (bind_eq _ _ _ _ _ Eb).
    rewrite (bind_eq get _ (set_m_receivers [] (emit (a ++ b) s)) _ _ eq_refl).
    unfold bind at 1. unfold modify at 1.
    unfold bind at 1.
    cbn [m_errorhandlers set_m_receivers emit set_m_errorhandlers].
    rewrite unregister_handlers_all
      by (intros h Hh; apply Hunreg; now apply in_rev).
    unfold modify, emit. cbn. now rewrite <- !app_assoc.
Qed.

(** X22.  Closing a connection that is already closed only hands the
    handle to the connection policy once more.  After a close in which
    the transaction gave its description and the handlers let themselves
    be unregistered, a second close returns, delivers no notice,
    unregisters nothing and leaves the connection as the first close left
    it, but for the handle, which goes through do_disconnect again.  The
    first close empties the chain and the registry and leaves the
    transaction registered. *)
Theorem close_again_only_disconnects :
  forall s : connection_base,
    (forall t, m_trans s = Some t ->
               exists d, transaction_description W t = Returns d) ->
    (forall h, In h (m_errorhandlers s) -> errorhandler_unregister W h = None) ->
    let s1 := snd (close W s) in
    m_errorhandlers s1 = []
    /\ m_receivers s1 = []
    /\ m_trans s1 = m_trans s
    /\ m_completed s1 = m_completed s
    /\ m_conn s1 = policy_do_disconnect W (m_conn s)
    /\ close W s1
       = (Returns tt,
          emit [Disconnected]
            (set_m_conn (policy_do_disconnect W (m_conn s1)) s1)).
Proof.
  intros s Hdesc Hunreg s1.
  destruct (close_state s Hdesc Hunreg) as (notices & _ & _ & Hclose).
  assert (Hs1 : s1 = mkConnection (policy_do_disconnect W (m_conn s))
                       (m_completed s) (m_trans s) [] (m_trace s)
                       (m_serverversion s) []
                       (wire s ++ notices
                        ++ map HandlerUnregistered (rev (m_errorhandlers s))
                        ++ [Disconnected])).
  { unfold s1. now rewrite Hclose. }
  repeat (split; [rewrite Hs1; reflexivity|]).
  destruct (close_state s1) as (again & _ & Hnone & Hclose1).
  - rewrite Hs1. exact Hdesc.
  - rewrite Hs1. intros h [].
  - rewrite Hclose1. rewrite (Hnone ltac:(rewrite Hs1; reflexivity)).
    rewrite Hs1. reflexivity.
Qed.

End CloseAgain.

Lemma close_again_only_disconnects_witness :
  close Sample.objects (snd (close Sample.objects Sample.busy))
  = (Returns tt,
     emit [Disconnected]
       (set_m_conn None (snd (close Sample.objects Sample.busy)))).
Proof.
  destruct (close_again_only_disconnects Sample.objects Sample.busy)
    as (_ & _ & _ & _ & _ & H).
  - intros t _. eexists. reflexivity.
  - intros h _. reflexivity.
  - exact H.
Defined.

(** *** Unregistering a transaction *)

Section Transactions.

Variable W : collaborators.

(** X23.  [unregister_transaction] never raises.  The transaction that is
    registered is taken off and nothing else changes.  For any other
    transaction, or when none is registered, the error of the registry
    is turned into a notice for the error handlers, and the registration
    stays as it is. *)
Theorem unregister_transaction_never_raises :
  forall (T : transaction_base) (s : connection_base),
    fst (unregister_transaction W T s) = Returns tt
    /\ (m_trans s = Some T ->
        unregister_transaction W T s = (Returns tt, set_m_trans None s))
    /\ (m_trans s <> Some T ->
        unregister_transaction W T s
        = (Returns tt, process_notice W (Some (usage_error_what W)) s)
        /\ m_trans (snd (unregister_transaction W T s)) = m_trans s
        /\ queries_sent (wire (snd (unregister_transaction W T s)))
           = queries_sent (wire s)).
Proof.
  intros T s.
  assert (Hcases :
    unregister_transaction W T s
    = match m_trans s with
      | Some T' =>
          if Nat.eqb T T' then (Returns tt, set_m_trans None s)
          else (Returns tt, process_notice W (Some (usage_error_what W)) s)
      | None => (Returns tt, process_notice W (Some (usage_error_what W)) s)
      end).
  { unfold unregister_transaction, try_catch, unregister_guest.
    rewrite (bind_eq get _ s s s eq_refl).
    destruct (m_trans s) as [T'|]; [destruct (Nat.eqb T T')|]; reflexivity. }
  assert (Hnotice : forall msg,
    m_trans (process_notice W msg s) = m_trans s
    /\ queries_sent (wire (process_notice W msg s)) = queries_sent (wire s)).
  { intros msg. destruct (process_notice_only_calls W msg s) as (evs & -> & Hcalls).
    split; [reflexivity|].
    rewrite wire_emit, queries_sent_app, (handler_calls_no_queries evs Hcalls).
    apply app_nil_r. }
  split; [|split].
  - rewrite Hcases. destruct (m_trans s) as [T'|]; [destruct (Nat.eqb T T')|];
      reflexivity.
  - intros Ht. rewrite Hcases, Ht, Nat.eqb_refl. reflexivity.
  - intros Hne.
    assert (Hother : unregister_transaction W T s
              = (Returns tt, process_notice W (Some (usage_error_what W)) s)).
    { rewrite Hcases. destruct (m_trans s) as [T'|]; [|reflexivity].
      destruct (Nat.eqb_spec T T') as [->|_]; [now contradiction Hne|reflexivity]. }
    rewrite Hother. cbn [snd]. split; [reflexivity|]. apply Hnotice.
Qed.

End Transactions.

Lemma unregister_transaction_never_raises_witness :
  unregister_transaction Sample.objects 8 Sample.busy
  = (Returns tt,
     emit [HandlerCalled 2
             ("Transaction registered or unregistered out of turn" ++ newline)]
       Sample.busy).
Proof.
  destruct (unregister_transaction_never_raises Sample.objects 8 Sample.busy)
    as (_ & _ & H).
  destruct H as (H & _); [discriminate|].
  rewrite H. reflexivity.
Defined.

(** *** The order of the registry *)

Section RegistryOrder.

Lemma leb_cases (a b : string) :
  String.leb a b = true <-> a = b \/ OrderedTypeEx.String_as_OT.lt a b.
Proof.
  unfold String.leb. destruct (String.compare a b) eqn:Hc.
  - apply String.compare_eq_iff in Hc. split; auto.
  - apply OrderedTypeEx.String_as_OT.cmp_lt in Hc. split; auto.
  - split; [discriminate|]. intros [->|Hlt].
    + assert (He : String.compare b b = Eq)
        by now apply OrderedTypeEx.String_as_OT.cmp_eq.
      unfold OrderedTypeEx.String_as_OT.cmp in He. congruence.
    + apply OrderedTypeEx.String_as_OT.cmp_lt in Hlt.
      unfold OrderedTypeEx.String_as_OT.cmp in Hlt. congruence.
Qed.

Lemma leb_refl (a : string) : String.leb a a = true.
Proof. apply leb_cases. now left. Qed.

Lemma leb_trans (a b c : string) :
  String.leb a b = true -> String.leb b c = true -> String.leb a c = true.
Proof.
  rewrite !leb_cases. intros [->|Hab] [->|Hbc]; auto.
  right. now apply (OrderedTypeEx.String_as_OT.lt_trans a b c).
Qed.

Lemma leb_empty (a : string) : String.leb "" a = true.
Proof. destruct a; reflexivity. Qed.

Lemma key_ordered_cons (e : string * notification_receiver) (r : receiver_list) :
  key_ordered (e :: r) = true
  <-> key_ordered r = true
      /\ forall e', In e' r -> String.leb (fst e) (fst e') = true.
Proof.
  revert e. induction r as [|e1 r IH]; intros e.
  - simpl. split; [intros _; split; [reflexivity|intros ? []]|reflexivity].
  - change (key_ordered (e :: e1 :: r))
      with (String.leb (fst e) (fst e1) && key_ordered (e1 :: r)).
    rewrite andb_true_iff. split.
    + intros (Hle & Hr). split; [assumption|].
      intros e' [<-|Hin]; [assumption|].
      apply IH in Hr. destruct Hr as (_ & Hall).
      apply (leb_trans _ (fst e1)); [assumption|now apply Hall].
    + intros (Hr & Hall). split; [|assumption]. apply Hall. now left.
Qed.

Lemma mm_insert_in (v e : string * notification_receiver) (l : receiver_list) :
  In e (mm_insert v l) -> e = v \/ In e l.
Proof.
  induction l as [|a l IH]; simpl.
  - intros [<-|[]]. now left.
  - destruct (String.leb (fst a) (fst v)); simpl.
    + intros [<-|Hin]; [right; now left|].
      destruct (IH Hin); [now left|right; now right].
    + intros [<-|Hin]; [now left|now right].
Qed.

Lemma mm_insert_ordered (v : string * notification_receiver) (l : receiver_list) :
  key_ordered l = true -> key_ordered (mm_insert v l) = true.
Proof.
  induction l as [|a l IH]; intros Hl; [reflexivity|].
  cbn [mm_insert]. apply key_ordered_cons in Hl. destruct Hl as (Hr & Hall).
  destruct (String.leb (fst a) (fst v)) eqn:Hle.
  - apply key_ordered_cons. split; [now apply IH|].
    intros e' Hin. apply mm_insert_in in Hin.
    destruct Hin as [->|Hin]; [assumption|now apply Hall].
  - assert (Hva : String.leb (fst v) (fst a) = true).
    { destruct (String.leb_total (fst v) (fst a)); [assumption|congruence]. }
    apply key_ordered_cons. split.
    + apply key_ordered_cons. now split.
    + intros e' [<-|Hin]; [assumption|].
      apply (leb_trans _ (fst a)); [assumption|now apply Hall].
Qed.

Lemma mm_insert_hint_in (v e : string * notification_receiver)
  (l : receiver_list) :
  In e (mm_insert_hint v l) -> e = v \/ In e l.
Proof.
  induction l as [|a l IH]; simpl.
  - intros [<-|[]]. now left.
  - destruct (has_key (fst v) a); simpl.
    + intros [<-|Hin]; [now left|now right].
    + intros [<-|Hin]; [right; now left|].
      destruct (IH Hin); [now left|right; now right].
Qed.

Lemma mm_insert_hint_ordered (v : string * notification_receiver)
  (l : receiver_list) :
  mm_contains (fst v) l = true ->
  key_ordered l = true -> key_ordered (mm_insert_hint v l) = true.
Proof.
  induction l as [|a l IH]; intros Hc Hl; [discriminate|].
  cbn [mm_insert_hint]. unfold mm_contains in Hc. cbn [existsb] in Hc.
  pose proof Hl as Hl0.
  apply key_ordered_cons in Hl. destruct Hl as (Hr & Hall).
  destruct (has_key (fst v) a) eqn:Hk.
  - unfold has_key in Hk. apply String.eqb_eq in Hk.
    apply key_ordered_cons. split; [assumption|].
    intros e' [<-|Hin]; [rewrite Hk; apply leb_refl|].
    rewrite <- Hk. now apply Hall.
  - cbn [orb] in Hc. apply key_ordered_cons. split; [now apply IH|].
    intros e' Hin. apply mm_insert_hint_in in Hin.
    destruct Hin as [->|Hin]; [|now apply Hall].
    apply existsb_exists in Hc. destruct Hc as (x & Hx & Hkx).
    unfold has_key in Hkx. apply String.eqb_eq in Hkx. rewrite <- Hkx.
    now apply Hall.
Qed.

Lemma mm_erase_in (v e : string * notification_receiver) (l : receiver_list) :
  In e (mm_erase v l) -> In e l.
Proof.
  induction l as [|a l IH]; simpl; [auto|].
  destruct (entry_eqb a v); simpl; [now right|].
  intros [<-|Hin]; [now left|right; now apply IH].
Qed.

Lemma mm_erase_ordered (v : string * notification_receiver) (l : receiver_list) :
  key_ordered l = true -> key_ordered (mm_erase v l) = true.
Proof.
  induction l as [|a l IH]; intros Hl; [reflexivity|].
  cbn [mm_erase]. apply key_ordered_cons in Hl. destruct Hl as (Hr & Hall).
  destruct (entry_eqb a v); [assumption|].
  apply key_ordered_cons. split; [now apply IH|].
  intros e' Hin. apply Hall. now apply (mm_erase_in v).
Qed.

Lemma restored_channels_above (rs : receiver_list) :
  forall Last k,
    key_ordered rs = true ->
    (forall e, In e rs -> String.leb Last (fst e) = true) ->
    In k (restored_channels rs Last) ->
    String.leb Last k = true /\ k <> Last.
Proof.
  induction rs as [|i rest IH]; intros Last k Hord Hlow Hin; [contradiction|].
  cbn [restored_channels] in Hin.
  apply key_ordered_cons in Hord. destruct Hord as (Hr & Hall).
  destruct (String.eqb_spec (fst i) Last) as [Heq|Hne].
  - apply (IH Last k Hr); [|assumption]. intros e He. apply Hlow. now right.
  - assert (Hi : String.leb Last (fst i) = true) by (apply Hlow; now left).
    destruct Hin as [<-|Hin]; [split; [assumption|congruence]|].
    destruct (IH (fst i) k Hr Hall Hin) as (Hle & Hdiff).
    split; [now apply (leb_trans _ (fst i))|].
    intros ->. apply Hdiff. now apply String.leb_antisym.
Qed.

Lemma restored_channels_nodup (rs : receiver_list) :
  forall Last,
    key_ordered rs = true ->
    (forall e, In e rs -> String.leb Last (fst e) = true) ->
    NoDup (restored_channels rs Last).
Proof.
  induction rs as [|i rest IH]; intros Last Hord Hlow; [constructor|].
  cbn [restored_channels].
  apply key_ordered_cons in Hord. destruct Hord as (Hr & Hall).
  destruct (String.eqb (fst i) Last).
  - apply IH; [assumption|]. intros e He. apply Hlow. now right.
  - constructor; [|now apply IH].
    intros Hin.
    destruct (restored_channels_above rest (fst i) (fst i) Hr Hall Hin) as (_ & H).
    now apply H.
Qed.

End RegistryOrder.

Section RegistryOrderKept.

Variable W : collaborators.

Lemma apply_op_ordered (op : receiver_op) (s : connection_base) :
  key_ordered (m_receivers s) = true ->
  key_ordered (m_receivers (apply_op W op s)) = true.
Proof.
  intros Hord. destruct op as [[t|]|[t|]]; cbn [apply_op].
  - rewrite add_receiver_registry.
    destruct (fst (add_receiver W (Some t) s)); [|assumption].
    destruct (mm_contains (receiver_channel W t) (m_receivers s)) eqn:Hc.
    + now apply mm_insert_hint_ordered.
    + now apply mm_insert_ordered.
  - assumption.
  - destruct (remove_receiver_registry W t s) as (_ & ->).
    now apply mm_erase_ordered.
  - assumption.
Qed.

(** X24.  The registry stays in the order of the channel names, and
    activation subscribes once per channel.  Whatever sequence of
    [add_receiver] and [remove_receiver] calls ran, succeeding or not, on
    a connection whose registry was in key order, the registry is in key
    order afterwards, and the batch [set_up_state] builds from it has
    exactly one LISTEN for each channel that has a receiver and a name
    that is not empty, and none for any other name. *)
Theorem restore_listens_once_per_channel :
  forall (s : connection_base) (ops : list receiver_op),
    key_ordered (m_receivers s) = true ->
    let rs := m_receivers (run_ops W ops s) in
    key_ordered rs = true
    /\ NoDup (restored_channels rs "")
    /\ forall k, In k (restored_channels rs "")
                 <-> (k <> EmptyString /\ mm_contains k rs = true).
Proof.
  intros s ops Hord rs.
  assert (Hrs : key_ordered rs = true).
  { unfold rs, run_ops. clear rs. revert s Hord.
    induction ops as [|op ops IH]; intros s Hord; cbn [fold_left];
      [assumption|].
    apply IH. now apply apply_op_ordered. }
  assert (Hlow : forall e, In e rs -> String.leb "" (fst e) = true)
    by (intros e _; apply leb_empty).
  split; [assumption|]. split.
  - now apply restored_channels_nodup.
  - intros k. split.
    + intros Hin. split.
      * now destruct (restored_channels_above rs "" k Hrs Hlow Hin).
      * now apply (restored_channels_registered rs "").
    + intros (Hk & Hc). now apply restored_channels_cover.
Qed.

End RegistryOrderKept.

Lemma restore_listens_once_per_channel_witness :
  NoDup
    (restored_channels
       (m_receivers
          (run_ops Sample.objects
             [AddReceiver (Some 11); AddReceiver (Some 1); AddReceiver (Some 12);
              AddReceiver (Some 2); RemoveReceiver (Some 1)]
             Sample.open_session)) "").
Proof.
  destruct (restore_listens_once_per_channel Sample.objects Sample.open_session
              [AddReceiver (Some 11); AddReceiver (Some 1); AddReceiver (Some 12);
               AddReceiver (Some 2); RemoveReceiver (Some 1)] eq_refl)
    as (_ & H & _).
  exact H.
Defined.

Example restored_after_registrations :
  restored_channels
    (m_receivers
       (run_ops Sample.objects
          [AddReceiver (Some 11); AddReceiver (Some 1); AddReceiver (Some 12);
           AddReceiver (Some 2); RemoveReceiver (Some 1)]
          Sample.open_session)) ""
  = ["alerts"; "jobs"]%string.
Proof. reflexivity. Qed.

(** *** Members on a session without a handle *)

Section NoHandle.

Variable W : collaborators.

(** X25.  What the registry, notification and COPY members do when the
    connection has no handle.  Collecting notifications returns 0 and
    touches nothing.  Adding a receiver on a channel that has none raises
    broken_connection and leaves the connection as it was.  Removing a
    registered receiver succeeds: the entry is erased, nothing is sent and
    no notice is issued.  Reading or writing a COPY line raises an
    internal error before any call to the driver. *)
Theorem members_without_handle :
  forall s : connection_base,
    m_conn s = None ->
    is_open s = false
    /\ get_notifs W s = (Returns 0%Z, s)
    /\ (forall t,
          mm_contains (receiver_channel W t) (m_receivers s) = false ->
          add_receiver W (Some t) s
          = (Throws (Exception broken_connection
                       "Can't escape identifier: connection is not active."), s))
    /\ (forall t,
          existsb (fun e => entry_eqb e (receiver_channel W t, t)) (m_receivers s)
          = true ->
          remove_receiver W (Some t) s
          = (Returns tt,
             set_m_receivers
               (mm_erase (receiver_channel W t, t) (m_receivers s)) s))
    /\ (forall Line,
          read_copy_line W Line s
          = (Throws (Exception internal_error
                       "read_copy_line() without connection"), s)
          /\ write_copy_line Line s
             = (Throws (Exception internal_error
                          "write_copy_line() without connection"), s)).
Proof.
  intros s Hc.
  assert (Ho : is_open s = false) by (unfold is_open; now rewrite Hc).
  split; [assumption|]. split; [|split; [|split]].
  - unfold get_notifs. now rewrite Ho.
  - intros t Hnew. unfold add_receiver.
    rewrite (bind_eq get _ s s s eq_refl). rewrite Hnew. cbn [negb].
    unfold bind at 1. unfold quote_name.
    rewrite (bind_eq get _ s s s eq_refl). now rewrite Hc.
  - intros t Hfound. unfold remove_receiver, try_catch.
    rewrite (bind_eq get _ s s s eq_refl).
    pose proof (found_in_equal_range (receiver_channel W t, t) (m_receivers s))
      as Hrange.
    cbn [fst] in *. rewrite Hrange, Hfound. cbn [negb]. rewrite Hc.
    reflexivity.
  - intros Line. split.
    + unfold read_copy_line. rewrite (bind_eq get _ s s s eq_refl).
      now rewrite Ho.
    + unfold write_copy_line. rewrite (bind_eq get _ s s s eq_refl).
      now rewrite Ho.
Qed.

End NoHandle.

Lemma members_without_handle_witness :
  let s := mkConnection None true None [] None 0 [("alerts", 3)] [] in
  remove_receiver Sample.objects (Some 3) s = (Returns tt, set_m_receivers [] s)
  /\ add_receiver Sample.objects (Some 11) s
     = (Throws (Exception broken_connection
                  "Can't escape identifier: connection is not active."), s).
Proof.
  intros s.
  destruct (members_without_handle Sample.objects s eq_refl)
    as (_ & _ & Hadd & Hremove & _).
  split; [apply (Hremove 3 eq_refl)|apply (Hadd 11 eq_refl)].
Defined.

(** ** Subscriptions and the registry *)

(** *** The commands of the batch that restores subscriptions *)

Lemma batch_pieces_cons (text : string) :
  forall in_quotes, exists piece rest,
    batch_pieces in_quotes text = piece :: rest.
Proof.
  induction text as [|c text IH]; intros in_quotes; cbn [batch_pieces].
  - eauto.
  - destruct in_quotes.
    + destruct (IH (negb (Ascii.eqb c DQUOTE))) as (x & l & ->). simpl. eauto.
    + destruct (Ascii.eqb c ";"); [eauto|].
      destruct (IH (Ascii.eqb c DQUOTE)) as (x & l & ->). simpl. eauto.
Qed.

Lemma batch_pieces_word (word : string) :
  forall (in_quotes : bool) (rest : string),
    closed_word in_quotes word = true ->
    batch_pieces in_quotes (word ++ String ";" rest)
    = word :: batch_pieces false rest.
Proof.
  induction word as [|c word IH]; intros in_quotes rest H;
    cbn [closed_word String.append batch_pieces] in *.
  - destruct in_quotes; [discriminate | reflexivity].
  - destruct in_quotes.
    + now rewrite (IH _ rest H).
    + apply andb_true_iff in H. destruct H as (Hc & Hw).
      destruct (Ascii.eqb c ";"); [discriminate|].
      now rewrite (IH _ rest Hw).
Qed.

Lemma batch_commands_space (rest : string) :
  batch_commands (String " " rest) = batch_commands rest.
Proof.
  unfold batch_commands.
  change (batch_pieces false (String " " rest))
    with (cons_char " " (batch_pieces false rest)).
  destruct (batch_pieces_cons rest false) as (x & l & ->). reflexivity.
Qed.

Lemma batch_commands_word (word rest : string) :
  closed_word false word = true ->
  skip_spaces word = word ->
  word <> EmptyString ->
  batch_commands (word ++ String ";" rest) = word :: batch_commands rest.
Proof.
  intros Hw Hs Hne. unfold batch_commands.
  rewrite (batch_pieces_word word false rest Hw). cbn [map filter].
  rewrite Hs. destruct (String.eqb_spec word ""); [contradiction | reflexivity].
Qed.

Lemma listen_batch_cons (c : PGconn) (k : string) (ks : list string) :
  listen_batch c (k :: ks)
  = (("LISTEN " ++ match PQescapeIdentifier c k with
                   | Some buf => c_str buf
                   | None => ""
                   end)
     ++ String ";" (String " " (listen_batch c ks)))%string.
Proof.
  unfold listen_batch at 1. cbn [fold_left]. rewrite listen_batch_from.
  cbn [String.append]. rewrite !string_app_assoc. reflexivity.
Qed.

Lemma listen_batch_commands (c : PGconn) (ks : list string) :
  (forall k, In k ks ->
             exists buf, pg_escapeIdentifier c k = Some buf
                         /\ closed_word false (c_str buf) = true) ->
  c_str (listen_batch c ks) = listen_batch c ks
  /\ batch_commands (listen_batch c ks)
     = map (fun k => match option_map c_str (PQescapeIdentifier c k) with
                     | Some q => listen_command q
                     | None => EmptyString
                     end) ks.
Proof.
  induction ks as [|k ks IH]; intros Hks; [now split|].
  destruct IH as (IHc & IHb); [intros k' Hk'; apply Hks; now right|].
  destruct (Hks k (or_introl eq_refl)) as (buf & Hbuf & Hword).
  assert (HE : PQescapeIdentifier c k = Some buf) by exact Hbuf.
  rewrite listen_batch_cons. cbn [map]. rewrite !HE. cbn [option_map].
  pose proof (c_str_idem buf) as Hq. set (q := c_str buf) in *.
  assert (Hl : c_str ("LISTEN " ++ q) = ("LISTEN " ++ q)%string).
  { now rewrite (c_str_app "LISTEN " q eq_refl), Hq. }
  split.
  - rewrite (c_str_app _ _ Hl). f_equal.
    change (c_str (String ";" (String " " (listen_batch c ks))))
      with (String ";" (String " " (c_str (listen_batch c ks)))).
    now rewrite IHc.
  - rewrite batch_commands_word;
      [|exact Hword | reflexivity | discriminate].
    rewrite batch_commands_space, IHb, (listen_command_text q Hq). reflexivity.
Qed.

Section SubscriptionsRestored.

Variable W : collaborators.

(** The subscription to the channel quoted as [q] after a LISTEN for each
    of the channels [ks]. *)
Lemma subscription_listens (s : connection_base) (q : string)
  (ks : list string) :
  c_str q = q ->
  forall active,
    subscription (listen_command q) (unlisten_command q)
      (map (fun k => match quoted s k with
                     | Some q' => listen_command q'
                     | None => EmptyString
                     end) ks) active
    = existsb (fun k => match quoted s k with
                        | Some q' => String.eqb q' q
                        | None => false
                        end) ks || active.
Proof.
  intros Hq. induction ks as [|k ks IH]; intros active; [reflexivity|].
  cbn [map subscription existsb]. rewrite IH.
  destruct (quoted s k) as [q'|] eqn:Hk.
  - pose proof (quoted_is_cstring s k q' Hk) as Hq'.
    rewrite (listen_eqb_listen q' q Hq' Hq), (listen_eqb_unlisten q' q Hq' Hq).
    destruct (String.eqb q' q), (existsb _ ks), active; reflexivity.
  - rewrite (listen_command_text q Hq), (unlisten_command_text q Hq).
    cbn. now destruct (existsb _ ks), active.
Qed.

Lemma mm_contains_entry (k : string) (rs : receiver_list) :
  mm_contains k rs = true -> exists e, In e rs /\ fst e = k.
Proof.
  unfold mm_contains. intros H. apply existsb_exists in H.
  destruct H as (e & He & Hk). exists e. split; [assumption|].
  unfold has_key in Hk. now apply String.eqb_eq.
Qed.

(** The first activation on a handle it accepts. *)
Lemma activate_supported (s : connection_base) (c : PGconn) :
  m_completed s = false ->
  m_conn s = Some c ->
  supported c ->
  (forall e, In e (m_receivers s) -> pg_escapeIdentifier c (fst e) <> None) ->
  exists c' evs,
    activate W s
    = (Returns tt,
       emit evs
         (set_m_conn (Some c')
            (set_m_serverversion (pg_serverVersion c) (set_m_completed true s))))
    /\ same_handle c c'
    /\ commands_issued evs
       = match m_receivers s with
         | [] => []
         | _ :: _ =>
             batch_commands
               (c_str (listen_batch c (restored_channels (m_receivers s) "")))
         end.
Proof.
  intros Hm Hc Hsup Hesc.
  rewrite (activate_unattempted W s Hm). cbv zeta.
  assert (Ho : is_open (set_m_completed true s) = true).
  { destruct Hsup as (Hst & _). unfold is_open, status, PQstatus. simpl.
    now rewrite Hc, Hst. }
  rewrite Ho.
  rewrite (set_up_state_supported (set_m_completed true s) c Hc eq_refl Hsup Hesc).
  cbn [m_receivers set_m_completed m_trace].
  destruct (m_receivers s) as [|e rest].
  - eexists _, []. rewrite emit_nil. split; [reflexivity|].
    split; [repeat split | reflexivity].
  - eexists _, [_]. split; [reflexivity|]. split; [repeat split|].
    cbn [commands_issued flat_map]. apply app_nil_r.
Qed.

Lemma add_receiver_without_session (s : connection_base) (c : PGconn)
  (t : notification_receiver) (buf : string) :
  m_conn s = Some c -> is_open s = false ->
  mm_contains (receiver_channel W t) (m_receivers s) = false ->
  pg_escapeIdentifier c (receiver_channel W t) = Some buf ->
  add_receiver W (Some t) s
  = (Returns tt,
     set_m_receivers
       (mm_insert (receiver_channel W t, t) (m_receivers s)) s).
Proof.
  intros Hc Ho Hnew Hbuf. unfold add_receiver.
  rewrite (bind_eq get _ s s s eq_refl). rewrite Hnew. cbn [negb].
  assert (Hquote : quote_name (receiver_channel W t) s = (Returns (c_str buf), s)).
  { unfold quote_name, bind, get. rewrite Hc. unfold PQescapeIdentifier.
    now rewrite Hbuf. }
  rewrite (bind_eq _ _ _ _ _ Hquote).
  rewrite (bind_eq get _ s s s eq_refl). rewrite Ho.
  rewrite (bind_eq (ret tt) _ s tt s eq_refl). reflexivity.
Qed.

Lemma add_receiver_without_handle (s : connection_base)
  (t : notification_receiver) :
  m_conn s = None ->
  mm_contains (receiver_channel W t) (m_receivers s) = false ->
  add_receiver W (Some t) s
  = (Throws (Exception broken_connection
               "Can't escape identifier: connection is not active."), s).
Proof.
  intros Hc Hnew. unfold add_receiver.
  rewrite (bind_eq get _ s s s eq_refl). rewrite Hnew. cbn [negb].
  unfold bind at 1. unfold quote_name, bind, get. rewrite Hc. reflexivity.
Qed.

Lemma add_receiver_refused (s : connection_base) (c : PGconn)
  (t : notification_receiver) (buf : string) (r : PGresult) :
  m_conn s = Some c -> is_open s = true ->
  mm_contains (receiver_channel W t) (m_receivers s) = false ->
  pg_escapeIdentifier c (receiver_channel W t) = Some buf ->
  pg_clientEncoding c <> (-1)%Z ->
  reply_status (pg_reply c (listen_command (c_str buf))) = CONNECTION_OK ->
  reply_result (pg_reply c (listen_command (c_str buf))) = Some r ->
  good_result r = false ->
  add_receiver W (Some t) s
  = (Throws (Exception sql_error (PQresultErrorMessage r)),
     emit [SentQuery (listen_command (c_str buf))]
       (set_m_conn (Some (fst (PQexec c (listen_command (c_str buf))))) s)).
Proof.
  intros Hc Ho Hnew Hbuf Henc Hst Hr Hbad. unfold add_receiver.
  rewrite (bind_eq get _ s s s eq_refl). rewrite Hnew. cbn [negb].
  assert (Hquote : quote_name (receiver_channel W t) s = (Returns (c_str buf), s)).
  { unfold quote_name, bind, get. rewrite Hc. unfold PQescapeIdentifier.
    now rewrite Hbuf. }
  rewrite (bind_eq _ _ _ _ _ Hquote).
  rewrite (bind_eq get _ s s s eq_refl). rewrite Ho.
  fold (listen_command (c_str buf)).
  set (cmd := listen_command (c_str buf)) in *.
  set (c' := fst (PQexec c cmd)).
  set (sa := emit [SentQuery cmd] (set_m_conn (Some c') s)).
  assert (Hexec : call_PQexec cmd s = (Returns (Some r), sa)).
  { unfold call_PQexec, sa, c', PQexec. rewrite Hc, Hr. reflexivity. }
  destruct (is_open_conn s Ho) as (c0 & Hc0 & Hm & _).
  assert (Hopen' : is_open sa = true).
  { unfold is_open, status, PQstatus, sa, c', PQexec.
    cbn [m_conn m_completed emit set_m_conn fst pg_status set_pg_status].
    now rewrite Hm, Hst. }
  unfold bind at 1. unfold try_catch.
  rewrite (bind_eq _ _ _ _ _ Hexec).
  rewrite (bind_eq _ _ _ _ _
             (make_result_known (Some r) ("LISTEN " ++ c_str buf)%string sa c'
                eq_refl Henc)).
  rewrite (check_result_bad W
             (mkResult (Some r) ("LISTEN " ++ c_str buf)%string
                (pg_clientEncoding c'))
             r sa Hopen' eq_refl Hbad).
  reflexivity.
Qed.

(** The first activation subscribes to the channels of the registry. *)
Lemma first_activation_subscribes (s : connection_base) (c : PGconn) :
  m_completed s = false ->
  m_conn s = Some c ->
  supported c ->
  cooperative W c ->
  quotes_words W c ->
  registry_named W (m_receivers s) ->
  (forall r, subscribed s (receiver_channel W r) = false) ->
  fst (activate W s) = Returns tt
  /\ healthy W (snd (activate W s))
  /\ subscriptions_match W (snd (activate W s))
  /\ commands_issued (wire (snd (activate W s)))
     = commands_issued (wire s)
       ++ map (fun k => match quoted s k with
                        | Some q => listen_command q
                        | None => EmptyString
                        end) (restored_channels (m_receivers s) "").
Proof.
  intros Hm Hc Hsup Hcoop Hwords Hnamed Hfresh.
  assert (Hkey : forall k, mm_contains k (m_receivers s) = true ->
                           exists t, k = receiver_channel W t /\ k <> EmptyString).
  { intros k Hk. destruct (mm_contains_entry k _ Hk) as (e & He & <-).
    destruct (Hnamed e He) as (Hn & Hne). exists (snd e). now split. }
  assert (Hesc : forall e, In e (m_receivers s) ->
                           pg_escapeIdentifier c (fst e) <> None).
  { intros e He. destruct (Hnamed e He) as (-> & _). apply (coop_escape Hcoop). }
  destruct (activate_supported s c Hm Hc Hsup Hesc)
    as (c' & evs & Hact & Hsame & Hevs).
  assert (Hcmds : commands_issued evs
                  = map (fun k => match quoted s k with
                                  | Some q => listen_command q
                                  | None => EmptyString
                                  end) (restored_channels (m_receivers s) "")).
  { rewrite Hevs.
    destruct (listen_batch_commands c (restored_channels (m_receivers s) ""))
      as (Hcs & Hb).
    { intros k Hk. apply restored_channels_registered in Hk.
      destruct (Hkey k Hk) as (t & -> & _).
      pose proof (coop_escape Hcoop t) as Hsome.
      destruct (pg_escapeIdentifier c (receiver_channel W t)) as [buf|] eqn:Hbuf;
        [|congruence].
      exists buf. split; [reflexivity|]. now apply (Hwords t). }
    destruct (m_receivers s) as [|e rest]; [reflexivity|].
    rewrite Hcs, Hb. apply map_ext. intros k. unfold quoted. now rewrite Hc. }
  rewrite Hact. cbn [fst snd].
  set (s' := emit evs
               (set_m_conn (Some c')
                  (set_m_serverversion (pg_serverVersion c)
                     (set_m_completed true s)))).
  split; [reflexivity|].
  assert (Hcoop' : cooperative W c')
    by (apply (cooperative_same_handle W c c'); assumption).
  split; [split; [reflexivity | exists c'; split; [reflexivity | assumption]]|].
  assert (Hissued : commands_issued (wire s')
                    = commands_issued (wire s)
                      ++ map (fun k => match quoted s k with
                                       | Some q => listen_command q
                                       | None => EmptyString
                                       end) (restored_channels (m_receivers s) "")).
  { unfold s'. rewrite wire_emit, commands_issued_app, Hcmds. reflexivity. }
  split; [|exact Hissued].
  intros r. set (ch := receiver_channel W r).
  assert (Hq' : quoted s' ch = quoted s ch).
  { unfold quoted, s'. cbn [m_conn emit set_m_conn]. rewrite Hc.
    unfold PQescapeIdentifier. destruct Hsame as (_ & _ & -> & _). reflexivity. }
  specialize (Hfresh r). fold ch in Hfresh.
  unfold subscribed in *. rewrite Hq'.
  change (m_receivers s') with (m_receivers s).
  destruct (quoted s ch) as [q|] eqn:Eq.
  2:{ exfalso. unfold quoted in Eq. rewrite Hc in Eq.
      pose proof (coop_escape Hcoop r) as Hsome. fold ch in Hsome.
      unfold PQescapeIdentifier in Eq.
      destruct (pg_escapeIdentifier c ch); [discriminate | congruence]. }
  rewrite Hissued, subscription_app, Hfresh.
  rewrite (subscription_listens s q _ (quoted_is_cstring s ch q Eq)).
  rewrite orb_false_r.
  destruct (mm_contains ch (m_receivers s)) eqn:Hreg.
  - apply existsb_exists. exists ch. split.
    + destruct (Hkey ch Hreg) as (_ & _ & Hne).
      now apply restored_channels_cover.
    + rewrite Eq. apply String.eqb_refl.
  - match goal with |- ?b = false => destruct b eqn:He end; [|reflexivity].
    apply existsb_exists in He. destruct He as (k & Hk & Hkq).
    apply restored_channels_registered in Hk.
    destruct (quoted s k) as [q'|] eqn:Ek; [|discriminate].
    apply String.eqb_eq in Hkq. subst q'.
    destruct (Hkey k Hk) as (t & Hkt & _).
    assert (Hsame_name : receiver_channel W t = ch).
    { apply (coop_escape_inj Hcoop). unfold quoted in Ek, Eq.
      rewrite Hc in Ek, Eq. unfold PQescapeIdentifier in Ek, Eq.
      rewrite Hkt in Ek. fold ch. congruence. }
    rewrite Hkt, Hsame_name in Hk. congruence.
Qed.

(** C1, as amended.  Take an open session on a handle that is up, quotes
    the channel names and accepts the LISTEN and UNLISTEN commands for
    them, in which the channels subscribed to are those that have a
    receiver; a LISTEN counts whether it was sent on its own or in a
    batch.  After any sequence of [add_receiver] and [remove_receiver]
    calls, null pointers and unknown receivers included, the channels
    subscribed to are again those with a receiver; since a sequence may
    stop anywhere, this holds at every point.  Each further call issues
    exactly the commands due: a LISTEN when it adds the first receiver of
    a channel, an UNLISTEN when it removes the last one, nothing
    otherwise.

    Outside such a session: the first receiver of a channel added to a
    session that holds a handle but is not open is registered and no
    command is issued; with no handle at all the name cannot be quoted,
    [add_receiver] raises broken_connection and registers nothing; on an
    open session whose server answers the LISTEN with an error, the
    command was issued, the SQL error goes to the caller and the receiver
    is not registered.  The first activation of a session whose registry
    holds named channels issues, in one batch, a LISTEN for each of them
    in the order of the registry, after which the session is open and
    the channels subscribed to are those with a receiver. *)
Theorem subscriptions_follow_registry :
  (forall s : connection_base,
     healthy W s ->
     subscriptions_match W s ->
     forall ops : list receiver_op,
       subscriptions_match W (run_ops W ops s)
       /\ forall op : receiver_op,
            queries_sent (wire (apply_op W op (run_ops W ops s)))
            = queries_sent (wire (run_ops W ops s))
              ++ commands_due W op (run_ops W ops s)
            /\ commands_issued (wire (apply_op W op (run_ops W ops s)))
               = commands_issued (wire (run_ops W ops s))
                 ++ commands_due W op (run_ops W ops s))
  /\ (forall (s : connection_base) (c : PGconn) (t : notification_receiver)
             (buf : string),
        m_conn s = Some c ->
        is_open s = false ->
        mm_contains (receiver_channel W t) (m_receivers s) = false ->
        pg_escapeIdentifier c (receiver_channel W t) = Some buf ->
        add_receiver W (Some t) s
        = (Returns tt,
           set_m_receivers
             (mm_insert (receiver_channel W t, t) (m_receivers s)) s))
  /\ (forall (s : connection_base) (t : notification_receiver),
        m_conn s = None ->
        mm_contains (receiver_channel W t) (m_receivers s) = false ->
        add_receiver W (Some t) s
        = (Throws (Exception broken_connection
                     "Can't escape identifier: connection is not active."), s))
  /\ (forall (s : connection_base) (c : PGconn) (t : notification_receiver)
             (buf : string) (r : PGresult),
        m_conn s = Some c ->
        is_open s = true ->
        mm_contains (receiver_channel W t) (m_receivers s) = false ->
        pg_escapeIdentifier c (receiver_channel W t) = Some buf ->
        pg_clientEncoding c <> (-1)%Z ->
        reply_status (pg_reply c (listen_command (c_str buf))) = CONNECTION_OK ->
        reply_result (pg_reply c (listen_command (c_str buf))) = Some r ->
        good_result r = false ->
        add_receiver W (Some t) s
        = (Throws (Exception sql_error (PQresultErrorMessage r)),
           emit [SentQuery (listen_command (c_str buf))]
             (set_m_conn (Some (fst (PQexec c (listen_command (c_str buf))))) s)))
  /\ (forall (s : connection_base) (c : PGconn),
        m_completed s = false ->
        m_conn s = Some c ->
        supported c ->
        cooperative W c ->
        quotes_words W c ->
        registry_named W (m_receivers s) ->
        (forall r, subscribed s (receiver_channel W r) = false) ->
        fst (activate W s) = Returns tt
        /\ healthy W (snd (activate W s))
        /\ subscriptions_match W (snd (activate W s))
        /\ commands_issued (wire (snd (activate W s)))
           = commands_issued (wire s)
             ++ map (fun k => match quoted s k with
                              | Some q => listen_command q
                              | None => EmptyString
                              end) (restored_channels (m_receivers s) "")).
Proof.
  split; [|split; [|split; [|split]]].
  - intros s Hh Hinv ops.
    destruct (run_ops_invariants W s Hh Hinv ops) as [Hh' Hinv'].
    split; [assumption|].
    intros op.
    destruct (step_invariants W (run_ops W ops s) op Hh' Hinv') as (_ & _ & Hq).
    split; [exact Hq|].
    exact (commands_follow_queries _ _ _ (apply_op_no_batch W op _) Hq).
  - exact add_receiver_without_session.
  - exact add_receiver_without_handle.
  - exact add_receiver_refused.
  - exact first_activation_subscribes.
Qed.

End SubscriptionsRestored.

Lemma sample_server_quotes_words :
  quotes_words Sample.objects Sample.server.
Proof.
  intros r buf. cbn [Sample.objects receiver_channel Sample.server Sample.handle
                       pg_escapeIdentifier].
  destruct (r <? 10)%nat; intros H; injection H as <-; reflexivity.
Qed.

Lemma subscriptions_follow_registry_witness :
  subscriptions_match Sample.objects
    (run_ops Sample.objects
       [AddReceiver (Some 1); AddReceiver (Some 2); AddReceiver (Some 11);
        RemoveReceiver (Some 1); RemoveReceiver None; RemoveReceiver (Some 2)]
       Sample.open_session)
  /\ add_receiver Sample.objects (Some 1) Sample.unactivated_session
     = (Returns tt,
        set_m_receivers [("alerts", 1)] Sample.unactivated_session)
  /\ add_receiver Sample.objects (Some 1) (Sample.session None false)
     = (Throws (Exception broken_connection
                  "Can't escape identifier: connection is not active."),
        Sample.session None false)
  /\ add_receiver Sample.objects (Some 1)
       (Sample.session (Some Sample.refusing_server) true)
     = (Throws (Exception sql_error "permission denied"),
        emit [SentQuery
                (listen_command (Sample.dquote ++ "alerts" ++ Sample.dquote))]
          (Sample.session (Some Sample.refusing_server) true))
  /\ subscriptions_match Sample.objects
       (snd (activate Sample.objects
               (mkConnection (Some Sample.server) false None [1] None 0
                  [("alerts", 1); ("alerts", 2); ("jobs", 11)] []))).
Proof.
  destruct (subscriptions_follow_registry Sample.objects)
    as (Hops & Hclosed & Hnone & Hrefused & Hactivate).
  split; [|split; [|split; [|split]]].
  - apply (Hops Sample.open_session sample_open_session_healthy
             sample_open_session_matches).
  - apply (Hclosed Sample.unactivated_session Sample.server 1
             (Sample.dquote ++ "alerts" ++ Sample.dquote)%string);
      reflexivity.
  - apply (Hnone (Sample.session None false) 1); reflexivity.
  - apply (Hrefused (Sample.session (Some Sample.refusing_server) true)
             Sample.refusing_server 1
             (Sample.dquote ++ "alerts" ++ Sample.dquote)%string
             (mkPGresult PGRES_FATAL_ERROR "permission denied"));
      try reflexivity.
    discriminate.
  - destruct (Hactivate
                (mkConnection (Some Sample.server) false None [1] None 0
                   [("alerts", 1); ("alerts", 2); ("jobs", 11)] [])
                Sample.server eq_refl eq_refl) as (_ & _ & H & _).
    + unfold supported. simpl. repeat split; lia.
    + apply sample_server_cooperative.
    + apply sample_server_quotes_words.
    + intros e He. simpl in He.
      destruct He as [<-|[<-|[<-|[]]]]; split; (reflexivity || discriminate).
    + intros r. unfold subscribed. destruct (quoted _ _); reflexivity.
    + exact H.
Defined.

(** Receivers 1 and 2 listen on "alerts", receiver 11 on "jobs": one
    LISTEN per channel when its first receiver comes, one UNLISTEN when
    the last one of "alerts" goes. *)
Example registry_scenario :
  let quote id := (Sample.dquote ++ id ++ Sample.dquote)%string in
  queries_sent
    (wire (run_ops Sample.objects
             [AddReceiver (Some 1); AddReceiver (Some 2); AddReceiver (Some 11);
              RemoveReceiver (Some 1); RemoveReceiver None; RemoveReceiver (Some 2)]
             Sample.open_session))
  = [listen_command (quote "alerts"); listen_command (quote "jobs");
     unlisten_command (quote "alerts")].
Proof. reflexivity. Qed.

(** The same receivers registered before the session is activated: the
    activation issues the two LISTEN commands in one batch. *)
Example restored_scenario :
  let quote id := (Sample.dquote ++ id ++ Sample.dquote)%string in
  commands_issued
    (wire (snd (activate Sample.objects
                  (run_ops Sample.objects
                     [AddReceiver (Some 1); AddReceiver (Some 2);
                      AddReceiver (Some 11)]
                     Sample.unactivated_session))))
  = [listen_command (quote "alerts"); listen_command (quote "jobs")].
Proof. reflexivity. Qed.

(** C1, as stated, fails on a session that holds a handle but was not
    activated: [add_receiver] registers the receiver and sends no LISTEN
    (the subscription is left to [set_up_state]), so the channel has a
    receiver and no subscription.  It also fails on an open session when
    the server refuses the command: the LISTEN was issued, the failure
    goes to the caller and the receiver is not registered. *)
Lemma listen_not_sent_before_activation :
  (subscriptions_match Sample.objects Sample.unactivated_session
   /\ m_receivers (run_ops Sample.objects [AddReceiver (Some 1)]
                     Sample.unactivated_session) = [("alerts", 1)]
   /\ wire (run_ops Sample.objects [AddReceiver (Some 1)]
              Sample.unactivated_session) = []
   /\ ~ subscriptions_match Sample.objects
          (run_ops Sample.objects [AddReceiver (Some 1)]
             Sample.unactivated_session))
  /\ (let s := Sample.session (Some Sample.refusing_server) true in
      is_open s = true
      /\ subscriptions_match Sample.objects s
      /\ fst (add_receiver Sample.objects (Some 1) s)
         = Throws (Exception sql_error "permission denied")
      /\ m_receivers (run_ops Sample.objects [AddReceiver (Some 1)] s) = []
      /\ wire (run_ops Sample.objects [AddReceiver (Some 1)] s)
         = [SentQuery (listen_command (Sample.dquote ++ "alerts" ++ Sample.dquote))]
      /\ ~ subscriptions_match Sample.objects
             (run_ops Sample.objects [AddReceiver (Some 1)] s)).
Proof.
  split.
  - split; [intros r; unfold subscribed; destruct (quoted _ _); reflexivity|].
    split; [reflexivity|]. split; [reflexivity|].
    intros H. specialize (H 1). vm_compute in H. discriminate.
  - cbv zeta. split; [reflexivity|].
    split; [intros r; unfold subscribed; destruct (quoted _ _); reflexivity|].
    split; [reflexivity|]. split; [reflexivity|]. split; [reflexivity|].
    intros H. specialize (H 1). vm_compute in H. discriminate.
Qed.
